(** * Terrain generator and RTS camera controller: model and properties

    A shallow embedding of the procedural terrain generator
    ([perlinNoise], [improvedPerlinNoise], [createTerrain], [createTree],
    [generateTreePositions], class [TerrainGenerator]) and of the camera rig
    (class [RTSCameraController]).

    Numbers.  A JavaScript [number] is modelled by [number]: an exact
    rational, one of the two infinities, or NaN.  Arithmetic on finite values
    is exact (rounding, overflow and the sign of zero are not modelled);
    division by zero, arithmetic on infinities and NaN follow IEEE 754 as
    JavaScript does.  [Math.sin] and [Math.cos] are implementation-approximated
    in ECMAScript: they are parameters of the model, mapping finite values to
    finite values.  The one rounding the source asks for by a type, the store
    into the [Float32Array] of a geometry, is modelled by a parameter
    [fround].  The addition that advances the variable of a counted loop
    decides the number of iterations: the loop is defined for any addition
    ([for_loop_with]), the exact one being the instance used by default.
    Module [Double] evaluates the noise and zoom expressions on binary64
    values, for the inputs at which rounding decides the outcome.

    Collaborators of the graphics library ([PlaneGeometry], the ray caster)
    are parameters as well. *)

From Stdlib Require Import QArith Qround Lqa Lia ZArith List Floats.
From stdpp Require Import gmap strings list.

Open Scope Q_scope.

(** ** JavaScript numbers *)

Inductive number : Type :=
| Fin (q : Q)
| PosInf
| NegInf
| NaN.

Declare Scope js_scope.
Delimit Scope js_scope with js.
Bind Scope js_scope with number.

Module Num.

(** The infinity (or NaN) selected by the sign of a finite operand. *)
Definition inf_of_sign (c : comparison) : number :=
  match c with
  | Gt => PosInf
  | Lt => NegInf
  | Eq => NaN
  end.

Definition neg (a : number) : number :=
  match a with
  | Fin q => Fin (- q)
  | PosInf => NegInf
  | NegInf => PosInf
  | NaN => NaN
  end.

Definition add (a b : number) : number :=
  match a, b with
  | NaN, _ | _, NaN => NaN
  | Fin p, Fin q => Fin (p + q)
  | PosInf, NegInf | NegInf, PosInf => NaN
  | PosInf, _ | _, PosInf => PosInf
  | NegInf, _ | _, NegInf => NegInf
  end.

Definition sub (a b : number) : number :=
  match a, b with
  | NaN, _ | _, NaN => NaN
  | Fin p, Fin q => Fin (p - q)
  | PosInf, PosInf | NegInf, NegInf => NaN
  | PosInf, _ | _, NegInf => PosInf
  | NegInf, _ | _, PosInf => NegInf
  end.

Definition mul (a b : number) : number :=
  match a, b with
  | NaN, _ | _, NaN => NaN
  | Fin p, Fin q => Fin (p * q)
  | Fin p, PosInf | PosInf, Fin p => inf_of_sign (p ?= 0)
  | Fin p, NegInf | NegInf, Fin p => inf_of_sign (0 ?= p)
  | PosInf, PosInf | NegInf, NegInf => PosInf
  | PosInf, NegInf | NegInf, PosInf => NegInf
  end.

(** A zero divisor is taken as [+0]. *)
Definition div (a b : number) : number :=
  match a, b with
  | NaN, _ | _, NaN => NaN
  | Fin p, Fin q =>
      if Qeq_bool q 0 then inf_of_sign (p ?= 0) else Fin (p / q)
  | Fin _, _ => Fin 0
  | PosInf, Fin q => match q ?= 0 with Lt => NegInf | _ => PosInf end
  | NegInf, Fin q => match q ?= 0 with Lt => PosInf | _ => NegInf end
  | _, _ => NaN
  end.

(** [a < b]; false as soon as one side is NaN. *)
Definition lt (a b : number) : bool :=
  match a, b with
  | NaN, _ | _, NaN => false
  | Fin p, Fin q => match p ?= q with Lt => true | _ => false end
  | NegInf, NegInf | PosInf, _ | _, NegInf => false
  | _, _ => true
  end.

Definition gt (a b : number) : bool := lt b a.

(** Truthiness of a number in a condition: [0] and NaN are falsy. *)
Definition truthy (a : number) : bool :=
  match a with
  | Fin q => negb (Qeq_bool q 0)
  | NaN => false
  | _ => true
  end.

(** [Math.floor]. *)
Definition floor (a : number) : number :=
  match a with
  | Fin q => Fin (inject_Z (Qfloor q))
  | _ => a
  end.

(** [Math.min] and [Math.max] of two arguments. *)
Definition min (a b : number) : number :=
  match a, b with
  | NaN, _ | _, NaN => NaN
  | _, _ => if lt b a then b else a
  end.

Definition max (a b : number) : number :=
  match a, b with
  | NaN, _ | _, NaN => NaN
  | _, _ => if lt a b then b else a
  end.

(** Lifting of a function on finite values that is NaN elsewhere
    ([Math.sin], [Math.cos]). *)
Definition lift (f : Q -> Q) (a : number) : number :=
  match a with
  | Fin q => Fin (f q)
  | _ => NaN
  end.

Definition of_nat (n : nat) : number := Fin (inject_Z (Z.of_nat n)).

(** Numeric equality of two values of the model: finite values are
    compared as rationals. *)
Definition eqv (a b : number) : Prop :=
  match a, b with
  | Fin p, Fin q => p == q
  | PosInf, PosInf | NegInf, NegInf | NaN, NaN => True
  | _, _ => False
  end.

(** [lo <= a < hi] for a finite [a]; false on infinities and NaN. *)
Definition in_range (lo hi : Q) (a : number) : Prop :=
  match a with
  | Fin q => lo <= q /\ q < hi
  | _ => False
  end.

(** [a <= b]; false as soon as one side is NaN. *)
Definition le (a b : number) : Prop :=
  match a, b with
  | NaN, _ | _, NaN => False
  | Fin p, Fin q => p <= q
  | NegInf, _ | _, PosInf => True
  | _, _ => False
  end.

(** The value an element of a [Float32Array] holds after [array[i] = a]:
    a finite [a] is rounded to binary32 by [fround] (which overflows to an
    infinity); infinities and NaN are stored as they are. *)
Definition store32 (fround : Q -> number) (a : number) : number :=
  match a with
  | Fin q => fround q
  | _ => a
  end.

End Num.

Notation "a + b" := (Num.add a b) : js_scope.
Notation "a - b" := (Num.sub a b) : js_scope.
Notation "a * b" := (Num.mul a b) : js_scope.
Notation "a / b" := (Num.div a b) : js_scope.
Notation "- a" := (Num.neg a) : js_scope.
Notation "a <? b" := (Num.lt a b) : js_scope.
Notation "a >? b" := (Num.gt a b) : js_scope.

(** ** Terrain generator: configuration records *)

Record TerrainConfig : Type := {
  width : number;
  height : number;
  widthSegments : number;
  heightSegments : number;
  scale : number;
  maxHeight : number
}.

Record TreeConfig : Type := {
  trunkRadius : number;
  trunkHeight : number;
  foliageRadius : number;
  foliageHeight : number
}.

Record Vector3 : Type := { vx : number; vy : number; vz : number }.

(** ** Noise field *)

Section Noise.

(** [Math.sin] on finite arguments. *)
Variable Math_sin : Q -> Q.

(** [perlinNoise(x, y, seed)]. *)
Definition perlinNoise (x y seed : number) : number :=
  let n := (Num.lift Math_sin (x * Fin 12.9898 + y * Fin 78.233 + seed)
            * Fin 43758.5453)%js in
  (n - Num.floor n)%js.

(** The four variables of the octave loop of [improvedPerlinNoise]. *)
Record Octaves : Type := {
  value : number;
  amplitude : number;
  frequency : number;
  maxValue : number
}.

(** One iteration of the loop body, for loop index [i]. *)
Definition octave_body (x y persistence lacunarity seed : number)
    (i : nat) (s : Octaves) : Octaves :=
  {| value := (value s
               + perlinNoise (x * frequency s) (y * frequency s)
                             (seed + Num.of_nat i) * amplitude s)%js;
     maxValue := (maxValue s + amplitude s)%js;
     amplitude := (amplitude s * persistence)%js;
     frequency := (frequency s * lacunarity)%js |}.

(** [for (let i = i0; i < i0 + k; i++) body]: the [k] remaining
    iterations starting at index [i]. *)
Fixpoint octave_loop (x y persistence lacunarity seed : number)
    (k i : nat) (s : Octaves) : Octaves :=
  match k with
  | O => s
  | S k' =>
      octave_loop x y persistence lacunarity seed k' (S i)
        (octave_body x y persistence lacunarity seed i s)
  end.

Definition octaves_init : Octaves :=
  {| value := Fin 0; amplitude := Fin 1; frequency := Fin 1;
     maxValue := Fin 0 |}.

(** [improvedPerlinNoise(x, y, octaves, persistence, lacunarity, seed)];
    the octave count is an iteration count (the callers pass 4 and 3). *)
Definition improvedPerlinNoise (x y : number) (octaves : nat)
    (persistence lacunarity seed : number) : number :=
  let s := octave_loop x y persistence lacunarity seed octaves 0
             octaves_init in
  (value s / maxValue s)%js.

End Noise.

(** ** Height-field generator *)

(** [Math.PI]. *)
Definition Math_PI : Q := 3.141592653589793.

(** A mesh of the graphics library, reduced to what the generator reads and
    writes: the flat [position] array of its geometry (three entries per
    vertex) and its rotation about the X axis.  Materials and shadow flags
    have no bearing on the properties below and are left out. *)
Record Mesh : Type := {
  positions : list number;
  rotation_x : number
}.

Section Terrain.

Variable Math_sin : Q -> Q.

(** [new THREE.PlaneGeometry(width, height, widthSegments, heightSegments)]:
    the flat [position] array of the undeformed plane. *)
Variable PlaneGeometry : number -> number -> number -> number -> list number.

(** [Math.fround] on finite values: the rounding applied by a store into the
    [Float32Array] of the geometry. *)
Variable fround : Q -> number.

(** The value [z] computed for the vertex at planar coordinates [(x, y)]. *)
Definition elevation (config : TerrainConfig) (x y : number) : number :=
  (improvedPerlinNoise Math_sin (x / scale config) (y / scale config)
     4 (Fin 0.5) (Fin 2.0) (Fin 42) * maxHeight config)%js.

(** [for (let i = 0; i < positions.length; i += 3)]: each complete triple
    [x, y, _] gets its third entry overwritten by [positions[i + 2] = z], a
    store into a [Float32Array].  A trailing incomplete triple is left as it
    is (the write at [i + 2] falls outside the typed array). *)
Fixpoint displace (config : TerrainConfig) (ps : list number) : list number :=
  match ps with
  | x :: y :: _ :: rest =>
      x :: y :: Num.store32 fround (elevation config x y)
        :: displace config rest
  | _ => ps
  end.

(** [createTerrain(config)]. *)
Definition createTerrain (config : TerrainConfig) : Mesh :=
  {| positions :=
       displace config
         (PlaneGeometry (width config) (height config)
            (widthSegments config) (heightSegments config));
     rotation_x := (- Fin Math_PI / Fin 2)%js |}.

End Terrain.

(** ** Trees *)

Inductive Geometry : Type :=
| CylinderGeometry (radiusTop radiusBottom cylHeight : number)
    (radialSegments : nat)
| SphereGeometry (radius : number) (sphWidthSegments sphHeightSegments : nat).

(** A part of a tree: its geometry and its position inside the tree. *)
Record TreePart : Type := {
  part_geometry : Geometry;
  part_position : Vector3
}.

(** A tree: a group of parts, placed at [tree_position]. *)
Record Tree : Type := {
  tree_children : list TreePart;
  tree_position : Vector3
}.

Definition vec3 (x y z : number) : Vector3 := {| vx := x; vy := y; vz := z |}.

(** [createTree(position, treeConfig)]. *)
Definition createTree (position : Vector3) (treeConfig : TreeConfig) : Tree :=
  let trunk :=
    {| part_geometry :=
         CylinderGeometry (trunkRadius treeConfig)
           (trunkRadius treeConfig * Fin 1.2)%js (trunkHeight treeConfig) 8;
       part_position :=
         vec3 (Fin 0) (trunkHeight treeConfig / Fin 2)%js (Fin 0) |} in
  let mainFoliage :=
    {| part_geometry := SphereGeometry (foliageRadius treeConfig) 8 8;
       part_position :=
         vec3 (Fin 0)
           (trunkHeight treeConfig + foliageHeight treeConfig * Fin 0.3)%js
           (Fin 0) |} in
  let upperFoliage :=
    {| part_geometry :=
         SphereGeometry (foliageRadius treeConfig * Fin 0.7)%js 8 8;
       part_position :=
         vec3 (Fin 0)
           (trunkHeight treeConfig + foliageHeight treeConfig * Fin 0.9)%js
           (Fin 0) |} in
  let sideFoliage :=
    {| part_geometry :=
         SphereGeometry (foliageRadius treeConfig * Fin 0.6)%js 8 8;
       part_position :=
         vec3 (foliageRadius treeConfig * Fin 0.4)%js
           (trunkHeight treeConfig + foliageHeight treeConfig * Fin 0.5)%js
           (Fin 0) |} in
  {| tree_children := [trunk; mainFoliage; upperFoliage; sideFoliage];
     tree_position := position |}.

(** ** Placement sampler *)

(** [for (let v = start; v < bound; v += step) acc = body(v, acc)], bounded
    by [fuel] iterations: [None] when the fuel runs out before the loop
    condition fails, or when the body itself does not return.  The addition
    performed by [v += step] decides how many iterations there are, and is
    the parameter [plus]. *)
Fixpoint for_loop_with {A : Type} (plus : number -> number -> number)
    (fuel : nat) (v bound step : number)
    (body : number -> A -> option A) (acc : A) : option A :=
  match fuel with
  | O => None
  | S fuel' =>
      if (v <? bound)%js then
        match body v acc with
        | Some acc' =>
            for_loop_with plus fuel' (plus v step) bound step body acc'
        | None => None
        end
      else Some acc
  end.

(** The loop with the exact addition of the model. *)
Definition for_loop {A : Type} (fuel : nat) (v bound step : number)
    (body : number -> A -> option A) (acc : A) : option A :=
  for_loop_with Num.add fuel v bound step body acc.

Record Raycaster : Type := { origin : Vector3; direction : Vector3 }.

(** An intersection reported by the ray caster, reduced to its point. *)
Record Intersection : Type := { point : Vector3 }.

Section Placement.

Variable Math_sin : Q -> Q.

(** [raycaster.intersectObject(mesh)]: the intersections, nearest first. *)
Variable intersectObject : Raycaster -> Mesh -> list Intersection.

(** The value compared with the threshold at candidate [(x, z)]. *)
Definition placement_noise (seed x z : number) : number :=
  improvedPerlinNoise Math_sin (x / Fin 5)%js (z / Fin 5)%js
    3 (Fin 0.5) (Fin 2.0) seed.

(** The body of the inner loop at candidate [(x, z)]. *)
Definition place (terrain : Mesh) (seed x z : number)
    (acc : list Vector3) : list Vector3 :=
  if (placement_noise seed x z >? Fin 0.6)%js then
    let raycaster :=
      {| origin := vec3 x (Fin 100) z;
         direction := vec3 (Fin 0) (- Fin 1)%js (Fin 0) |} in
    match intersectObject raycaster terrain with
    | hit :: _ => acc ++ [vec3 x (vy (point hit) + Fin 0.5)%js z]
    | [] => acc
    end
  else acc.

(** [generateTreePositions(terrain, gridSize, density = 0.1, seed = 123)],
    for the addition [plus] of the two loop headers. *)
Definition generateTreePositions_with (plus : number -> number -> number)
    (fuel : nat) (terrain : Mesh)
    (gridSize : number) (density seed : option number)
    : option (list Vector3) :=
  let density := default (Fin 0.1) density in
  let seed := default (Fin 123) seed in
  let step := (Fin 1 / (density * Fin 10))%js in
  for_loop_with plus fuel (- gridSize / Fin 2)%js (gridSize / Fin 2)%js step
    (fun x acc =>
       for_loop_with plus fuel (- gridSize / Fin 2)%js
         (gridSize / Fin 2)%js step
         (fun z acc => Some (place terrain seed x z acc)) acc)
    [].

(** The same with the exact addition of the model. *)
Definition generateTreePositions (fuel : nat) (terrain : Mesh)
    (gridSize : number) (density seed : option number)
    : option (list Vector3) :=
  generateTreePositions_with Num.add fuel terrain gridSize density seed.

End Placement.

(** The candidate grid points visited by the two loops of
    [generateTreePositions], in the order of the visits: the same loops,
    recording [(x, z)] instead of placing. *)
Definition scannedCandidates (fuel : nat) (gridSize : number)
    (density : option number) : option (list (number * number)) :=
  let density := default (Fin 0.1) density in
  let step := (Fin 1 / (density * Fin 10))%js in
  for_loop fuel (- gridSize / Fin 2)%js (gridSize / Fin 2)%js step
    (fun x acc =>
       for_loop fuel (- gridSize / Fin 2)%js (gridSize / Fin 2)%js step
         (fun z acc => Some (acc ++ [(x, z)])) acc)
    [].

(** ** Scene composer: class [TerrainGenerator] *)

Record TerrainGenerator : Type := {
  terrain : Mesh;
  trees : list Tree;  (* the children of the [trees] group *)
  config : TerrainConfig;
  treeConfig : TreeConfig
}.

(** The group returned by [generate] and [regenerate]: its two children, as
    they are when the call returns. *)
Record Scene : Type := {
  scene_terrain : Mesh;
  scene_trees : list Tree
}.

Record Stats : Type := {
  terrainVertices : number;
  treeCount : nat;
  terrainSize : number * number
}.

Definition default_terrainConfig : TerrainConfig :=
  {| width := Fin 100; height := Fin 100;
     widthSegments := Fin 64; heightSegments := Fin 64;
     scale := Fin 15; maxHeight := Fin 15 |}.

Definition default_treeConfig : TreeConfig :=
  {| trunkRadius := Fin 0.3; trunkHeight := Fin 2;
     foliageRadius := Fin 1.5; foliageHeight := Fin 2.5 |}.

(** [treePositions.forEach(position => this.trees.add(createTree(...)))]:
    each tree is appended to the children of the group. *)
Definition add_trees (treeConfig : TreeConfig) (treePositions : list Vector3)
    (group : list Tree) : list Tree :=
  fold_left (fun g position => g ++ [createTree position treeConfig])
    treePositions group.

(** The density argument of [generate]:
    [treeCount ? treeCount / (width * height) : 0.05]. *)
Definition generate_density (config : TerrainConfig)
    (treeCount : option number) : number :=
  match treeCount with
  | Some n =>
      if Num.truthy n then (n / (width config * height config))%js
      else Fin 0.05
  | None => Fin 0.05
  end.

Section Generator.

Variable Math_sin : Q -> Q.
Variable PlaneGeometry : number -> number -> number -> number -> list number.
Variable fround : Q -> number.
Variable intersectObject : Raycaster -> Mesh -> list Intersection.

(** [new TerrainGenerator(terrainConfig, treeConfig)]. *)
Definition new_TerrainGenerator (terrainConfig : option TerrainConfig)
    (treeConfig : option TreeConfig) : TerrainGenerator :=
  let terrainConfig := default default_terrainConfig terrainConfig in
  let treeConfig := default default_treeConfig treeConfig in
  {| config := terrainConfig;
     treeConfig := treeConfig;
     terrain := createTerrain Math_sin PlaneGeometry fround terrainConfig;
     trees := [] |}.

(** [generate(treeCount?)]: the generator after the call and the returned
    group. *)
Definition generate (fuel : nat) (treeCount : option number)
    (this : TerrainGenerator) : option (TerrainGenerator * Scene) :=
  match
    generateTreePositions Math_sin intersectObject fuel (terrain this)
      (Num.min (width (config this)) (height (config this)))
      (Some (generate_density (config this) treeCount))
      None
  with
  | Some treePositions =>
      let this' :=
        {| terrain := terrain this;
           trees := add_trees (treeConfig this) treePositions (trees this);
           config := config this;
           treeConfig := treeConfig this |} in
      Some (this',
            {| scene_terrain := terrain this';
               scene_trees := trees this' |})
  | None => None
  end.

Definition getTerrain (this : TerrainGenerator) : Mesh := terrain this.

Definition getTrees (this : TerrainGenerator) : list Tree := trees this.

(** [regenerate(seed = Math.random() * 1000)]; [random] is the value
    [Math.random()] yields when the default is evaluated. *)
Definition regenerate (fuel : nat) (random : number) (seed : option number)
    (this : TerrainGenerator) : option (TerrainGenerator * Scene) :=
  let seed := default (random * Fin 1000)%js seed in
  (* this.trees.clear() *)
  let cleared : list Tree := [] in
  (* this.terrain = createTerrain(this.config) *)
  let terrain' := createTerrain Math_sin PlaneGeometry fround (config this) in
  match
    generateTreePositions Math_sin intersectObject fuel terrain'
      (Num.min (width (config this)) (height (config this)))
      (Some (Fin 0.05))
      (Some seed)
  with
  | Some treePositions =>
      let this' :=
        {| terrain := terrain';
           trees := add_trees (treeConfig this) treePositions cleared;
           config := config this;
           treeConfig := treeConfig this |} in
      Some (this',
            {| scene_terrain := terrain this';
               scene_trees := trees this' |})
  | None => None
  end.

(** [getStats()]. *)
Definition getStats (this : TerrainGenerator) : Stats :=
  {| terrainVertices :=
       (Num.of_nat (length (positions (terrain this))) / Fin 3)%js;
     treeCount := length (trees this);
     terrainSize := (width (config this), height (config this)) |}.

End Generator.

(** ** Camera rig: class [RTSCameraController] *)

(** The camera driven by the rig, reduced to its position and the point it
    was last made to look at. *)
Record PerspectiveCamera : Type := {
  camera_position : Vector3;
  camera_lookAt : Vector3
}.

Record RTSCameraController : Type := {
  camera : PerspectiveCamera;
  target : Vector3;
  panSpeed : number;
  zoomSpeed : number;
  rotationSpeed : number;
  minZoom : number;
  maxZoom : number;
  minPitch : number;
  maxPitch : number;
  distance : number;
  pitch : number;
  yaw : number;
  keysPressed : gset string;
  mouseDown : bool;
  lastMouseX : number;
  lastMouseY : number
}.

Definition set_camera (c : PerspectiveCamera) (this : RTSCameraController)
    : RTSCameraController :=
  {| camera := c; target := target this; panSpeed := panSpeed this;
     zoomSpeed := zoomSpeed this; rotationSpeed := rotationSpeed this;
     minZoom := minZoom this; maxZoom := maxZoom this;
     minPitch := minPitch this; maxPitch := maxPitch this;
     distance := distance this; pitch := pitch this; yaw := yaw this;
     keysPressed := keysPressed this; mouseDown := mouseDown this;
     lastMouseX := lastMouseX this; lastMouseY := lastMouseY this |}.

Definition set_target (t : Vector3) (this : RTSCameraController)
    : RTSCameraController :=
  {| camera := camera this; target := t; panSpeed := panSpeed this;
     zoomSpeed := zoomSpeed this; rotationSpeed := rotationSpeed this;
     minZoom := minZoom this; maxZoom := maxZoom this;
     minPitch := minPitch this; maxPitch := maxPitch this;
     distance := distance this; pitch := pitch this; yaw := yaw this;
     keysPressed := keysPressed this; mouseDown := mouseDown this;
     lastMouseX := lastMouseX this; lastMouseY := lastMouseY this |}.

Definition set_distance (d : number) (this : RTSCameraController)
    : RTSCameraController :=
  {| camera := camera this; target := target this; panSpeed := panSpeed this;
     zoomSpeed := zoomSpeed this; rotationSpeed := rotationSpeed this;
     minZoom := minZoom this; maxZoom := maxZoom this;
     minPitch := minPitch this; maxPitch := maxPitch this;
     distance := d; pitch := pitch this; yaw := yaw this;
     keysPressed := keysPressed this; mouseDown := mouseDown this;
     lastMouseX := lastMouseX this; lastMouseY := lastMouseY this |}.

Definition set_pitch (p : number) (this : RTSCameraController)
    : RTSCameraController :=
  {| camera := camera this; target := target this; panSpeed := panSpeed this;
     zoomSpeed := zoomSpeed this; rotationSpeed := rotationSpeed this;
     minZoom := minZoom this; maxZoom := maxZoom this;
     minPitch := minPitch this; maxPitch := maxPitch this;
     distance := distance this; pitch := p; yaw := yaw this;
     keysPressed := keysPressed this; mouseDown := mouseDown this;
     lastMouseX := lastMouseX this; lastMouseY := lastMouseY this |}.

Definition set_yaw (y : number) (this : RTSCameraController)
    : RTSCameraController :=
  {| camera := camera this; target := target this; panSpeed := panSpeed this;
     zoomSpeed := zoomSpeed this; rotationSpeed := rotationSpeed this;
     minZoom := minZoom this; maxZoom := maxZoom this;
     minPitch := minPitch this; maxPitch := maxPitch this;
     distance := distance this; pitch := pitch this; yaw := y;
     keysPressed := keysPressed this; mouseDown := mouseDown this;
     lastMouseX := lastMouseX this; lastMouseY := lastMouseY this |}.

Definition set_keysPressed (k : gset string) (this : RTSCameraController)
    : RTSCameraController :=
  {| camera := camera this; target := target this; panSpeed := panSpeed this;
     zoomSpeed := zoomSpeed this; rotationSpeed := rotationSpeed this;
     minZoom := minZoom this; maxZoom := maxZoom this;
     minPitch := minPitch this; maxPitch := maxPitch this;
     distance := distance this; pitch := pitch this; yaw := yaw this;
     keysPressed := k; mouseDown := mouseDown this;
     lastMouseX := lastMouseX this; lastMouseY := lastMouseY this |}.

Definition set_zoom_limits (lo hi : number) (this : RTSCameraController)
    : RTSCameraController :=
  {| camera := camera this; target := target this; panSpeed := panSpeed this;
     zoomSpeed := zoomSpeed this; rotationSpeed := rotationSpeed this;
     minZoom := lo; maxZoom := hi;
     minPitch := minPitch this; maxPitch := maxPitch this;
     distance := distance this; pitch := pitch this; yaw := yaw this;
     keysPressed := keysPressed this; mouseDown := mouseDown this;
     lastMouseX := lastMouseX this; lastMouseY := lastMouseY this |}.

Definition set_pitch_limits (lo hi : number) (this : RTSCameraController)
    : RTSCameraController :=
  {| camera := camera this; target := target this; panSpeed := panSpeed this;
     zoomSpeed := zoomSpeed this; rotationSpeed := rotationSpeed this;
     minZoom := minZoom this; maxZoom := maxZoom this;
     minPitch := lo; maxPitch := hi;
     distance := distance this; pitch := pitch this; yaw := yaw this;
     keysPressed := keysPressed this; mouseDown := mouseDown this;
     lastMouseX := lastMouseX this; lastMouseY := lastMouseY this |}.

(** [THREE.MathUtils.degToRad(degrees)]: [degrees * (Math.PI / 180)]. *)
Definition degToRad (degrees : number) : number :=
  (degrees * (Fin Math_PI / Fin 180))%js.

(** The options bundle of [setConstraints]; an absent field is [None]. *)
Record Constraints : Type := {
  opt_minZoom : option number;
  opt_maxZoom : option number;
  opt_minPitch : option number;
  opt_maxPitch : option number
}.

Section Camera.

Variable Math_sin : Q -> Q.
Variable Math_cos : Q -> Q.

(** [String.prototype.toLowerCase]. *)
Variable toLowerCase : string -> string.

(** [updateCameraPosition()]. *)
Definition updateCameraPosition (this : RTSCameraController)
    : RTSCameraController :=
  let pitchRad := degToRad (pitch this) in
  let yawRad := yaw this in
  let x := (vx (target this)
            + distance this * Num.lift Math_sin yawRad
              * Num.lift Math_cos pitchRad)%js in
  let y := (vy (target this)
            + distance this * Num.lift Math_sin pitchRad)%js in
  let z := (vz (target this)
            + distance this * Num.lift Math_cos yawRad
              * Num.lift Math_cos pitchRad)%js in
  set_camera {| camera_position := vec3 x y z;
                camera_lookAt := target this |} this.

(** [onKeyDown(event)] and [onKeyUp(event)], given [event.key]. *)
Definition onKeyDown (key : string) (this : RTSCameraController)
    : RTSCameraController :=
  set_keysPressed ({[ toLowerCase key ]} ∪ keysPressed this) this.

Definition onKeyUp (key : string) (this : RTSCameraController)
    : RTSCameraController :=
  set_keysPressed (keysPressed this ∖ {[ toLowerCase key ]}) this.

(** [onMouseWheel(event)], given [event.deltaY]. *)
Definition onMouseWheel (deltaY : number) (this : RTSCameraController)
    : RTSCameraController :=
  let scrollDelta := if (deltaY >? Fin 0)%js then Fin 1 else Fin (-1) in
  let d := (distance this + scrollDelta * zoomSpeed this)%js in
  set_distance (Num.max (minZoom this) (Num.min (maxZoom this) d)) this.

(** [setTarget(position)] and [getTarget()]. *)
Definition setTarget (position : Vector3) (this : RTSCameraController)
    : RTSCameraController :=
  set_target position this.

Definition getTarget (this : RTSCameraController) : Vector3 := target this.

(** [setZoom(normalizedZoom)]. *)
Definition setZoom (normalizedZoom : number) (this : RTSCameraController)
    : RTSCameraController :=
  let normalizedZoom := Num.max (Fin 0) (Num.min (Fin 1) normalizedZoom) in
  set_distance
    (minZoom this
     + (maxZoom this - minZoom this) * (Fin 1 - normalizedZoom))%js
    this.

(** [getZoom()]. *)
Definition getZoom (this : RTSCameraController) : number :=
  (Fin 1 - (distance this - minZoom this) / (maxZoom this - minZoom this))%js.

(** [setPitch(degrees)] and [getPitch()]. *)
Definition setPitch (degrees : number) (this : RTSCameraController)
    : RTSCameraController :=
  set_pitch (Num.max (minPitch this) (Num.min (maxPitch this) degrees)) this.

Definition getPitch (this : RTSCameraController) : number := pitch this.

(** [setYaw(radians)] and [getYaw()]. *)
Definition setYaw (radians : number) (this : RTSCameraController)
    : RTSCameraController :=
  set_yaw radians this.

Definition getYaw (this : RTSCameraController) : number := yaw this.

(** [setConstraints(options)]. *)
Definition setConstraints (options : Constraints)
    (this : RTSCameraController) : RTSCameraController :=
  let this1 :=
    set_zoom_limits (default (minZoom this) (opt_minZoom options))
      (default (maxZoom this) (opt_maxZoom options)) this in
  set_pitch_limits (default (minPitch this1) (opt_minPitch options))
    (default (maxPitch this1) (opt_maxPitch options)) this1.

(** [reset(target?)]. *)
Definition reset (new_target : option Vector3) (this : RTSCameraController)
    : RTSCameraController :=
  let this1 :=
    match new_target with
    | Some t => set_target t this
    | None => this
    end in
  let this2 := set_distance (Fin 50) this1 in
  let this3 := set_pitch (Fin 45) this2 in
  let this4 := set_yaw (Fin 0) this3 in
  let this5 := set_keysPressed ∅ this4 in
  updateCameraPosition this5.

(** [new RTSCameraController(camera, domElement, initialTarget)]: the field
    initialisers, then [updateCameraPosition()]. *)
Definition new_RTSCameraController (camera : PerspectiveCamera)
    (initialTarget : option Vector3) : RTSCameraController :=
  updateCameraPosition
    {| camera := camera;
       target := default (vec3 (Fin 0) (Fin 0) (Fin 0)) initialTarget;
       panSpeed := Fin 30; zoomSpeed := Fin 5; rotationSpeed := Fin 0.01;
       minZoom := Fin 10; maxZoom := Fin 200;
       minPitch := Fin 15; maxPitch := Fin 85;
       distance := Fin 50; pitch := Fin 45; yaw := Fin 0;
       keysPressed := ∅; mouseDown := false;
       lastMouseX := Fin 0; lastMouseY := Fin 0 |}.

End Camera.

(** ** Binary64 evaluation

    The definitions above compute with exact rationals.  The functions of
    this module compute the same source expressions on binary64 values, with
    every operation rounded to nearest as the engine does.  They serve to
    evaluate the code at concrete inputs where rounding decides the result. *)

Module Double.

#[local] Set Warnings "-inexact-float".
Local Open Scope float_scope.

Definition two52 : float := 0x1p52.

(** [Math.floor]: values of magnitude 2^52 and above are integers already;
    below, adding and subtracting 2^52 rounds to a neighbouring integer,
    which is lowered by one when it lies above the argument. *)
Definition floor (x : float) : float :=
  if PrimFloat.ltb (PrimFloat.abs x) two52 then
    let r := if PrimFloat.ltb x 0 then (x - two52) + two52
             else (x + two52) - two52 in
    if PrimFloat.ltb x r then r - 1 else r
  else x.

(** [Math.min] and [Math.max] (NaN if either argument is). *)
Definition min (a b : float) : float :=
  if PrimFloat.is_nan a || PrimFloat.is_nan b then PrimFloat.nan
  else if PrimFloat.ltb b a then b else a.

Definition max (a b : float) : float :=
  if PrimFloat.is_nan a || PrimFloat.is_nan b then PrimFloat.nan
  else if PrimFloat.ltb a b then b else a.

(** [Math.sin] restricted to arguments of magnitude below 2^-26, where the
    nearest binary64 value to the sine of [a] is [a] itself. *)
Definition small_angle_sin (a : float) : float := a.

(** [perlinNoise(x, y, seed)]. *)
Definition perlinNoise (Math_sin : float -> float) (x y seed : float)
  : float :=
  let n := Math_sin (x * 12.9898 + y * 78.233 + seed) * 43758.5453 in
  n - floor n.

(** The four variables of the octave loop, and its index. *)
Record Octaves : Type := {
  value : float;
  amplitude : float;
  frequency : float;
  maxValue : float;
  index : float
}.

(** [for (let i = 0; i < octaves; i++) body]: the state the loop ends in,
    or [None] if it is still running after [fuel] iterations. *)
Fixpoint octave_loop (Math_sin : float -> float)
    (x y octaves persistence lacunarity seed : float)
    (fuel : nat) (s : Octaves) : option Octaves :=
  if PrimFloat.ltb (index s) octaves then
    match fuel with
    | O => None
    | S fuel' =>
        octave_loop Math_sin x y octaves persistence lacunarity seed fuel'
          {| value := value s
                      + perlinNoise Math_sin (x * frequency s)
                          (y * frequency s) (seed + index s) * amplitude s;
             maxValue := maxValue s + amplitude s;
             amplitude := amplitude s * persistence;
             frequency := frequency s * lacunarity;
             index := index s + 1 |}
    end
  else Some s.

(** [improvedPerlinNoise(x, y, octaves, persistence, lacunarity, seed)]. *)
Definition improvedPerlinNoise (Math_sin : float -> float) (fuel : nat)
    (x y octaves persistence lacunarity seed : float) : option float :=
  match octave_loop Math_sin x y octaves persistence lacunarity seed fuel
          {| value := 0; amplitude := 1; frequency := 1; maxValue := 0;
             index := 0 |} with
  | Some s => Some (value s / maxValue s)
  | None => None
  end.

(** The distance [setZoom(normalizedZoom)] assigns under the given limits. *)
Definition setZoom (minZoom maxZoom normalizedZoom : float) : float :=
  let normalizedZoom := max 0 (min 1 normalizedZoom) in
  minZoom + (maxZoom - minZoom) * (1 - normalizedZoom).

(** The value [getZoom()] returns at the given limits and distance. *)
Definition getZoom (minZoom maxZoom distance : float) : float :=
  1 - (distance - minZoom) / (maxZoom - minZoom).

End Double.

(** ** Definitions used to state the properties *)

(** The octave-loop variables when all four are finite. *)
Definition finite_octaves (v a f m : Q) : Octaves :=
  {| value := Fin v; amplitude := Fin a; frequency := Fin f;
     maxValue := Fin m |}.

(** The first [n] values of a loop variable that starts at [start] and is
    advanced by [v += step]: [start], [start + step], [start + step + step],
    and so on, exactly as the additions are performed. *)
Fixpoint ramp (n : nat) (start step : Q) : list Q :=
  match n with
  | O => []
  | S n' => start :: ramp n' (start + step) step
  end.

(** The value of the loop variable after [n] additions. *)
Fixpoint ramp_end (n : nat) (start step : Q) : Q :=
  match n with
  | O => start
  | S n' => ramp_end n' (start + step) step
  end.

(** The same for a loop variable advanced by [v = plus v step]: its first
    [n] values, and its value after [n] additions. *)
Fixpoint ramp_with (plus : number -> number -> number) (n : nat)
    (start step : number) : list number :=
  match n with
  | O => []
  | S n' => start :: ramp_with plus n' (plus start step) step
  end.

Fixpoint ramp_end_with (plus : number -> number -> number) (n : nat)
    (start step : number) : number :=
  match n with
  | O => start
  | S n' => ramp_end_with plus n' (plus start step) step
  end.

(** The number of iterations of [for (v = start; v < bound; v += step)] for
    finite bounds and a positive step. *)
Definition trip_count (start bound step : Q) : nat :=
  Z.to_nat (Qceiling ((bound - start) / step)).

(** The number of iterations of each of the two loops of
    [generateTreePositions] for a finite region size and density. *)
Definition grid_count (gridSize density : Q) : nat :=
  trip_count (- gridSize / 2) (gridSize / 2) (1 / (density * 10)).

(** The coordinates visited along one axis, in the order of the visits. *)
Definition grid_axis (gridSize density : Q) : list Q :=
  ramp (grid_count gridSize density) (- gridSize / 2) (1 / (density * 10)).

(** The candidate grid: for each [x] of the axis in turn, each [z] of the
    axis in turn. *)
Definition grid_candidates (gridSize density : Q) : list (number * number) :=
  flat_map
    (fun x => map (fun z => (Fin x, Fin z)) (grid_axis gridSize density))
    (grid_axis gridSize density).

(** The downward ray cast at candidate [(x, z)]. *)
Definition downward_ray (x z : number) : Raycaster :=
  {| origin := vec3 x (Fin 100) z;
     direction := vec3 (Fin 0) (- Fin 1)%js (Fin 0) |}.

Section Accepted.

Variable Math_sin : Q -> Q.
Variable intersectObject : Raycaster -> Mesh -> list Intersection.

(** The anchors a candidate [(x, z)] contributes to the result: one when
    the noise value exceeds the threshold and the downward ray hits the
    surface, none otherwise. *)
Definition accepted (terrain : Mesh) (seed : number) (c : number * number)
    : list Vector3 :=
  if (improvedPerlinNoise Math_sin (c.1 / Fin 5)%js (c.2 / Fin 5)%js 3
        (Fin 0.5) (Fin 2.0) seed >? Fin 0.6)%js
  then
    match intersectObject (downward_ray c.1 c.2) terrain with
    | hit :: _ => [vec3 c.1 (vy (point hit) + Fin 0.5)%js c.2]
    | [] => []
    end
  else [].

End Accepted.

(** Two optional results agree: both absent, or both present and related. *)
Definition option_rel {A B : Type} (R : A -> B -> Prop)
    (a : option A) (b : option B) : Prop :=
  match a, b with
  | Some x, Some y => R x y
  | None, None => True
  | _, _ => False
  end.

(** The generator and the returned group once a tree has been added to the
    group for each of the given positions. *)
Definition planted (this : TerrainGenerator) (treePositions : list Vector3)
    : TerrainGenerator * Scene :=
  let group :=
    trees this ++ map (fun p => createTree p (treeConfig this)) treePositions in
  ({| terrain := terrain this; trees := group; config := config this;
      treeConfig := treeConfig this |},
   {| scene_terrain := terrain this; scene_trees := group |}).

(** The generator with its tree group emptied and its terrain replaced. *)
Definition cleared (terrain' : Mesh) (this : TerrainGenerator)
    : TerrainGenerator :=
  {| terrain := terrain'; trees := []; config := config this;
     treeConfig := treeConfig this |}.

(** *** Sample collaborators, for running the model on concrete inputs *)

(** A stand-in for [Math.sin]: its cubic Taylor polynomial. *)
Definition sample_sin (q : Q) : Q := q - q * q * q / 6.

(** A stand-in for [Math.cos]: its quadratic Taylor polynomial. *)
Definition sample_cos (q : Q) : Q := 1 - q * q / 2.

(** A stand-in for [Math.fround]: rounding to the nearest multiple of
    [2^-24] (the spacing of binary32 values between 1/2 and 1), ties
    upwards, as a fraction in lowest terms. *)
Definition sample_fround (q : Q) : number :=
  Fin (Qred (inject_Z (Qfloor (q * 16777216 + (1 # 2))) / 16777216)).

(** A stand-in for the addition of the engine: the exact sum rounded to
    the nearest multiple of [2^-24]. *)
Definition sample_plus (a b : number) : number :=
  Num.store32 sample_fround (a + b)%js.

(** The plane of one segment per axis: its four corners, row by row. *)
Definition corner_PlaneGeometry (w h ws hs : number) : list number :=
  [ (- w / Fin 2)%js; (h / Fin 2)%js; Fin 0;
    (w / Fin 2)%js; (h / Fin 2)%js; Fin 0;
    (- w / Fin 2)%js; (- h / Fin 2)%js; Fin 0;
    (w / Fin 2)%js; (- h / Fin 2)%js; Fin 0 ].

(** A ray caster for a surface of constant elevation 0 that extends over
    the half-plane [x < 0] only: a ray hits at its own [(x, z)], and rays
    with [x >= 0] miss. *)
Definition halfplane_intersectObject (r : Raycaster) (m : Mesh)
    : list Intersection :=
  if (vx (origin r) <? Fin 0)%js
  then [ {| point := vec3 (vx (origin r)) (Fin 0) (vz (origin r)) |} ]
  else [].

(** A terrain config with no vertical displacement. *)
Definition flat_terrainConfig : TerrainConfig :=
  {| width := Fin 100; height := Fin 100;
     widthSegments := Fin 1; heightSegments := Fin 1;
     scale := Fin 15; maxHeight := Fin 0 |}.

(** A natural number as a rational. *)
Definition Qnat (k : nat) : Q := inject_Z (Z.of_nat k).

(** A generator built with the default configs over the sample
    collaborators. *)
Definition sample_generator : TerrainGenerator :=
  new_TerrainGenerator sample_sin corner_PlaneGeometry sample_fround None None.

(** A camera rig in its initial state. *)
Definition sample_controller : RTSCameraController :=
  new_RTSCameraController sample_sin sample_cos
    {| camera_position := vec3 (Fin 100) (Fin 150) (Fin 100);
       camera_lookAt := vec3 (Fin 0) (Fin 0) (Fin 0) |}
    None.

(** ** Camera rig: pointer, keyboard and listener handling *)

(** [v.addScaledVector(d, s)]: [v + d * s], component by component. *)
Definition addScaledVector (d : Vector3) (s : number) (v : Vector3)
    : Vector3 :=
  vec3 (vx v + vx d * s)%js (vy v + vy d * s)%js (vz v + vz d * s)%js.

(** A mouse event, reduced to the fields the handlers read. *)
Record MouseEvent : Type := {
  clientX : number;
  clientY : number;
  buttons : N;
  shiftKey : bool
}.

Definition set_mouse (down : bool) (x y : number)
    (this : RTSCameraController) : RTSCameraController :=
  {| camera := camera this; target := target this; panSpeed := panSpeed this;
     zoomSpeed := zoomSpeed this; rotationSpeed := rotationSpeed this;
     minZoom := minZoom this; maxZoom := maxZoom this;
     minPitch := minPitch this; maxPitch := maxPitch this;
     distance := distance this; pitch := pitch this; yaw := yaw this;
     keysPressed := keysPressed this; mouseDown := down;
     lastMouseX := x; lastMouseY := y |}.

Definition set_speeds (pan zoom rotation : number)
    (this : RTSCameraController) : RTSCameraController :=
  {| camera := camera this; target := target this; panSpeed := pan;
     zoomSpeed := zoom; rotationSpeed := rotation;
     minZoom := minZoom this; maxZoom := maxZoom this;
     minPitch := minPitch this; maxPitch := maxPitch this;
     distance := distance this; pitch := pitch this; yaw := yaw this;
     keysPressed := keysPressed this; mouseDown := mouseDown this;
     lastMouseX := lastMouseX this; lastMouseY := lastMouseY this |}.

(** The options bundle of [setSpeeds]; an absent field is [None]. *)
Record Speeds : Type := {
  opt_panSpeed : option number;
  opt_zoomSpeed : option number;
  opt_rotationSpeed : option number
}.

(** [setSpeeds(options)]. *)
Definition setSpeeds (options : Speeds) (this : RTSCameraController)
    : RTSCameraController :=
  set_speeds (default (panSpeed this) (opt_panSpeed options))
    (default (zoomSpeed this) (opt_zoomSpeed options))
    (default (rotationSpeed this) (opt_rotationSpeed options)) this.

(** [onMouseDown(event)] and [onMouseUp(event)]. *)
Definition onMouseDown (event : MouseEvent) (this : RTSCameraController)
    : RTSCameraController :=
  set_mouse true (clientX event) (clientY event) this.

Definition onMouseUp (this : RTSCameraController) : RTSCameraController :=
  set_mouse false (lastMouseX this) (lastMouseY this) this.

Section CameraInput.

Variable Math_sin : Q -> Q.
Variable Math_cos : Q -> Q.

(** [Vector3.normalize()] of the graphics library. *)
Variable normalize : Vector3 -> Vector3.

(** The [forward] and [right] vectors computed from the current yaw. *)
Definition forward_vector (this : RTSCameraController) : Vector3 :=
  normalize
    (vec3 (Num.lift Math_sin (yaw this)) (Fin 0)
       (Num.lift Math_cos (yaw this))).

Definition right_vector (this : RTSCameraController) : Vector3 :=
  normalize
    (vec3 (Num.lift Math_cos (yaw this)) (Fin 0)
       (- Num.lift Math_sin (yaw this))%js).

(** [panByPixels(deltaX, deltaY)]. *)
Definition panByPixels (deltaX deltaY : number) (this : RTSCameraController)
    : RTSCameraController :=
  let panAmount := (distance this / Fin 100 * panSpeed this)%js in
  let forward := forward_vector this in
  let right := right_vector this in
  let target1 :=
    addScaledVector right (- deltaX * panAmount * Fin 0.01)%js
      (target this) in
  let target2 :=
    addScaledVector forward (- deltaY * panAmount * Fin 0.01)%js target1 in
  set_target target2 this.

(** [onMouseMove(event)]. *)
Definition onMouseMove (event : MouseEvent) (this : RTSCameraController)
    : RTSCameraController :=
  let this1 :=
    if mouseDown this then
      let deltaX := (clientX event - lastMouseX this)%js in
      let deltaY := (clientY event - lastMouseY this)%js in
      if (buttons event =? 2)%N then
        let this_y :=
          set_yaw (yaw this - deltaX * rotationSpeed this)%js this in
        let this_p :=
          set_pitch (pitch this_y + deltaY * rotationSpeed this_y)%js
            this_y in
        set_pitch
          (Num.max (minPitch this_p)
             (Num.min (maxPitch this_p) (pitch this_p)))
          this_p
      else if ((buttons event =? 4)%N
               || ((buttons event =? 1)%N && shiftKey event))%bool then
        panByPixels deltaX deltaY this
      else this
    else this in
  set_mouse (mouseDown this1) (clientX event) (clientY event) this1.

(** One [if (this.keysPressed.has(key)) ...] statement. *)
Definition when_pressed (key : string)
    (action : RTSCameraController -> RTSCameraController)
    (this : RTSCameraController) : RTSCameraController :=
  if decide (key ∈ keysPressed this) then action this else this.

(** [handleKeyboardInput()]. *)
Definition handleKeyboardInput (this : RTSCameraController)
    : RTSCameraController :=
  let moveAmount := (panSpeed this * Fin 0.016)%js in
  let forward := forward_vector this in
  let right := right_vector this in
  let this1 :=
    when_pressed "w"
      (fun s => set_target (addScaledVector forward moveAmount (target s)) s)
      this in
  let this2 :=
    when_pressed "s"
      (fun s =>
         set_target (addScaledVector forward (- moveAmount)%js (target s)) s)
      this1 in
  let this3 :=
    when_pressed "a"
      (fun s =>
         set_target (addScaledVector right (- moveAmount)%js (target s)) s)
      this2 in
  let this4 :=
    when_pressed "d"
      (fun s => set_target (addScaledVector right moveAmount (target s)) s)
      this3 in
  let this5 :=
    when_pressed "q"
      (fun s => set_yaw (yaw s - rotationSpeed s * Fin 2)%js s) this4 in
  let this6 :=
    when_pressed "e"
      (fun s => set_yaw (yaw s + rotationSpeed s * Fin 2)%js s) this5 in
  let this7 :=
    when_pressed "z"
      (fun s =>
         let s' := set_distance (distance s - zoomSpeed s)%js s in
         set_distance (Num.max (minZoom s') (distance s')) s')
      this6 in
  when_pressed "x"
    (fun s =>
       let s' := set_distance (distance s + zoomSpeed s)%js s in
       set_distance (Num.min (maxZoom s') (distance s')) s')
    this7.

(** [update()]. *)
Definition update (this : RTSCameraController) : RTSCameraController :=
  updateCameraPosition Math_sin Math_cos (handleKeyboardInput this).

End CameraInput.

(** *** Event listeners

    A function object has an identity: every evaluation of an arrow function
    yields an object distinct from all earlier ones.  The identities are
    natural numbers handed out in order; [removeEventListener] compares the
    event type and the identity of the callback. *)

Inductive Handler : Type :=
| OnKeyDown | OnKeyUp | OnMouseDown | OnMouseMove | OnMouseUp | OnMouseWheel
| PreventDefault.

Record Listener : Type := {
  event_type : string;
  closure : nat;
  handler : Handler
}.

(** The two event targets the rig registers on, and the identity the next
    function object will get. *)
Record Host : Type := {
  document_listeners : list Listener;
  element_listeners : list Listener;
  next_closure : nat
}.

Definition same_listener (type : string) (id : nat) (l : Listener) : bool :=
  bool_decide (event_type l = type) && (closure l =? id)%nat.

(** [target.addEventListener(type, callback)]: appended unless the same
    callback is already registered for the type. *)
Definition addEventListener (type : string) (id : nat) (h : Handler)
    (ls : list Listener) : list Listener :=
  if existsb (same_listener type id) ls then ls
  else ls ++ [ {| event_type := type; closure := id; handler := h |} ].

(** [target.removeEventListener(type, callback)]. *)
Definition removeEventListener (type : string) (id : nat)
    (ls : list Listener) : list Listener :=
  List.filter (fun l => negb (same_listener type id l)) ls.

(** [document.addEventListener(type, (e) => ...)] and
    [this.domElement.addEventListener(type, (e) => ...)] with a fresh arrow
    function. *)
Definition listen_document (type : string) (h : Handler) (host : Host)
    : Host :=
  {| document_listeners :=
       addEventListener type (next_closure host) h (document_listeners host);
     element_listeners := element_listeners host;
     next_closure := S (next_closure host) |}.

Definition listen_element (type : string) (h : Handler) (host : Host)
    : Host :=
  {| document_listeners := document_listeners host;
     element_listeners :=
       addEventListener type (next_closure host) h (element_listeners host);
     next_closure := S (next_closure host) |}.

(** The same for [removeEventListener], again with a fresh arrow function. *)
Definition unlisten_document (type : string) (host : Host) : Host :=
  {| document_listeners :=
       removeEventListener type (next_closure host) (document_listeners host);
     element_listeners := element_listeners host;
     next_closure := S (next_closure host) |}.

Definition unlisten_element (type : string) (host : Host) : Host :=
  {| document_listeners := document_listeners host;
     element_listeners :=
       removeEventListener type (next_closure host) (element_listeners host);
     next_closure := S (next_closure host) |}.

(** [setupEventListeners()]. *)
Definition setupEventListeners (host : Host) : Host :=
  listen_element "contextmenu" PreventDefault
    (listen_element "wheel" OnMouseWheel
       (listen_element "mouseup" OnMouseUp
          (listen_element "mousemove" OnMouseMove
             (listen_element "mousedown" OnMouseDown
                (listen_document "keyup" OnKeyUp
                   (listen_document "keydown" OnKeyDown host)))))).

(** [dispose()]. *)
Definition dispose (host : Host) : Host :=
  unlisten_element "wheel"
    (unlisten_element "mouseup"
       (unlisten_element "mousemove"
          (unlisten_element "mousedown"
             (unlisten_document "keyup"
                (unlisten_document "keydown" host))))).

(** ** Further definitions used to state properties *)

(** Numeric equality of two vectors, component by component. *)
Definition vec_eqv (a b : Vector3) : Prop :=
  Num.eqv (vx a) (vx b) /\ Num.eqv (vy a) (vy b) /\ Num.eqv (vz a) (vz b).

(** Every registered callback was created before the next identity. *)
Definition closures_below (host : Host) : Prop :=
  Forall (fun l => (closure l < next_closure host)%nat)
    (document_listeners host)
  /\ Forall (fun l => (closure l < next_closure host)%nat)
       (element_listeners host).

(** A stand-in for [Vector3.normalize()] that leaves the vector as it is. *)
Definition sample_normalize (v : Vector3) : Vector3 := v.

(** A small terrain config. *)
Definition small_terrainConfig : TerrainConfig :=
  {| width := Fin 4; height := Fin 6;
     widthSegments := Fin 1; heightSegments := Fin 1;
     scale := Fin 15; maxHeight := Fin 15 |}.

Definition small_generator : TerrainGenerator :=
  new_TerrainGenerator sample_sin corner_PlaneGeometry sample_fround
    (Some small_terrainConfig) None.

(** A stand-in for [toLowerCase] on ASCII letters. *)
Definition lower_ascii (c : Ascii.ascii) : Ascii.ascii :=
  let n := Ascii.nat_of_ascii c in
  if ((65 <=? n) && (n <=? 90))%nat then Ascii.ascii_of_nat (n + 32) else c.

Fixpoint sample_toLowerCase (s : string) : string :=
  match s with
  | EmptyString => EmptyString
  | String c rest => String (lower_ascii c) (sample_toLowerCase rest)
  end.

(** A host on which nothing is registered yet. *)
Definition empty_host : Host :=
  {| document_listeners := []; element_listeners := []; next_closure := 0 |}.

(** The keys [handleKeyboardInput] reacts to. *)
Definition bound_keys : list string :=
  ["w"; "s"; "a"; "d"; "q"; "e"; "z"; "x"]%string.

(** A rig on which W, S, Q and E are held. *)
Definition busy_controller : RTSCameraController :=
  onKeyDown sample_toLowerCase "E"
    (onKeyDown sample_toLowerCase "Q"
       (onKeyDown sample_toLowerCase "S"
          (onKeyDown sample_toLowerCase "W" sample_controller))).

(** A rig on which the right button was pressed at [(10, 20)], and a move
    to [(30, 25)] with that button held. *)
Definition pressed_controller : RTSCameraController :=
  onMouseDown
    {| clientX := Fin 10; clientY := Fin 20; buttons := 2; shiftKey := false |}
    sample_controller.

Definition drag_event : MouseEvent :=
  {| clientX := Fin 30; clientY := Fin 25; buttons := 2; shiftKey := false |}.

(** A right-button move far down the screen. *)
Definition long_drag_event : MouseEvent :=
  {| clientX := Fin 30; clientY := Fin 5020; buttons := 2;
     shiftKey := false |}.

(** The initial rig at distance 198, within one zoom step of [maxZoom]. *)
Definition far_controller : RTSCameraController :=
  set_distance (Fin 198) sample_controller.

(** Options that raise the lower zoom limit to 100, and options that make
    both zoom limits 50. *)
Definition raise_minZoom : Constraints :=
  {| opt_minZoom := Some (Fin 100); opt_maxZoom := None;
     opt_minPitch := None; opt_maxPitch := None |}.

Definition equal_zoom_limits : Constraints :=
  {| opt_minZoom := Some (Fin 50); opt_maxZoom := Some (Fin 50);
     opt_minPitch := None; opt_maxPitch := None |}.

(** * Properties *)

(** ** Arithmetic of the number model *)

Lemma div_fin_nonzero (p q : Q) :
  ~ q == 0 -> (Fin p / Fin q)%js = Fin (p / q).
Proof.
  intros Hq. simpl. destruct (Qeq_bool q 0) eqn:E; [|reflexivity].
  apply Qeq_bool_eq in E. contradiction.
Qed.

Lemma div_fin_zero_not_finite (p q : Q) :
  q == 0 -> forall r, (Fin p / Fin q)%js <> Fin r.
Proof.
  intros Hq r. simpl. rewrite (Qeq_eq_bool _ _ Hq).
  destruct (p ?= 0); discriminate.
Qed.

Lemma lt_fin (p q : Q) : (Fin p <? Fin q)%js = true <-> p < q.
Proof.
  simpl. rewrite Qlt_alt. destruct (p ?= q); split; congruence.
Qed.

Lemma lt_fin_false (p q : Q) : (Fin p <? Fin q)%js = false <-> q <= p.
Proof.
  simpl. rewrite Qle_alt, <- (Qcompare_antisym p q).
  destruct (p ?= q); simpl; intuition congruence.
Qed.

(** ** Noise field *)

Section NoiseFacts.

Variable Math_sin : Q -> Q.

(** The fractional part taken by [perlinNoise] lies in the unit interval. *)
Lemma perlinNoise_range (x y seed : Q) :
  exists r, perlinNoise Math_sin (Fin x) (Fin y) (Fin seed) = Fin r
            /\ 0 <= r /\ r < 1.
Proof.
  unfold perlinNoise. simpl.
  set (n := Math_sin (x * 12.9898 + y * 78.233 + seed) * 43758.5453).
  exists (n - inject_Z (Qfloor n)). split; [reflexivity|].
  pose proof (Qfloor_le n) as Hlo.
  pose proof (Qlt_floor n) as Hhi.
  rewrite inject_Z_plus in Hhi. change (inject_Z 1) with 1 in Hhi.
  split; lra.
Qed.

(** One iteration keeps the loop variables finite; with a non-negative
    amplitude the accumulated value stays non-negative and the gap to the
    accumulated amplitude grows by [amplitude * (1 - noise)]. *)
Lemma octave_body_finite (x y persistence lacunarity seed : Q) (i : nat)
    (v a f m : Q) :
  exists n,
    0 <= n /\ n < 1 /\
    octave_body Math_sin (Fin x) (Fin y) (Fin persistence) (Fin lacunarity)
      (Fin seed) i (finite_octaves v a f m)
    = finite_octaves (v + n * a) (a * persistence) (f * lacunarity) (m + a).
Proof.
  unfold octave_body, finite_octaves; cbn [value amplitude frequency maxValue].
  destruct (perlinNoise_range (x * f) (y * f) (seed + inject_Z (Z.of_nat i)))
    as (n & Hn & Hn0 & Hn1).
  exists n. split; [exact Hn0|]. split; [exact Hn1|].
  change (Fin x * Fin f)%js with (Fin (x * f)).
  change (Fin y * Fin f)%js with (Fin (y * f)).
  change (Fin seed + Num.of_nat i)%js
    with (Fin (seed + inject_Z (Z.of_nat i))).
  rewrite Hn. reflexivity.
Qed.

Lemma octave_loop_finite (x y persistence lacunarity seed : Q) :
  0 <= persistence ->
  forall (k i : nat) (v a f m : Q),
    0 <= a -> 0 <= v ->
    exists v' a' f' m',
      octave_loop Math_sin (Fin x) (Fin y) (Fin persistence)
        (Fin lacunarity) (Fin seed) k i (finite_octaves v a f m)
      = finite_octaves v' a' f' m'
      /\ 0 <= a' /\ 0 <= v' /\ m <= m' /\ m - v <= m' - v'.
Proof.
  intros Hp k. induction k as [|k IH]; intros i v a f m Ha Hv.
  - exists v, a, f, m. simpl. repeat split; try lra.
  - simpl.
    destruct (octave_body_finite x y persistence lacunarity seed i v a f m)
      as (n & Hn0 & Hn1 & ->).
    destruct (IH (S i) (v + n * a) (a * persistence) (f * lacunarity) (m + a))
      as (v' & a' & f' & m' & E & Ha' & Hv' & Hm & Hgap); [nra|nra|].
    exists v', a', f', m'. split; [exact E|].
    repeat split; try lra; nra.
Qed.

End NoiseFacts.

(** In exact arithmetic, with a non-negative persistence and at least one
    octave, the quotient of the accumulated value by the accumulated
    amplitude is finite, non-negative and below 1. *)
Lemma improvedPerlinNoise_exact_range
    (Math_sin : Q -> Q) (x y seed persistence lacunarity : Q) (octaves : nat) :
  (1 <= octaves)%nat ->
  0 <= persistence ->
  Num.in_range 0 1
    (improvedPerlinNoise Math_sin (Fin x) (Fin y) octaves (Fin persistence)
       (Fin lacunarity) (Fin seed)).
Proof.
  intros Hoct Hp. unfold improvedPerlinNoise.
  destruct octaves as [|k]; [lia|]. simpl octave_loop.
  change octaves_init with (finite_octaves 0 1 1 0).
  destruct (octave_body_finite Math_sin x y persistence lacunarity seed 0
              0 1 1 0) as (n & Hn0 & Hn1 & ->).
  destruct (octave_loop_finite Math_sin x y persistence lacunarity seed Hp k
      1%nat
              (0 + n * 1) (1 * persistence) (1 * lacunarity) (0 + 1))
    as (v' & a' & f' & m' & -> & Ha' & Hv' & Hm & Hgap); [nra|nra|].
  cbn [value maxValue finite_octaves].
  assert (Hm' : 0 < m') by lra.
  rewrite div_fin_nonzero by lra.
  simpl. split.
  - apply Qle_shift_div_l; lra.
  - apply Qlt_shift_div_r; lra.
Qed.

(** C2 (as amended): for finite coordinates, seed and lacunarity, every
    octave count [n >= 1] and every persistence in [0, 1],
    [improvedPerlinNoise] returns a finite value in the closed interval
    [0, 1]: the accumulated value never exceeds the accumulated amplitude,
    by which it is divided.  (The code attains the upper end, where rounding
    lifts a per-octave value to 1.) *)
Theorem improvedPerlinNoise_closed_unit_interval
    (Math_sin : Q -> Q) (x y seed persistence lacunarity : Q) (octaves : nat) :
  (1 <= octaves)%nat ->
  0 <= persistence -> persistence <= 1 ->
  exists r,
    improvedPerlinNoise Math_sin (Fin x) (Fin y) octaves (Fin persistence)
      (Fin lacunarity) (Fin seed) = Fin r
    /\ 0 <= r /\ r <= 1.
Proof.
  intros Hoct Hp _.
  pose proof (improvedPerlinNoise_exact_range Math_sin x y seed persistence
                lacunarity octaves Hoct Hp) as H.
  destruct (improvedPerlinNoise Math_sin (Fin x) (Fin y) octaves
              (Fin persistence) (Fin lacunarity) (Fin seed)) as [r| | |];
    try contradiction.
  exists r. destruct H as [H0 H1]. split; [reflexivity|]. split; lra.
Qed.

Lemma improvedPerlinNoise_closed_unit_interval_witness :
  (1 <= 4)%nat /\ 0 <= 0.5 /\ 0.5 <= 1 /\
  exists r,
    improvedPerlinNoise sample_sin (Fin 1.5) (Fin (-2)) 4 (Fin 0.5)
      (Fin 2.0) (Fin 42) = Fin r
    /\ 0 <= r /\ r <= 1.
Proof.
  split; [lia|]. split; [lra|]. split; [lra|].
  apply improvedPerlinNoise_closed_unit_interval; [lia|lra|lra].
Defined.

(** C2 (as stated) fails: on binary64 values, with one octave, persistence
    0.5, lacunarity 2, seed 0 and the coordinates [(-2^-100, 0)], the sine is
    taken at about [-1.02e-29], where it returns its argument; [n] is a tiny
    negative number, [Math.floor(n)] is -1 and [n + 1] rounds to 1, which is
    outside [0, 1). *)
Lemma improvedPerlinNoise_attains_one :
  Double.improvedPerlinNoise Double.small_angle_sin 2
    (-0x1p-100)%float 0%float 1%float 0.5%float 2%float 0%float
  = Some 1%float.
Proof. vm_compute. reflexivity. Qed.

(** ** Height-field generator *)

Section TerrainFacts.

Variable Math_sin : Q -> Q.
Variable PlaneGeometry : number -> number -> number -> number -> list number.
Variable fround : Q -> number.

(** The [k]-th vertex after displacement: planar coordinates kept, third
    entry replaced by the stored elevation computed from them. *)
Lemma displace_lookup (config : TerrainConfig) (k : nat) :
  forall (ps : list number) (x y z : number),
    ps !! (3 * k)%nat = Some x ->
    ps !! (3 * k + 1)%nat = Some y ->
    ps !! (3 * k + 2)%nat = Some z ->
    displace Math_sin fround config ps !! (3 * k)%nat = Some x
    /\ displace Math_sin fround config ps !! (3 * k + 1)%nat = Some y
    /\ displace Math_sin fround config ps !! (3 * k + 2)%nat
       = Some (Num.store32 fround (elevation Math_sin config x y)).
Proof.
  induction k as [|k IH]; intros ps x y z Hx Hy Hz.
  - destruct ps as [|x0 [|y0 [|z0 rest]]]; simpl in *; try discriminate.
    repeat split; congruence.
  - replace (3 * S k)%nat with (S (S (S (3 * k)))) in * by lia.
    destruct ps as [|x0 [|y0 [|z0 rest]]]; simpl in *; try discriminate.
    apply (IH rest x y z); assumption.
Qed.

(** The computed elevation is the noise value times [maxHeight]: inside
    [0, maxHeight] for a [maxHeight] that is not negative, zero for
    [maxHeight = 0]. *)
Lemma elevation_range (config : TerrainConfig) (x y s h : Q) :
  scale config = Fin s -> ~ s == 0 ->
  maxHeight config = Fin h ->
  exists e, elevation Math_sin config (Fin x) (Fin y) = Fin e
            /\ (0 <= h -> 0 <= e /\ e <= h)
            /\ (h == 0 -> e == 0).
Proof.
  intros Hs Hs0 Hh. unfold elevation. rewrite Hs, Hh.
  rewrite !div_fin_nonzero by exact Hs0.
  pose proof (improvedPerlinNoise_exact_range Math_sin (x / s) (y / s) 42
                0.5 2.0 4) as Hn.
  destruct (improvedPerlinNoise Math_sin (Fin (x / s)) (Fin (y / s)) 4
              (Fin 0.5) (Fin 2.0) (Fin 42)) as [n| | |];
    try (exfalso; apply Hn; [lia|lra]).
  destruct Hn as [Hn0 Hn1]; [lia|lra|].
  exists (n * h). split; [reflexivity|]. split.
  - intros Hpos. split; nra.
  - intros Hz. rewrite Hz. ring.
Qed.

End TerrainFacts.

(** A rounding that keeps the order and maps 0 to 0 maps values that are
    not negative to such values, and rationals equal to 0 to 0. *)
Lemma fround_nonneg (fround : Q -> number) (e : Q) :
  (forall p q, p <= q -> Num.le (fround p) (fround q)) ->
  fround 0 = Fin 0 ->
  0 <= e -> Num.le (Fin 0) (fround e).
Proof.
  intros Hmono H0 He. rewrite <- H0. apply Hmono. exact He.
Qed.

Lemma fround_zero (fround : Q -> number) (e : Q) :
  (forall p q, p <= q -> Num.le (fround p) (fround q)) ->
  fround 0 = Fin 0 ->
  e == 0 -> Num.eqv (fround e) (Fin 0).
Proof.
  intros Hmono H0 He.
  pose proof (Hmono e 0 ltac:(lra)) as Hup.
  pose proof (Hmono 0 e ltac:(lra)) as Hdown.
  rewrite H0 in Hup, Hdown.
  destruct (fround e) as [r| | |]; simpl in *; try contradiction. lra.
Qed.

(** C3 (as amended): in the mesh built by [createTerrain], the vertex
    with planar coordinates [(x, y)] keeps them, and its third entry holds
    the binary32 rounding of the computed elevation
    [improvedPerlinNoise(x / scale, y / scale, 4, 0.5, 2.0, 42) * maxHeight].
    For finite coordinates, a finite non-zero scale and a finite [maxHeight]
    that is not negative, the computed elevation lies in [0, maxHeight], and
    so, the rounding keeping the order and 0, the stored one lies between 0
    and the binary32 rounding of [maxHeight], both included; it is 0 when
    [maxHeight] is 0. *)
Theorem createTerrain_vertex_elevation
    (Math_sin : Q -> Q)
    (PlaneGeometry : number -> number -> number -> number -> list number)
    (fround : Q -> number)
    (config : TerrainConfig) (k : nat) (x y s h : Q) (z0 : number) :
  let plane :=
    PlaneGeometry (width config) (height config) (widthSegments config)
      (heightSegments config) in
  let mesh := createTerrain Math_sin PlaneGeometry fround config in
  (forall p q, p <= q -> Num.le (fround p) (fround q)) ->
  fround 0 = Fin 0 ->
  plane !! (3 * k)%nat = Some (Fin x) ->
  plane !! (3 * k + 1)%nat = Some (Fin y) ->
  plane !! (3 * k + 2)%nat = Some z0 ->
  scale config = Fin s -> ~ s == 0 ->
  maxHeight config = Fin h -> 0 <= h ->
  exists e,
    positions mesh !! (3 * k)%nat = Some (Fin x)
    /\ positions mesh !! (3 * k + 1)%nat = Some (Fin y)
    /\ (improvedPerlinNoise Math_sin (Fin x / scale config)
          (Fin y / scale config) 4 (Fin 0.5) (Fin 2.0) (Fin 42)
        * maxHeight config)%js = Fin e
    /\ positions mesh !! (3 * k + 2)%nat = Some (fround e)
    /\ 0 <= e /\ e <= h
    /\ Num.le (Fin 0) (fround e)
    /\ Num.le (fround e) (fround h)
    /\ (h == 0 -> Num.eqv (fround e) (Fin 0)).
Proof.
  intros plane mesh Hmono H0 Hx Hy Hz Hs Hs0 Hh Hh0.
  destruct (displace_lookup Math_sin fround config k plane _ _ _ Hx Hy Hz)
    as (Dx & Dy & Dz).
  destruct (elevation_range Math_sin config x y s h Hs Hs0 Hh)
    as (e & He & Hpos & Hzero).
  destruct (Hpos Hh0) as [He0 He1].
  exists e. unfold mesh, createTerrain; cbn [positions]. fold plane.
  rewrite Dx, Dy, Dz, He. cbn [Num.store32].
  split; [reflexivity|]. split; [reflexivity|].
  split; [exact He|]. split; [reflexivity|].
  split; [exact He0|]. split; [exact He1|].
  split; [now apply fround_nonneg|].
  split; [now apply Hmono|].
  intros Hz0. apply fround_zero; auto.
Qed.

(** ** Counted loops over finite values *)

Lemma Qnat_0 : Qnat 0 == 0.
Proof. reflexivity. Qed.

Lemma Qnat_S (k : nat) : Qnat (S k) == Qnat k + 1.
Proof.
  unfold Qnat. rewrite Nat2Z.inj_succ, <- Z.add_1_r, inject_Z_plus.
  reflexivity.
Qed.

Lemma Qnat_nonneg (k : nat) : 0 <= Qnat k.
Proof.
  unfold Qnat. change 0 with (inject_Z 0). rewrite <- Zle_Qle. lia.
Qed.

Lemma ramp_length (n : nat) (start step : Q) :
  length (ramp n start step) = n.
Proof.
  revert start. induction n as [|n IH]; intros start; simpl;
    [reflexivity | now rewrite IH].
Qed.

(** The [k]-th value of the loop variable is [start + k * step]. *)
Lemma ramp_lookup (step : Q) (n : nat) :
  forall (start : Q) (k : nat) (q : Q),
    ramp n start step !! k = Some q -> (k < n)%nat /\ q == start + Qnat k *
        step.
Proof.
  induction n as [|n IH]; intros start k q H; [discriminate|].
  destruct k as [|k]; simpl in H.
  - injection H as <-. split; [lia|]. rewrite Qnat_0. ring.
  - apply IH in H as [Hk Hq]. split; [lia|].
    rewrite Hq, Qnat_S. ring.
Qed.

Lemma ramp_In (step : Q) (n : nat) (start q : Q) :
  In q (ramp n start step) ->
  exists k, (k < n)%nat /\ q == start + Qnat k * step.
Proof.
  intros H. apply list_elem_of_In, list_elem_of_lookup in H as [k Hk].
  exists k. eapply ramp_lookup; eassumption.
Qed.

Lemma ramp_end_eq (step : Q) (n : nat) :
  forall start, ramp_end n start step == start + Qnat n * step.
Proof.
  induction n as [|n IH]; intros start; simpl.
  - rewrite Qnat_0. ring.
  - rewrite IH, Qnat_S. ring.
Qed.

(** With a positive step, the loop variable stays below the bound for
    [trip_count] iterations and has reached it after them. *)
Lemma trip_count_inside (start bound step : Q) (k : nat) :
  0 < step -> (k < trip_count start bound step)%nat ->
  start + Qnat k * step < bound.
Proof.
  intros Hstep Hk. unfold trip_count in Hk.
  set (t := (bound - start) / step) in *.
  assert (Hkt : Qnat k < t).
  { pose proof (Qceiling_lt t) as Hc.
    apply Qle_lt_trans with (inject_Z (Qceiling t - 1)); [|exact Hc].
    unfold Qnat. rewrite <- Zle_Qle. lia. }
  assert (Ht : t * step == bound - start) by (unfold t; field; lra).
  nra.
Qed.

Lemma trip_count_exit (start bound step : Q) :
  0 < step ->
  bound <= start + Qnat (trip_count start bound step) * step.
Proof.
  intros Hstep. unfold trip_count.
  set (t := (bound - start) / step).
  assert (Htn : t <= Qnat (Z.to_nat (Qceiling t))).
  { apply Qle_trans with (inject_Z (Qceiling t)); [apply Qle_ceiling|].
    unfold Qnat. rewrite <- Zle_Qle. lia. }
  assert (Ht : t * step == bound - start) by (unfold t; field; lra).
  nra.
Qed.

(** A loop over finite values whose variable takes the [n] values of a ramp
    and then fails the condition returns the fold of its body over them,
    provided the fuel exceeds [n] and the body returns on each of them. *)
Lemma for_loop_ramp {A : Type} (body : number -> A -> option A)
    (f : Q -> A -> A) (bound step : Q) (n : nat) :
  forall (fuel : nat) (start : Q) (acc : A),
    (n < fuel)%nat ->
    (forall q, In q (ramp n start step) -> q < bound) ->
    bound <= ramp_end n start step ->
    (forall q a, In q (ramp n start step) -> body (Fin q) a = Some (f q a)) ->
    for_loop fuel (Fin start) (Fin bound) (Fin step) body acc
    = Some (fold_left (fun a q => f q a) (ramp n start step) acc).
Proof.
  induction n as [|n IH]; intros fuel start acc Hfuel Hin Hout Hbody;
    (destruct fuel as [|fuel]; [lia|]); unfold for_loop; cbn [for_loop_with].
  - cbn [ramp_end] in Hout. apply lt_fin_false in Hout. rewrite Hout.
    reflexivity.
  - cbn [ramp ramp_end fold_left In] in Hin, Hout, Hbody |- *.
    assert (Hlt : (Fin start <? Fin bound)%js = true)
      by (apply lt_fin, Hin; left; reflexivity).
    rewrite Hlt, (Hbody start acc) by (left; reflexivity).
    apply IH; [lia| | |]; auto.
Qed.

(** The same loop for the number of iterations given by [trip_count]. *)
Lemma for_loop_trip_count {A : Type} (body : number -> A -> option A)
    (f : Q -> A -> A) (start bound step : Q) (fuel : nat) (acc : A) :
  0 < step ->
  (trip_count start bound step < fuel)%nat ->
  (forall q a, In q (ramp (trip_count start bound step) start step) ->
               body (Fin q) a = Some (f q a)) ->
  for_loop fuel (Fin start) (Fin bound) (Fin step) body acc
  = Some (fold_left (fun a q => f q a)
            (ramp (trip_count start bound step) start step) acc).
Proof.
  intros Hstep Hfuel Hbody. apply for_loop_ramp; auto.
  - intros q Hq. apply ramp_In in Hq as (k & Hk & ->).
    apply trip_count_inside; assumption.
  - rewrite ramp_end_eq. apply trip_count_exit. exact Hstep.
Qed.

(** With a step that is not positive the loop variable never reaches a
    bound it starts below: the loop returns for no amount of fuel. *)
Lemma for_loop_no_progress {A : Type} (body : number -> A -> option A)
    (bound step : Q) :
  step <= 0 ->
  forall (fuel : nat) (start : Q) (acc : A),
    start < bound ->
    for_loop fuel (Fin start) (Fin bound) (Fin step) body acc = None.
Proof.
  intros Hstep fuel. induction fuel as [|fuel IH]; intros start acc Hlt;
    unfold for_loop; cbn [for_loop_with]; [reflexivity|].
  apply lt_fin in Hlt as Hb. rewrite Hb.
  destruct (body (Fin start) acc) as [acc'|]; [|reflexivity].
  apply IH. lra.
Qed.

(** A loop whose body does not return on the first value does not return. *)
Lemma for_loop_body_fails {A : Type} (body : number -> A -> option A)
    (fuel : nat) (v bound step : number) (acc : A) :
  (v <? bound)%js = true -> body v acc = None ->
  for_loop fuel v bound step body acc = None.
Proof.
  intros Hlt Hbody.
  destruct fuel as [|fuel]; unfold for_loop; cbn [for_loop_with];
    [reflexivity|]. now rewrite Hlt, Hbody.
Qed.

(** Two loops with the same control whose bodies keep their accumulators
    related return related results, or both run out of fuel. *)
Lemma for_loop_simulation {A B : Type} (R : A -> B -> Prop)
    (body1 : number -> A -> option A) (body2 : number -> B -> option B)
    (bound step : number) :
  (forall v a b, R a b -> option_rel R (body1 v a) (body2 v b)) ->
  forall (fuel : nat) (v : number) (a : A) (b : B),
    R a b ->
    option_rel R (for_loop fuel v bound step body1 a)
      (for_loop fuel v bound step body2 b).
Proof.
  intros Hbody fuel. induction fuel as [|fuel IH]; intros v a b Hab;
    unfold for_loop; cbn [for_loop_with]; [exact I|].
  destruct (v <? bound)%js; [|exact Hab].
  specialize (Hbody v a b Hab).
  destruct (body1 v a) as [a'|], (body2 v b) as [b'|]; simpl in Hbody;
    try contradiction; [|exact I].
  apply IH. exact Hbody.
Qed.

(** A loop, whatever its addition, whose variable takes [n] values that
    pass the loop test and then one that fails it returns the fold of its
    body over these values, provided the fuel exceeds [n] and the body
    returns on each of them. *)
Lemma for_loop_with_ramp {A : Type} (plus : number -> number -> number)
    (body : number -> A -> option A) (f : number -> A -> A)
    (bound step : number) (n : nat) :
  forall (fuel : nat) (start : number) (acc : A),
    (n < fuel)%nat ->
    Forall (fun v => (v <? bound)%js = true) (ramp_with plus n start step) ->
    (ramp_end_with plus n start step <? bound)%js = false ->
    (forall v a, In v (ramp_with plus n start step) ->
                 body v a = Some (f v a)) ->
    for_loop_with plus fuel start bound step body acc
    = Some (fold_left (fun a v => f v a) (ramp_with plus n start step) acc).
Proof.
  induction n as [|n IH]; intros fuel start acc Hfuel Hin Hout Hbody;
    (destruct fuel as [|fuel]; [lia|]); cbn [for_loop_with].
  - cbn [ramp_end_with] in Hout. rewrite Hout. reflexivity.
  - cbn [ramp_with ramp_end_with fold_left] in Hin, Hout, Hbody |- *.
    apply Forall_cons in Hin as [Hlt Hin].
    rewrite Hlt, (Hbody start acc) by (left; reflexivity).
    apply IH; [lia|exact Hin|exact Hout|].
    intros v a Hv. apply Hbody. right. exact Hv.
Qed.

Lemma lt_transitive (a b c : number) :
  (a <? b)%js = true -> (b <? c)%js = true -> (a <? c)%js = true.
Proof.
  destruct a as [p| | |], b as [q| | |], c as [r| | |]; simpl;
    try discriminate; try reflexivity.
  change ((Fin p <? Fin q)%js = true -> (Fin q <? Fin r)%js = true ->
          (Fin p <? Fin r)%js = true).
  rewrite !lt_fin. intros. lra.
Qed.

(** When each addition moves the loop variable up, the values it takes
    ascend. *)
Lemma ramp_with_head_below (plus : number -> number -> number)
    (step : number) (n : nat) :
  forall start w,
    Forall (fun v => (v <? plus v step)%js = true)
      (ramp_with plus (S n) start step) ->
    In w (ramp_with plus n (plus start step) step) ->
    (start <? w)%js = true.
Proof.
  induction n as [|n IH]; intros start w Hup Hw; [destruct Hw|].
  cbn [ramp_with] in Hup, Hw.
  apply Forall_cons in Hup as [Hhead Hup].
  destruct Hw as [<-|Hw]; [exact Hhead|].
  apply lt_transitive with (plus start step); [exact Hhead|].
  apply IH; assumption.
Qed.

Lemma ramp_with_ascending (plus : number -> number -> number)
    (step : number) (n : nat) :
  forall start (i j : nat) v w,
    Forall (fun v => (v <? plus v step)%js = true)
      (ramp_with plus n start step) ->
    (i < j)%nat ->
    ramp_with plus n start step !! i = Some v ->
    ramp_with plus n start step !! j = Some w ->
    (v <? w)%js = true.
Proof.
  induction n as [|n IH]; intros start i j v w Hup Hij Hi Hj;
    [discriminate|].
  destruct j as [|j]; [lia|]. cbn [ramp_with] in Hi, Hj.
  destruct i as [|i]; simpl in Hi, Hj.
  - injection Hi as <-. apply (ramp_with_head_below plus step n); [exact Hup|].
    apply list_elem_of_In, list_elem_of_lookup. now exists j.
  - cbn [ramp_with] in Hup. apply Forall_cons in Hup as [_ Hup].
    apply (IH (plus start step) i j); [exact Hup|lia|exact Hi|exact Hj].
Qed.

Lemma flat_map_flat_map {A B C : Type} (f : B -> list C) (g : A -> list B)
    (l : list A) :
  flat_map f (flat_map g l) = flat_map (fun x => flat_map f (g x)) l.
Proof.
  induction l as [|x l IH]; [reflexivity|].
  cbn [flat_map]. now rewrite flat_map_app, IH.
Qed.

Lemma flat_map_pairs {A B C : Type} (f : A * B -> list C) (x : A)
    (l : list B) :
  flat_map f (map (fun z => (x, z)) l) = flat_map (fun z => f (x, z)) l.
Proof.
  induction l as [|z l IH]; [reflexivity|].
  cbn [map flat_map]. now rewrite IH.
Qed.

Lemma ramp_with_length (plus : number -> number -> number) (n : nat) :
  forall start step, length (ramp_with plus n start step) = n.
Proof.
  induction n as [|n IH]; intros start step; simpl;
    [reflexivity | now rewrite IH].
Qed.

Lemma lt_irreflexive (v : number) : (v <? v)%js = false.
Proof.
  destruct v as [q| | |]; try reflexivity. apply lt_fin_false. lra.
Qed.

(** When each addition moves the loop variable up, no value is visited
    twice. *)
Lemma ramp_with_NoDup (plus : number -> number -> number) (step : number)
    (n : nat) :
  forall start,
    Forall (fun v => (v <? plus v step)%js = true)
      (ramp_with plus n start step) ->
    List.NoDup (ramp_with plus n start step).
Proof.
  induction n as [|n IH]; intros start Hup; cbn [ramp_with];
    constructor.
  - intros Hin.
    pose proof (ramp_with_head_below plus step n start start Hup Hin) as H.
    rewrite lt_irreflexive in H. discriminate.
  - cbn [ramp_with] in Hup. apply Forall_cons in Hup as [_ Hup].
    apply IH. exact Hup.
Qed.

Lemma NoDup_product {A B : Type} (xs : list A) (zs : list B) :
  List.NoDup xs -> List.NoDup zs ->
  List.NoDup (flat_map (fun x => map (fun z => (x, z)) zs) xs).
Proof.
  intros Hxs Hzs. induction Hxs as [|x xs Hx Hxs IH]; simpl;
    [constructor|].
  apply List.NoDup_app; [|exact IH|].
  - clear -Hzs. induction Hzs as [|z zs Hz Hzs IH]; simpl; constructor;
      [|exact IH].
    rewrite in_map_iff. intros (z' & [= <-] & Hz'). apply Hz. exact Hz'.
  - intros c Hc Hc'.
    apply in_map_iff in Hc as (z & <- & _).
    apply in_flat_map in Hc' as (x' & Hx' & Hc').
    apply in_map_iff in Hc' as (z' & [= -> _] & _).
    apply Hx. exact Hx'.
Qed.

Lemma fold_left_snoc {A B : Type} (g : A -> list B) (l : list A) :
  forall acc : list B,
    fold_left (fun a x => a ++ g x) l acc = acc ++ flat_map g l.
Proof.
  induction l as [|x l IH]; intros acc; simpl.
  - now rewrite app_nil_r.
  - now rewrite IH, app_assoc.
Qed.

Lemma flat_map_unit {A B : Type} (h : A -> B) (l : list A) :
  flat_map (fun x => [h x]) l = map h l.
Proof. induction l as [|x l IH]; simpl; [reflexivity | now rewrite IH]. Qed.

Lemma flat_map_const_length {A B : Type} (g : A -> list B) (m : nat)
    (l : list A) :
  (forall x, length (g x) = m) -> length (flat_map g l) = (length l * m)%nat.
Proof.
  intros Hg. induction l as [|x l IH]; simpl; [reflexivity|].
  rewrite length_app, Hg, IH. reflexivity.
Qed.

Lemma option_rel_eq_map {A B : Type} (f : B -> A) (a : option A)
    (b : option B) :
  option_rel (fun x y => x = f y) a b -> a = option_map f b.
Proof.
  destruct a, b; simpl; intros H; try contradiction; congruence.
Qed.

(** ** Placement sampler *)

Lemma step_positive (d : Q) : 0 < d -> 0 < 1 / (d * 10).
Proof. intros Hd. apply Qlt_shift_div_l; lra. Qed.

Lemma step_antitone (d1 d2 : Q) :
  0 < d1 -> d1 < d2 -> 1 / (d2 * 10) < 1 / (d1 * 10).
Proof.
  intros H1 H12.
  pose proof (step_positive d2 ltac:(lra)) as Hs2.
  assert (E : 1 / (d2 * 10) * (d2 * 10) == 1) by (field; lra).
  apply Qlt_shift_div_l; [lra|]. nra.
Qed.

(** The loop bounds and the step of the scan, for a finite region size and
    a finite non-zero density. *)
Lemma scan_bounds_finite (g d : Q) :
  ~ d == 0 ->
  (- Fin g / Fin 2)%js = Fin (- g / 2)
  /\ (Fin g / Fin 2)%js = Fin (g / 2)
  /\ (Fin 1 / (Fin d * Fin 10))%js = Fin (1 / (d * 10)).
Proof.
  intros Hd. split; [|split].
  - change (- Fin g)%js with (Fin (- g)). apply div_fin_nonzero. lra.
  - apply div_fin_nonzero. lra.
  - change (Fin d * Fin 10)%js with (Fin (d * 10)).
    apply div_fin_nonzero. lra.
Qed.

(** For a finite region size and a positive finite density, the scan
    visits the candidate grid, given fuel beyond the iterations of one
    axis. *)
Lemma scannedCandidates_finite (g d : Q) (fuel : nat) :
  0 < d -> (grid_count g d < fuel)%nat ->
  scannedCandidates fuel (Fin g) (Some (Fin d)) = Some (grid_candidates g d).
Proof.
  intros Hd Hfuel. unfold scannedCandidates. cbv zeta.
  change (default (Fin 0.1) (Some (Fin d))) with (Fin d).
  destruct (scan_bounds_finite g d) as (-> & -> & ->); [lra|].
  pose proof (step_positive d Hd) as Hstep.
  rewrite (for_loop_trip_count _
             (fun x acc =>
                acc ++ map (fun z => (Fin x, Fin z)) (grid_axis g d)))
    by (try assumption;
        intros q a _;
        rewrite (for_loop_trip_count _ (fun z acc => acc ++ [(Fin q, Fin z)]))
          by (try assumption; reflexivity);
        rewrite (fold_left_snoc (fun z => [(Fin q, Fin z)]));
        now rewrite flat_map_unit).
  rewrite (fold_left_snoc
             (fun x => map (fun z => (Fin x, Fin z)) (grid_axis g d))).
  reflexivity.
Qed.

Lemma grid_candidates_length (g d : Q) :
  length (grid_candidates g d) = (grid_count g d * grid_count g d)%nat.
Proof.
  unfold grid_candidates.
  rewrite (flat_map_const_length _ (grid_count g d)).
  - unfold grid_axis. now rewrite ramp_length.
  - intros x. rewrite length_map. unfold grid_axis. apply ramp_length.
Qed.

(** A larger density never gives fewer iterations per axis. *)
Lemma grid_count_monotone (g d1 d2 : Q) :
  0 < d1 -> d1 < d2 -> (grid_count g d1 <= grid_count g d2)%nat.
Proof.
  intros H1 H12. unfold grid_count.
  set (n1 := trip_count _ _ (1 / (d1 * 10))).
  set (n2 := trip_count _ _ (1 / (d2 * 10))).
  destruct (Nat.le_gt_cases n1 n2) as [Hle|Hgt]; [exact Hle|exfalso].
  pose proof (step_positive d1 H1) as Hs1.
  pose proof (step_positive d2 ltac:(lra)) as Hs2.
  pose proof (step_antitone d1 d2 H1 H12) as Hs.
  pose proof (trip_count_inside (- g / 2) (g / 2) _ n2 Hs1 Hgt) as Hin.
  pose proof (trip_count_exit (- g / 2) (g / 2) _ Hs2) as Hout.
  fold n2 in Hout. pose proof (Qnat_nonneg n2). nra.
Qed.

(** With the exact addition the loop variable takes the values of [ramp]. *)
Lemma ramp_with_exact (step : Q) (n : nat) :
  forall start,
    ramp_with Num.add n (Fin start) (Fin step)
    = map Fin (ramp n start step)
    /\ ramp_end_with Num.add n (Fin start) (Fin step)
       = Fin (ramp_end n start step).
Proof.
  induction n as [|n IH]; intros start; [split; reflexivity|].
  cbn [ramp_with ramp_end_with ramp ramp_end map].
  change (Fin start + Fin step)%js with (Fin (start + step)).
  destruct (IH (start + step)) as [-> ->]. split; reflexivity.
Qed.

(** With the exact addition, a finite region size and a positive density,
    the loop variable moves up, passes the test [grid_count] times and then
    fails it. *)
Lemma exact_scan_trajectory (g d : Q) :
  0 < d ->
  let start := (- Fin g / Fin 2)%js in
  let bound := (Fin g / Fin 2)%js in
  let step := (Fin 1 / (Fin d * Fin 10))%js in
  let axis := ramp_with Num.add (grid_count g d) start step in
  Forall (fun v => (v <? v + step)%js = true) axis
  /\ Forall (fun v => (v <? bound)%js = true) axis
  /\ (ramp_end_with Num.add (grid_count g d) start step <? bound)%js
     = false.
Proof.
  intros Hd start bound step axis.
  pose proof (step_positive d Hd) as Hstep.
  unfold axis, start, bound, step.
  destruct (scan_bounds_finite g d) as (-> & -> & ->); [lra|].
  destruct (ramp_with_exact (1 / (d * 10)) (grid_count g d) (- g / 2))
    as [-> ->].
  split; [|split].
  - apply Forall_forall. intros v Hv.
    apply list_elem_of_In, in_map_iff in Hv as (q & <- & _).
    change (Fin q + Fin (1 / (d * 10)))%js with (Fin (q + 1 / (d * 10))).
    apply lt_fin. lra.
  - apply Forall_forall. intros v Hv.
    apply list_elem_of_In, in_map_iff in Hv as (q & <- & Hq).
    apply lt_fin. apply ramp_In in Hq as (k & Hk & ->).
    apply trip_count_inside; assumption.
  - apply lt_fin_false. rewrite ramp_end_eq.
    apply trip_count_exit. exact Hstep.
Qed.

Section PlacementFacts.

Variable Math_sin : Q -> Q.
Variable intersectObject : Raycaster -> Mesh -> list Intersection.

Lemma place_accepted (terrain : Mesh) (seed x z : number)
    (acc : list Vector3) :
  place Math_sin intersectObject terrain seed x z acc
  = acc ++ accepted Math_sin intersectObject terrain seed (x, z).
Proof.
  unfold place, accepted, placement_noise, downward_ray. cbn [fst snd].
  destruct (_ >? _)%js; [|now rewrite app_nil_r].
  destruct (intersectObject _ terrain); [now rewrite app_nil_r|reflexivity].
Qed.

(** The placement pass is the scan with each candidate replaced by the
    anchors it contributes, on every input and for every fuel. *)
Lemma generateTreePositions_scan (fuel : nat) (terrain : Mesh)
    (gridSize : number) (density seed : option number) :
  generateTreePositions Math_sin intersectObject fuel terrain gridSize
    density seed
  = option_map
      (flat_map (accepted Math_sin intersectObject terrain
                   (default (Fin 123) seed)))
      (scannedCandidates fuel gridSize density).
Proof.
  unfold generateTreePositions, generateTreePositions_with,
    scannedCandidates, for_loop. cbv zeta.
  apply option_rel_eq_map.
  apply for_loop_simulation; [|reflexivity].
  intros x ps cs Hx.
  apply for_loop_simulation; [|exact Hx].
  intros z ps' cs' Hz. simpl.
  rewrite place_accepted, Hz, flat_map_app. simpl.
  now rewrite app_nil_r.
Qed.

Lemma accepted_In (terrain : Mesh) (seed : number) (c : number * number)
    (p : Vector3) :
  In p (accepted Math_sin intersectObject terrain seed c) <->
  (improvedPerlinNoise Math_sin (c.1 / Fin 5)%js (c.2 / Fin 5)%js 3
     (Fin 0.5) (Fin 2.0) seed >? Fin 0.6)%js = true
  /\ exists hit rest,
       intersectObject (downward_ray c.1 c.2) terrain = hit :: rest
       /\ p = vec3 c.1 (vy (point hit) + Fin 0.5)%js c.2.
Proof.
  unfold accepted. destruct (_ >? _)%js.
  - destruct (intersectObject _ terrain) as [|hit rest]; simpl.
    + split; [tauto|]. intros (_ & hit & rest & H & _). discriminate.
    + split.
      * intros [<-|[]]. split; [reflexivity|]. now exists hit, rest.
      * intros (_ & hit' & rest' & H & ->). injection H as <- <-. now left.
  - simpl. split; [tauto|]. intros [H _]. discriminate.
Qed.


(** For a finite region size and a positive finite density the pass
    returns, given fuel beyond the iterations of one axis. *)
Lemma generateTreePositions_finite (fuel : nat) (terrain : Mesh) (g d : Q)
    (seed : option number) :
  0 < d -> (grid_count g d < fuel)%nat ->
  generateTreePositions Math_sin intersectObject fuel terrain (Fin g)
    (Some (Fin d)) seed
  = Some (flat_map (accepted Math_sin intersectObject terrain
                      (default (Fin 123) seed))
            (grid_candidates g d)).
Proof.
  intros Hd Hfuel.
  now rewrite generateTreePositions_scan, scannedCandidates_finite.
Qed.

(** The pass for any addition of the loop headers: if the loop variable
    passes the test [n] times and then fails it, the pass returns, given
    fuel beyond [n], the visited candidates each replaced by the anchors it
    contributes. *)
Lemma generateTreePositions_with_ramp
    (plus : number -> number -> number) (terrain : Mesh)
    (gridSize density : number) (seed : option number) (n fuel : nat) :
  let start := (- gridSize / Fin 2)%js in
  let bound := (gridSize / Fin 2)%js in
  let step := (Fin 1 / (density * Fin 10))%js in
  let axis := ramp_with plus n start step in
  Forall (fun v => (v <? bound)%js = true) axis ->
  (ramp_end_with plus n start step <? bound)%js = false ->
  (n < fuel)%nat ->
  generateTreePositions_with Math_sin intersectObject plus fuel terrain
    gridSize (Some density) seed
  = Some (flat_map
            (accepted Math_sin intersectObject terrain
               (default (Fin 123) seed))
            (flat_map (fun x => map (fun z => (x, z)) axis) axis)).
Proof.
  intros start bound step axis Hin Hout Hfuel.
  set (anchors := accepted Math_sin intersectObject terrain
                    (default (Fin 123) seed)).
  unfold generateTreePositions_with. cbv zeta.
  change (default (Fin 0.1) (Some density)) with density.
  fold start bound step.
  rewrite (for_loop_with_ramp plus _
             (fun x acc =>
                acc ++ flat_map anchors (map (fun z => (x, z)) axis))
             bound step n fuel start [] Hfuel Hin Hout).
  - fold axis. rewrite (fold_left_snoc
               (fun x => flat_map anchors (map (fun z => (x, z)) axis))).
    now rewrite flat_map_flat_map.
  - intros x a _.
    rewrite (for_loop_with_ramp plus _
               (fun z acc => acc ++ anchors (x, z))
               bound step n fuel start a Hfuel Hin Hout).
    + fold axis. rewrite (fold_left_snoc (fun z => anchors (x, z))).
      now rewrite flat_map_pairs.
    + intros z a' _. unfold anchors. now rewrite place_accepted.
Qed.


(** C5: for a finite region size [g] and a positive density [d], the two
    loops start at [-g/2], test their variable against [g/2] and advance it
    by [step = 1 / (d * 10)].  Whatever the addition that advances it (exact
    or rounded), if it moves the variable up and the variable passes the
    test [n] times before it fails it, then the [n] values visited along
    each axis are finite, lie inside [-g/2, g/2) and ascend; the candidates
    are visited with [x] ascending in the outer loop and [z] ascending in
    the inner loop; a candidate contributes an anchor exactly when its noise
    value exceeds 0.6 and its downward ray hits the surface; and the pass
    returns the anchors in the order of the visits.  With the exact addition
    there is such an [n]. *)
Theorem generateTreePositions_scan_order
    (plus : number -> number -> number) (terrain : Mesh) (g d : Q)
    (seed : option number) (n : nat) :
  let start := (- Fin g / Fin 2)%js in
  let bound := (Fin g / Fin 2)%js in
  let step := (Fin 1 / (Fin d * Fin 10))%js in
  let axis := ramp_with plus n start step in
  let candidates := flat_map (fun x => map (fun z => (x, z)) axis) axis in
  let anchors := accepted Math_sin intersectObject terrain
                   (default (Fin 123) seed) in
  0 < d ->
  Forall (fun v => (v <? plus v step)%js = true) axis ->
  Forall (fun v => (v <? bound)%js = true) axis ->
  (ramp_end_with plus n start step <? bound)%js = false ->
  step = Fin (1 / (d * 10))
  /\ (forall v, In v axis ->
        exists q, v = Fin q /\ - g / 2 <= q /\ q < g / 2)
  /\ (forall i j v w,
        (i < j)%nat -> axis !! i = Some v -> axis !! j = Some w ->
        (v <? w)%js = true)
  /\ (forall c p,
        In p (anchors c) <->
        (improvedPerlinNoise Math_sin (c.1 / Fin 5)%js (c.2 / Fin 5)%js 3
           (Fin 0.5) (Fin 2.0) (default (Fin 123) seed) >? Fin 0.6)%js
        = true
        /\ exists hit rest,
             intersectObject
               {| origin := vec3 c.1 (Fin 100) c.2;
                  direction := vec3 (Fin 0) (- Fin 1)%js (Fin 0) |} terrain
             = hit :: rest
             /\ p = vec3 c.1 (vy (point hit) + Fin 0.5)%js c.2)
  /\ (forall fuel, (n < fuel)%nat ->
        generateTreePositions_with Math_sin intersectObject plus fuel
          terrain (Fin g) (Some (Fin d)) seed
        = Some (flat_map anchors candidates))
  /\ (exists n0,
        let axis0 := ramp_with Num.add n0 start step in
        Forall (fun v => (v <? v + step)%js = true) axis0
        /\ Forall (fun v => (v <? bound)%js = true) axis0
        /\ (ramp_end_with Num.add n0 start step <? bound)%js = false).
Proof.
  intros start bound step axis candidates anchors Hd Hup Hin Hout.
  destruct (scan_bounds_finite g d) as (Estart & Ebound & Estep); [lra|].
  split; [exact Estep|]. split; [|split; [|split; [|split]]].
  - intros v Hv.
    assert (Hlo : v = start \/ (start <? v)%js = true).
    { unfold axis in Hv, Hup. destruct n as [|n]; [destruct Hv|].
      cbn [ramp_with] in Hv. destruct Hv as [<-|Hv]; [now left|right].
      apply (ramp_with_head_below plus step n); assumption. }
    rewrite Forall_forall in Hin. specialize (Hin v).
    assert (Hhi : (v <? bound)%js = true)
      by (apply Hin, list_elem_of_In; exact Hv).
    unfold start, bound in Hlo, Hhi. rewrite Estart in Hlo.
    rewrite Ebound in Hhi.
    destruct Hlo as [-> | Hlo].
    + exists (- g / 2). apply lt_fin in Hhi.
      split; [reflexivity|]. split; lra.
    + destruct v as [q| | |]; try discriminate.
      apply lt_fin in Hlo. apply lt_fin in Hhi.
      exists q. split; [reflexivity|]. split; lra.
  - intros i j v w. apply ramp_with_ascending. exact Hup.
  - intros c p. apply accepted_In.
  - intros fuel Hfuel.
    apply generateTreePositions_with_ramp; assumption.
  - exists (grid_count g d). apply exact_scan_trajectory. exact Hd.
Qed.

(** C6: for a finite region size and two positive densities [d1 < d2],
    the placement pass returns at both densities (given fuel beyond the
    iterations of one axis at [d2]), and the candidate grid points it scans
    at [d2] are at least as many as those it scans at [d1], whatever the
    seed. *)
Theorem scan_count_monotone_in_density (terrain : Mesh) (g d1 d2 : Q)
    (seed : option number) (fuel : nat) :
  0 < d1 -> d1 < d2 -> (grid_count g d2 < fuel)%nat ->
  exists c1 c2,
    scannedCandidates fuel (Fin g) (Some (Fin d1)) = Some c1
    /\ scannedCandidates fuel (Fin g) (Some (Fin d2)) = Some c2
    /\ generateTreePositions Math_sin intersectObject fuel terrain (Fin g)
         (Some (Fin d1)) seed
       = Some (flat_map (accepted Math_sin intersectObject terrain
                           (default (Fin 123) seed)) c1)
    /\ generateTreePositions Math_sin intersectObject fuel terrain (Fin g)
         (Some (Fin d2)) seed
       = Some (flat_map (accepted Math_sin intersectObject terrain
                           (default (Fin 123) seed)) c2)
    /\ (length c1 <= length c2)%nat.
Proof.
  intros H1 H12 Hfuel.
  pose proof (grid_count_monotone g d1 d2 H1 H12) as Hmono.
  assert (H2 : 0 < d2) by lra.
  exists (grid_candidates g d1), (grid_candidates g d2).
  rewrite !generateTreePositions_scan.
  rewrite !scannedCandidates_finite by (assumption || lia).
  repeat split.
  rewrite !grid_candidates_length. nia.
Qed.

End PlacementFacts.

(** ** Scene composer *)

Lemma add_trees_app (treeConfig : TreeConfig) (treePositions : list Vector3)
    (group : list Tree) :
  add_trees treeConfig treePositions group
  = group ++ map (fun p => createTree p treeConfig) treePositions.
Proof.
  unfold add_trees.
  rewrite (fold_left_snoc (fun p => [createTree p treeConfig])).
  now rewrite flat_map_unit.
Qed.

Lemma min_fin (w h : Q) : exists g, Num.min (Fin w) (Fin h) = Fin g.
Proof.
  unfold Num.min. destruct (Num.lt (Fin h) (Fin w)); eauto.
Qed.

Section GeneratorFacts.

Variable Math_sin : Q -> Q.
Variable PlaneGeometry : number -> number -> number -> number -> list number.
Variable fround : Q -> number.
Variable intersectObject : Raycaster -> Mesh -> list Intersection.

Lemma generate_planted (fuel : nat) (treeCount : option number)
    (this : TerrainGenerator) :
  generate Math_sin intersectObject fuel treeCount this
  = option_map (planted this)
      (generateTreePositions Math_sin intersectObject fuel (terrain this)
         (Num.min (width (config this)) (height (config this)))
         (Some (generate_density (config this) treeCount)) None).
Proof.
  unfold generate, planted.
  destruct (generateTreePositions _ _ _ _ _ _ _) as [ps|]; [|reflexivity].
  cbn [option_map terrain trees]. now rewrite add_trees_app.
Qed.

Lemma regenerate_planted (fuel : nat) (random : number)
    (seed : option number) (this : TerrainGenerator) :
  let terrain' := createTerrain Math_sin PlaneGeometry fround (config this) in
  regenerate Math_sin PlaneGeometry fround intersectObject fuel random seed this
  = option_map (planted (cleared terrain' this))
      (generateTreePositions Math_sin intersectObject fuel terrain'
         (Num.min (width (config this)) (height (config this)))
         (Some (Fin 0.05))
         (Some (default (random * Fin 1000)%js seed))).
Proof.
  intros terrain'. unfold regenerate, planted, cleared. fold terrain'.
  destruct (generateTreePositions _ _ _ _ _ _ _) as [ps|]; [|reflexivity].
  cbn [option_map terrain trees config treeConfig].
  now rewrite add_trees_app.
Qed.

(** C1: for a generator with finite extents there is an amount of fuel
    from which two successive calls [regenerate(s1)], [regenerate(s2)] return,
    whatever the seeds.  Each call leaves a terrain rebuilt from the unchanged
    config, every vertex elevation being computed with the noise seed 42, so
    the two terrains have the same position array; and each call leaves in
    the tree group exactly one tree per position of a placement pass run
    with the seed passed to it, earlier trees being gone. *)
Theorem regenerate_reseeds_trees_only (this : TerrainGenerator) (w h : Q)
    (random s1 s2 : number) :
  width (config this) = Fin w ->
  height (config this) = Fin h ->
  let rebuilt := createTerrain Math_sin PlaneGeometry fround (config this) in
  let plane :=
    PlaneGeometry (width (config this)) (height (config this))
      (widthSegments (config this)) (heightSegments (config this)) in
  let tree := fun p => createTree p (treeConfig this) in
  exists fuel0, forall fuel, (fuel0 <= fuel)%nat ->
    exists ps1 ps2 this1 scene1 this2 scene2,
      regenerate Math_sin PlaneGeometry fround intersectObject fuel random
        (Some s1) this = Some (this1, scene1)
      /\ regenerate Math_sin PlaneGeometry fround intersectObject fuel random
           (Some s2) this1 = Some (this2, scene2)
      /\ generateTreePositions Math_sin intersectObject fuel rebuilt
           (Num.min (Fin w) (Fin h)) (Some (Fin 0.05)) (Some s1) = Some ps1
      /\ generateTreePositions Math_sin intersectObject fuel rebuilt
           (Num.min (Fin w) (Fin h)) (Some (Fin 0.05)) (Some s2) = Some ps2
      /\ config this1 = config this /\ config this2 = config this
      /\ terrain this1 = rebuilt /\ terrain this2 = rebuilt
      /\ positions (terrain this1) = positions (terrain this2)
      /\ (forall k x y z0,
            plane !! (3 * k)%nat = Some x ->
            plane !! (3 * k + 1)%nat = Some y ->
            plane !! (3 * k + 2)%nat = Some z0 ->
            positions rebuilt !! (3 * k + 2)%nat
            = Some (Num.store32 fround
                      (improvedPerlinNoise Math_sin (x / scale (config this))
                         (y / scale (config this)) 4 (Fin 0.5) (Fin 2.0)
                         (Fin 42)
                       * maxHeight (config this))%js))
      /\ trees this1 = map tree ps1
      /\ trees this2 = map tree ps2
      /\ scene1 = {| scene_terrain := rebuilt; scene_trees := map tree ps1 |}
      /\ scene2 = {| scene_terrain := rebuilt; scene_trees := map tree ps2 |}.
Proof.
  intros Hw Hh rebuilt plane tree.
  destruct (min_fin w h) as [g Hg].
  exists (S (grid_count g 0.05)). intros fuel Hfuel.
  pose proof (fun s => generateTreePositions_finite Math_sin intersectObject
                fuel rebuilt g 0.05 (Some s) ltac:(lra) ltac:(lia)) as Hgen.
  eexists _, _, _, _, _, _.
  rewrite !regenerate_planted. cbn [default].
  rewrite Hw, Hh, Hg, !Hgen. cbn [option_map].
  split; [reflexivity|]. fold rebuilt.
  unfold planted at 1. cbn [fst config cleared treeConfig].
  rewrite Hw, Hh, Hg. fold rebuilt. rewrite !Hgen. cbn [option_map].
  split; [reflexivity|].
  repeat (split; [reflexivity|]).
  split; [|repeat split].
  intros k x y z0 Hx Hy Hz.
  destruct (displace_lookup Math_sin fround (config this) k plane x y z0
              Hx Hy Hz) as (_ & _ & Dz).
  exact Dz.
Qed.

(** C7 (as amended): a [treeCount] that is provided and truthy (neither
    0 nor NaN) makes [generate] run the placement pass with the density
    [treeCount / (width * height)]; when it is not provided, the pass is run
    with the density 0.05 (as it is for a [treeCount] of 0 or NaN). *)
Theorem generate_density_passed (this : TerrainGenerator) (fuel : nat)
    (n : number) :
  Num.truthy n = true ->
  generate Math_sin intersectObject fuel (Some n) this
  = option_map (planted this)
      (generateTreePositions Math_sin intersectObject fuel (terrain this)
         (Num.min (width (config this)) (height (config this)))
         (Some (n / (width (config this) * height (config this)))%js) None)
  /\ generate Math_sin intersectObject fuel None this
     = option_map (planted this)
         (generateTreePositions Math_sin intersectObject fuel (terrain this)
            (Num.min (width (config this)) (height (config this)))
            (Some (Fin 0.05)) None)
  /\ (forall z, Num.truthy z = false ->
        generate Math_sin intersectObject fuel (Some z) this
        = generate Math_sin intersectObject fuel None this).
Proof.
  intros Hn. rewrite !generate_planted. unfold generate_density.
  rewrite Hn. split; [reflexivity|]. split; [reflexivity|].
  intros z Hz. rewrite !generate_planted. unfold generate_density.
  now rewrite Hz.
Qed.

(** C10: for a generator with finite extents and two calls of [generate]
    whose densities are positive, there is an amount of fuel from which both
    calls return; each call keeps the trees already in the group and appends
    one tree per position of its own placement pass, so [getStats] reports
    after the second call the earlier count plus the counts of both passes
    (their sum for a group that was empty at first); a following [regenerate]
    leaves in the group the trees of its own pass only. *)
Theorem generate_appends_trees (this0 : TerrainGenerator)
    (c1 c2 : option number) (w h d1 d2 : Q) (random seed : number) :
  width (config this0) = Fin w ->
  height (config this0) = Fin h ->
  generate_density (config this0) c1 = Fin d1 -> 0 < d1 ->
  generate_density (config this0) c2 = Fin d2 -> 0 < d2 ->
  let tree := fun p => createTree p (treeConfig this0) in
  let region := Num.min (Fin w) (Fin h) in
  exists fuel0, forall fuel, (fuel0 <= fuel)%nat ->
    exists ps1 ps2 ps3 this1 scene1 this2 scene2 this3 scene3,
      generateTreePositions Math_sin intersectObject fuel (terrain this0)
        region (Some (Fin d1)) None = Some ps1
      /\ generateTreePositions Math_sin intersectObject fuel (terrain this0)
           region (Some (Fin d2)) None = Some ps2
      /\ generate Math_sin intersectObject fuel c1 this0 = Some (this1, scene1)
      /\ generate Math_sin intersectObject fuel c2 this1 = Some (this2, scene2)
      /\ trees this1 = trees this0 ++ map tree ps1
      /\ trees this2 = (trees this0 ++ map tree ps1) ++ map tree ps2
      /\ treeCount (getStats this2)
         = (treeCount (getStats this0) + length ps1 + length ps2)%nat
      /\ (trees this0 = [] ->
          treeCount (getStats this2) = (length ps1 + length ps2)%nat)
      /\ regenerate Math_sin PlaneGeometry fround intersectObject fuel random
           (Some seed) this2 = Some (this3, scene3)
      /\ generateTreePositions Math_sin intersectObject fuel (terrain this3)
           region (Some (Fin 0.05)) (Some seed) = Some ps3
      /\ trees this3 = map tree ps3
      /\ treeCount (getStats this3) = length ps3.
Proof.
  intros Hw Hh Hd1 Hpos1 Hd2 Hpos2 tree region.
  destruct (min_fin w h) as [g Hg]. unfold region. rewrite Hg.
  exists (S (Nat.max (grid_count g 0.05)
               (Nat.max (grid_count g d1) (grid_count g d2)))).
  intros fuel Hfuel.
  pose proof (fun t d s Hd Hf =>
                generateTreePositions_finite Math_sin intersectObject fuel t g d
                  s Hd Hf) as Hgen.
  set (ps1 := flat_map (accepted Math_sin intersectObject (terrain this0)
                          (Fin 123)) (grid_candidates g d1)).
  set (ps2 := flat_map (accepted Math_sin intersectObject (terrain this0)
                          (Fin 123)) (grid_candidates g d2)).
  set (this1 := (planted this0 ps1).1).
  set (this2 := (planted this1 ps2).1).
  set (rebuilt := createTerrain Math_sin PlaneGeometry fround (config this0)).
  set (ps3 := flat_map (accepted Math_sin intersectObject rebuilt seed)
                (grid_candidates g 0.05)).
  exists ps1, ps2, ps3, this1, (planted this0 ps1).2, this2,
    (planted this1 ps2).2, (planted (cleared rebuilt this2) ps3).1,
    (planted (cleared rebuilt this2) ps3).2.
  assert (G1 : generate Math_sin intersectObject fuel c1 this0
               = Some (planted this0 ps1)).
  { rewrite generate_planted, Hw, Hh, Hg, Hd1, (Hgen _ d1)
      by (assumption || lia). reflexivity. }
  assert (G2 : generate Math_sin intersectObject fuel c2 this1
               = Some (planted this1 ps2)).
  { rewrite generate_planted. unfold this1 at 2 3 4 5. cbn [planted fst config
      terrain].
    rewrite Hw, Hh, Hg, Hd2, (Hgen _ d2) by (assumption || lia).
    reflexivity. }
  assert (G3 : regenerate Math_sin PlaneGeometry fround intersectObject
                 fuel random (Some seed) this2
               = Some (planted (cleared rebuilt this2) ps3)).
  { rewrite regenerate_planted. cbn [default].
    change (config this2) with (config this0). fold rebuilt.
    rewrite Hw, Hh, Hg, (Hgen _ 0.05) by (lra || lia). reflexivity. }
  rewrite !(Hgen _ d1), !(Hgen _ d2), G1, G2, G3 by (assumption || lia).
  change (terrain (planted (cleared rebuilt this2) ps3).1) with rebuilt.
  rewrite (Hgen _ 0.05) by (lra || lia).
  repeat (split; [reflexivity|]).
  split; [|split; [|repeat split]].
  - unfold getStats. cbn [treeCount trees this2 this1 planted fst].
    rewrite !length_app, !length_map. lia.
  - intros E. unfold getStats. cbn [treeCount trees this2 this1 planted fst].
    rewrite E, !length_app, !length_map. simpl. lia.
  - unfold getStats. cbn [treeCount trees planted cleared fst app].
    now rewrite length_map.
Qed.

End GeneratorFacts.

(** ** Camera rig *)

(** Clamping a value of the unit interval to the unit interval keeps it. *)
Lemma clamp_unit (v : Q) :
  0 <= v -> v <= 1 ->
  exists v', Num.max (Fin 0) (Num.min (Fin 1) (Fin v)) = Fin v' /\ v' == v.
Proof.
  intros H0 H1. unfold Num.min.
  destruct (Num.lt (Fin v) (Fin 1)) eqn:E1; unfold Num.max.
  - destruct (Num.lt (Fin 0) (Fin v)) eqn:E0.
    + exists v. split; reflexivity.
    + apply lt_fin_false in E0. exists 0. split; [reflexivity|lra].
  - apply lt_fin_false in E1.
    destruct (Num.lt (Fin 0) (Fin 1)) eqn:E0.
    + exists 1. split; [reflexivity|lra].
    + apply lt_fin_false in E0. lra.
Qed.

(** C8 (as amended): in exact arithmetic, with finite zoom limits
    [minZoom < maxZoom] and a normalized zoom [v] in [0, 1], [setZoom(v)]
    sets the distance to [minZoom + (maxZoom - minZoom) * (1 - v)], which is
    [maxZoom] for 0 and [minZoom] for 1, and [getZoom()] then returns [v].
    An error [e] in the stored distance changes the value [getZoom()]
    returns by [e / (maxZoom - minZoom)]: the round trip is as accurate as
    the error of the distance is small against the span of the limits. *)
Theorem setZoom_getZoom_roundtrip (this : RTSCameraController)
    (lo hi v : Q) :
  minZoom this = Fin lo -> maxZoom this = Fin hi -> lo < hi ->
  0 <= v -> v <= 1 ->
  Num.eqv (getZoom (setZoom (Fin v) this)) (Fin v)
  /\ Num.eqv (distance (setZoom (Fin v) this))
       (Fin (lo + (hi - lo) * (1 - v)))
  /\ Num.eqv (distance (setZoom (Fin 0) this)) (Fin hi)
  /\ Num.eqv (distance (setZoom (Fin 1) this)) (Fin lo)
  /\ (forall e : Q,
        Num.eqv
          (getZoom
             (set_distance (Fin (lo + (hi - lo) * (1 - v) + e)) this))
          (Fin (v - e / (hi - lo)))).
Proof.
  intros Hlo Hhi Hlt H0 H1.
  assert (Herr : forall e : Q,
            Num.eqv
              (getZoom
                 (set_distance (Fin (lo + (hi - lo) * (1 - v) + e)) this))
              (Fin (v - e / (hi - lo)))).
  { intros e. unfold getZoom. cbn [set_distance distance minZoom maxZoom].
    rewrite Hlo, Hhi.
    change (Fin hi - Fin lo)%js with (Fin (hi - lo)).
    change (Fin (lo + (hi - lo) * (1 - v) + e) - Fin lo)%js
      with (Fin (lo + (hi - lo) * (1 - v) + e - lo)).
    rewrite div_fin_nonzero by lra.
    simpl. field. lra. }
  enough (Hmain :
            Num.eqv (getZoom (setZoom (Fin v) this)) (Fin v)
            /\ Num.eqv (distance (setZoom (Fin v) this))
                 (Fin (lo + (hi - lo) * (1 - v)))
            /\ Num.eqv (distance (setZoom (Fin 0) this)) (Fin hi)
            /\ Num.eqv (distance (setZoom (Fin 1) this)) (Fin lo)).
  { destruct Hmain as (A & B & C & D).
    split; [exact A|]. split; [exact B|]. split; [exact C|].
    split; [exact D|exact Herr]. }
  assert (Hdist : forall u, 0 <= u -> u <= 1 ->
            exists u', u' == u /\
              setZoom (Fin u) this
              = set_distance (Fin (lo + (hi - lo) * (1 - u'))) this).
  { intros u Hu0 Hu1. unfold setZoom.
    destruct (clamp_unit u Hu0 Hu1) as (u' & -> & Hu').
    exists u'. split; [exact Hu'|]. now rewrite Hlo, Hhi. }
  destruct (Hdist v H0 H1) as (v' & Hv' & ->).
  destruct (Hdist 0 ltac:(lra) ltac:(lra)) as (z & Hz & ->).
  destruct (Hdist 1 ltac:(lra) ltac:(lra)) as (o & Ho & ->).
  unfold getZoom. cbn [set_distance distance minZoom maxZoom].
  rewrite Hlo, Hhi.
  change (Fin hi - Fin lo)%js with (Fin (hi - lo)).
  change (Fin (lo + (hi - lo) * (1 - v')) - Fin lo)%js
    with (Fin (lo + (hi - lo) * (1 - v') - lo)).
  rewrite div_fin_nonzero by lra.
  simpl. repeat split.
  - rewrite Hv'. field. lra.
  - rewrite Hv'. reflexivity.
  - rewrite Hz. ring.
  - rewrite Ho. ring.
Qed.

(** C9: after [reset], from any state and with or without a target
    argument, the distance is 50, the pitch 45, the yaw 0 and no key is held;
    without a target argument the target is the one before the call, and
    with one it is that argument. *)
Theorem reset_canonical_pose (Math_sin Math_cos : Q -> Q)
    (this : RTSCameraController) (new_target : option Vector3)
    (position : Vector3) :
  distance (reset Math_sin Math_cos new_target this) = Fin 50
  /\ pitch (reset Math_sin Math_cos new_target this) = Fin 45
  /\ yaw (reset Math_sin Math_cos new_target this) = Fin 0
  /\ keysPressed (reset Math_sin Math_cos new_target this) = ∅
  /\ target (reset Math_sin Math_cos None this) = target this
  /\ target (reset Math_sin Math_cos (Some position) this) = position.
Proof.
  unfold reset. destruct new_target; repeat split.
Qed.

(** The sample rounding keeps the order. *)
Lemma sample_fround_monotone (p q : Q) :
  p <= q -> Num.le (sample_fround p) (sample_fround q).
Proof.
  intros H. unfold sample_fround, Num.le. rewrite !Qred_correct.
  apply Qmult_le_compat_r; [|vm_compute; discriminate].
  rewrite <- Zle_Qle. apply Qfloor_resp_le. lra.
Qed.

(** ** The properties on concrete inputs *)

Lemma createTerrain_vertex_elevation_witness :
  (forall p q, p <= q -> Num.le (sample_fround p) (sample_fround q))
  /\ sample_fround 0 = Fin 0
  /\ corner_PlaneGeometry (Fin 100) (Fin 100) (Fin 64) (Fin 64) !! 0%nat
     = Some (Fin (- 100 / 2))
  /\ ~ 15 == 0 /\ 0 <= 15
  /\ exists e,
       positions (createTerrain sample_sin corner_PlaneGeometry sample_fround
                    default_terrainConfig) !! 2%nat = Some (sample_fround e)
       /\ Num.le (Fin 0) (sample_fround e)
       /\ Num.le (sample_fround e) (sample_fround 15).
Proof.
  split; [exact sample_fround_monotone|]. split; [reflexivity|].
  split; [reflexivity|]. split; [lra|]. split; [lra|].
  destruct (createTerrain_vertex_elevation sample_sin corner_PlaneGeometry
              sample_fround default_terrainConfig 0 (- 100 / 2) (100 / 2)
              15 15 (Fin 0) sample_fround_monotone eq_refl
              eq_refl eq_refl eq_refl eq_refl ltac:(lra) eq_refl ltac:(lra))
    as (e & _ & _ & _ & He & _ & _ & Hlo & Hhi & _).
  exists e. split; [exact He|]. split; [exact Hlo|exact Hhi].
Defined.

(** C3 (as stated) fails: with [maxHeight = 0] the first vertex of the
    plane holds a stored elevation, which cannot lie in the empty interval
    [0, 0), whatever [Math.sin] and the rounding of the store return. *)
Lemma createTerrain_flat_outside_range :
  ~ exists (Math_sin : Q -> Q) (fround : Q -> number),
      forall z,
        positions (createTerrain Math_sin corner_PlaneGeometry fround
                     flat_terrainConfig) !! 2%nat = Some z ->
        Num.in_range 0 (0 : Q) z.
Proof.
  intros (Math_sin & fround & H).
  destruct (displace_lookup Math_sin fround flat_terrainConfig 0
              (corner_PlaneGeometry (Fin 100) (Fin 100) (Fin 1) (Fin 1))
              (Fin (- 100 / 2)) (Fin (100 / 2)) (Fin 0)
              eq_refl eq_refl eq_refl) as (_ & _ & Dz).
  specialize (H _ Dz).
  destruct (Num.store32 fround _) as [r| | |]; simpl in H; try exact H. lra.
Qed.


Lemma generateTreePositions_scan_order_witness :
  0 < 0.3
  /\ length
       (ramp_with sample_plus 13 (- Fin 4 / Fin 2)%js
          (Fin 1 / (Fin 0.3 * Fin 10))%js) = 13%nat
  /\ (ramp_end_with sample_plus 13 (- Fin 4 / Fin 2)%js
        (Fin 1 / (Fin 0.3 * Fin 10))%js <? Fin 4 / Fin 2)%js = false
  /\ generateTreePositions_with sample_sin halfplane_intersectObject
       sample_plus 14 (terrain sample_generator) (Fin 4) (Some (Fin 0.3))
       None
     = Some (flat_map
               (accepted sample_sin halfplane_intersectObject
                  (terrain sample_generator) (Fin 123))
               (flat_map
                  (fun x =>
                     map (fun z => (x, z))
                       (ramp_with sample_plus 13 (- Fin 4 / Fin 2)%js
                          (Fin 1 / (Fin 0.3 * Fin 10))%js))
                  (ramp_with sample_plus 13 (- Fin 4 / Fin 2)%js
                     (Fin 1 / (Fin 0.3 * Fin 10))%js))).
Proof.
  assert (Hd : 0 < 0.3) by lra.
  assert (Hout :
            (ramp_end_with sample_plus 13 (- Fin 4 / Fin 2)%js
               (Fin 1 / (Fin 0.3 * Fin 10))%js <? Fin 4 / Fin 2)%js = false)
    by (vm_compute; reflexivity).
  split; [exact Hd|]. split; [reflexivity|]. split; [exact Hout|].
  destruct (generateTreePositions_scan_order sample_sin
              halfplane_intersectObject sample_plus
              (terrain sample_generator) 4 0.3 None 13 Hd)
    as (_ & _ & _ & _ & Hgen & _).
  - repeat (constructor; [vm_compute; reflexivity|]). constructor.
  - repeat (constructor; [vm_compute; reflexivity|]). constructor.
  - exact Hout.
  - apply Hgen. lia.
Defined.

Lemma scan_count_monotone_in_density_witness :
  0 < 0.05 /\ 0.05 < 0.1 /\ (grid_count 4 0.1 < 5)%nat
  /\ exists c1 c2,
       scannedCandidates 5 (Fin 4) (Some (Fin 0.05)) = Some c1
       /\ scannedCandidates 5 (Fin 4) (Some (Fin 0.1)) = Some c2
       /\ (length c1 <= length c2)%nat.
Proof.
  assert (H1 : 0 < 0.05) by lra.
  assert (H2 : 0.05 < 0.1) by lra.
  assert (Hf : (grid_count 4 0.1 < 5)%nat) by (vm_compute; lia).
  split; [exact H1|]. split; [exact H2|]. split; [exact Hf|].
  destruct (scan_count_monotone_in_density sample_sin
              halfplane_intersectObject (terrain sample_generator) 4 0.05 0.1
              None 5 H1 H2 Hf) as (c1 & c2 & E1 & E2 & _ & _ & Hle).
  exists c1, c2. auto.
Defined.

Lemma regenerate_reseeds_trees_only_witness :
  width (config sample_generator) = Fin 100
  /\ height (config sample_generator) = Fin 100
  /\ exists fuel0, forall fuel, (fuel0 <= fuel)%nat ->
       exists this1 scene1 this2 scene2,
         regenerate sample_sin corner_PlaneGeometry sample_fround
           halfplane_intersectObject fuel (Fin 0.5) (Some (Fin 7))
           sample_generator
         = Some (this1, scene1)
         /\ regenerate sample_sin corner_PlaneGeometry sample_fround
              halfplane_intersectObject fuel (Fin 0.5) (Some (Fin 8)) this1
            = Some (this2, scene2)
         /\ positions (terrain this1) = positions (terrain this2).
Proof.
  split; [reflexivity|]. split; [reflexivity|].
  destruct (regenerate_reseeds_trees_only sample_sin corner_PlaneGeometry
              sample_fround
              halfplane_intersectObject sample_generator 100 100 (Fin 0.5)
              (Fin 7) (Fin 8) eq_refl eq_refl) as [fuel0 H].
  exists fuel0. intros fuel Hfuel.
  destruct (H fuel Hfuel)
    as (ps1 & ps2 & this1 & scene1 & this2 & scene2 & R1 & R2 & _ & _ & _ & _
        & _ & _ & Hpos & _).
  exists this1, scene1, this2, scene2. auto.
Defined.

Lemma generate_density_passed_witness :
  Num.truthy (Fin 3) = true
  /\ generate sample_sin halfplane_intersectObject 6 (Some (Fin 3))
       small_generator
     = option_map (planted small_generator)
         (generateTreePositions sample_sin halfplane_intersectObject 6
            (terrain small_generator) (Num.min (Fin 4) (Fin 6))
            (Some (Fin 3 / (Fin 4 * Fin 6))%js) None)
  /\ option_map (fun r => length (trees r.1))
       (generate sample_sin halfplane_intersectObject 6 (Some (Fin 3))
          small_generator)
     = Some 6%nat.
Proof.
  split; [reflexivity|]. split; [|vm_compute; reflexivity].
  destruct (generate_density_passed sample_sin halfplane_intersectObject
              small_generator 6 (Fin 3) eq_refl) as [H _].
  exact H.
Defined.

(** C7 (as stated) fails: a provided [treeCount] of 0 is falsy, so the
    density handed to the placement pass is the default 0.05 and not
    [0 / (100 * 100)]. *)
Lemma generate_density_zero_count :
  generate_density default_terrainConfig (Some (Fin 0)) = Fin 0.05
  /\ ~ Num.eqv (generate_density default_terrainConfig (Some (Fin 0)))
         (Fin 0 / (width default_terrainConfig
                   * height default_terrainConfig))%js.
Proof.
  split; [reflexivity|]. intros H. vm_compute in H. discriminate H.
Qed.

Lemma setZoom_getZoom_roundtrip_witness :
  minZoom sample_controller = Fin 10
  /\ maxZoom sample_controller = Fin 200
  /\ 10 < 200 /\ 0 <= 0.25 /\ 0.25 <= 1
  /\ Num.eqv (getZoom (setZoom (Fin 0.25) sample_controller)) (Fin 0.25)
  /\ Num.eqv (distance (setZoom (Fin 0.25) sample_controller)) (Fin 152.5).
Proof.
  split; [reflexivity|]. split; [reflexivity|].
  assert (Hlt : 10 < 200) by lra.
  assert (H0 : 0 <= 0.25) by lra.
  assert (H1 : 0.25 <= 1) by lra.
  split; [exact Hlt|]. split; [exact H0|]. split; [exact H1|].
  destruct (setZoom_getZoom_roundtrip sample_controller 10 200 0.25 eq_refl
              eq_refl Hlt H0 H1) as (Hround & Hdist & _).
  split; [exact Hround|].
  destruct (distance (setZoom (Fin 0.25) sample_controller)) as [d| | |];
    try contradiction.
  simpl in Hdist |- *. rewrite Hdist. reflexivity.
Defined.

(** C8 (as stated) fails: on binary64 values, with the limits [1e16] and
    [1e16 + 2], [setZoom(0.25)] computes [1e16 + 2 * 0.75], which rounds to
    [1e16 + 2], the upper limit; [getZoom()] then returns 0, not 0.25. *)
Lemma setZoom_getZoom_binary64 :
  Double.setZoom 1e16%float 10000000000000002%float 0.25%float
  = 10000000000000002%float
  /\ Double.getZoom 1e16%float 10000000000000002%float
       (Double.setZoom 1e16%float 10000000000000002%float 0.25%float)
     = 0%float.
Proof. split; vm_compute; reflexivity. Qed.

Lemma generate_appends_trees_witness :
  generate_density (config sample_generator) None = Fin 0.05
  /\ generate_density (config sample_generator) (Some (Fin 1000))
     = Fin (1000 / (100 * 100))
  /\ 0 < 0.05 /\ 0 < 1000 / (100 * 100)
  /\ exists fuel0, forall fuel, (fuel0 <= fuel)%nat ->
       exists ps1 ps2 this1 scene1 this2 scene2,
         generateTreePositions sample_sin halfplane_intersectObject fuel
           (terrain sample_generator) (Num.min (Fin 100) (Fin 100))
           (Some (Fin 0.05)) None = Some ps1
         /\ generateTreePositions sample_sin halfplane_intersectObject fuel
              (terrain sample_generator) (Num.min (Fin 100) (Fin 100))
              (Some (Fin (1000 / (100 * 100)))) None = Some ps2
         /\ generate sample_sin halfplane_intersectObject fuel None
              sample_generator = Some (this1, scene1)
         /\ generate sample_sin halfplane_intersectObject fuel
              (Some (Fin 1000)) this1 = Some (this2, scene2)
         /\ treeCount (getStats this2) = (length ps1 + length ps2)%nat.
Proof.
  assert (H1 : 0 < 0.05) by lra.
  assert (H2 : 0 < 1000 / (100 * 100)) by reflexivity.
  split; [reflexivity|]. split; [reflexivity|].
  split; [exact H1|]. split; [exact H2|].
  destruct (generate_appends_trees sample_sin corner_PlaneGeometry sample_fround
              halfplane_intersectObject sample_generator None
              (Some (Fin 1000)) 100 100 0.05 (1000 / (100 * 100)) (Fin 0.5)
              (Fin 7) eq_refl eq_refl eq_refl H1 eq_refl H2) as [fuel0 H].
  exists fuel0. intros fuel Hfuel.
  destruct (H fuel Hfuel)
    as (ps1 & ps2 & ps3 & this1 & scene1 & this2 & scene2 & this3 & scene3
        & P1 & P2 & G1 & G2 & _ & _ & _ & Hfresh & _).
  exists ps1, ps2, this1, scene1, this2, scene2.
  split; [exact P1|]. split; [exact P2|].
  split; [exact G1|]. split; [exact G2|]. apply Hfresh. reflexivity.
Defined.

(** ** The model at work *)

(** A region of size 4 at density 0.1 (step 1) is scanned at 4 x 4
    candidates; at density 0.05 (step 2) at 2 x 2. *)
Example scan_region_4 :
  option_map length (scannedCandidates 5 (Fin 4) (Some (Fin 0.1)))
  = Some 16%nat
  /\ option_map length (scannedCandidates 5 (Fin 4) (Some (Fin 0.05)))
     = Some 4%nat.
Proof. split; vm_compute; reflexivity. Qed.

(** A density of 0 makes the step infinite: one candidate is visited. *)
Example scan_zero_density :
  option_map length (scannedCandidates 2 (Fin 4) (Some (Fin 0))) = Some 1%nat.
Proof. vm_compute. reflexivity. Qed.

(** A negative density makes the step negative: the scan of a region of
    positive size never returns. *)
Example scan_negative_density (fuel : nat) :
  scannedCandidates fuel (Fin 4) (Some (Fin (-1))) = None.
Proof.
  unfold scannedCandidates. cbv zeta.
  change (default (Fin 0.1) (Some (Fin (-1)))) with (Fin (-1)).
  destruct (scan_bounds_finite 4 (-1)) as (-> & -> & ->); [lra|].
  destruct fuel as [|fuel]; [reflexivity|].
  apply for_loop_body_fails; [reflexivity|].
  apply for_loop_no_progress; [vm_compute; discriminate | reflexivity].
Qed.

(** With the sample collaborators, a pass over a region of size 4 at
    density 0.1 places three trees, all on the half-plane [x < 0] at
    height 0.5. *)
Example placement_region_4 :
  option_map (map (fun p => (vx p, vy p, vz p)))
    (generateTreePositions sample_sin halfplane_intersectObject 5
       (terrain sample_generator) (Fin 4) (Some (Fin 0.1)) None)
  = Some [ (Fin (- 4 / 2), (Fin 0 + Fin 0.5)%js, Fin (- 4 / 2));
           (Fin (- 4 / 2), (Fin 0 + Fin 0.5)%js,
            Fin (- 4 / 2 + 1 / (0.1 * 10)));
           (Fin (- 4 / 2 + 1 / (0.1 * 10)), (Fin 0 + Fin 0.5)%js,
            Fin (- 4 / 2)) ].
Proof. vm_compute. reflexivity. Qed.

(** With the exact addition the loops over a region of size 4 at density
    0.3 run 12 times per axis.  With the rounded addition [sample_plus] the
    accumulated error leaves the variable just below 2 after 12 additions:
    the loops run 13 times, and the further candidates bring further
    anchors. *)
Example scan_rounded_addition :
  grid_count 4 0.3 = 12%nat
  /\ ramp_with sample_plus 13 (- Fin 4 / Fin 2)%js
       (Fin 1 / (Fin 0.3 * Fin 10))%js !! 12%nat
     = Some (Fin (8388607 # 4194304))
  /\ option_map (@length Vector3)
       (generateTreePositions sample_sin halfplane_intersectObject 14
          (terrain sample_generator) (Fin 4) (Some (Fin 0.3)) None)
     = Some 22%nat
  /\ option_map (@length Vector3)
       (generateTreePositions_with sample_sin halfplane_intersectObject
          sample_plus 14 (terrain sample_generator) (Fin 4)
          (Some (Fin 0.3)) None)
     = Some 33%nat.
Proof.
  split; [vm_compute; reflexivity|]. split; [vm_compute; reflexivity|].
  split; vm_compute; reflexivity.
Qed.

(** The initial rig is at normalized zoom 15/19 (distance 50 between the
    limits 10 and 200). *)
Example initial_zoom :
  Num.eqv (getZoom sample_controller) (Fin (15 # 19)).
Proof. vm_compute. reflexivity. Qed.

(** * Further properties of the terrain generator *)

Section MoreNoiseFacts.

Variable Math_sin : Q -> Q.

(** X1: whatever its arguments, [perlinNoise] returns NaN or a finite value
    in the closed interval [0, 1], never an infinity; and it returns NaN
    exactly when the argument [x * 12.9898 + y * 78.233 + seed] it passes to
    [Math.sin] is not finite. *)
Theorem perlinNoise_unit_or_NaN (x y seed : number) :
  (perlinNoise Math_sin x y seed = NaN
   \/ exists r, perlinNoise Math_sin x y seed = Fin r /\ 0 <= r /\ r <= 1)
  /\ (perlinNoise Math_sin x y seed = NaN
      <-> forall a, (x * Fin 12.9898 + y * Fin 78.233 + seed)%js <> Fin a).
Proof.
  unfold perlinNoise.
  destruct (x * Fin 12.9898 + y * Fin 78.233 + seed)%js as [a| | |];
    try (split; [left; reflexivity|split; [discriminate|reflexivity]]).
  cbn [Num.lift].
  set (n := Math_sin a * 43758.5453).
  change (Fin (Math_sin a) * Fin 43758.5453)%js with (Fin n).
  cbn [Num.floor Num.sub]. split.
  - right. exists (n - inject_Z (Qfloor n)). split; [reflexivity|].
    pose proof (Qfloor_le n) as Hlo. pose proof (Qlt_floor n) as Hhi.
    rewrite inject_Z_plus in Hhi. change (inject_Z 1) with 1 in Hhi.
    split; lra.
  - split; [discriminate|]. intros H. now destruct (H a).
Qed.

(** With an octave count of 0 the loop body never runs and the final
    division is 0 / 0: [improvedPerlinNoise] returns NaN whatever the other
    arguments. *)
Lemma improvedPerlinNoise_zero_octaves
    (x y persistence lacunarity seed : number) :
  improvedPerlinNoise Math_sin x y 0 persistence lacunarity seed = NaN.
Proof. reflexivity. Qed.

End MoreNoiseFacts.

(** Induction over a flat array three entries at a time. *)
Lemma triples_ind {A : Type} (P : list A -> Prop) :
  P [] -> (forall x, P [x]) -> (forall x y, P [x; y]) ->
  (forall x y z rest, P rest -> P (x :: y :: z :: rest)) ->
  forall l, P l.
Proof.
  intros H0 H1 H2 H3.
  assert (H : forall l, P l /\ (forall x, P (x :: l))
                        /\ (forall x y, P (x :: y :: l))).
  { induction l as [|z rest (IH0 & IH1 & IH2)].
    - repeat split; auto.
    - repeat split; auto. }
  intros l. apply H.
Qed.

Section MoreTerrainFacts.

Variable Math_sin : Q -> Q.
Variable PlaneGeometry : number -> number -> number -> number -> list number.
Variable fround : Q -> number.
Variable intersectObject : Raycaster -> Mesh -> list Intersection.

Lemma displace_length (config : TerrainConfig) (ps : list number) :
  length (displace Math_sin fround config ps) = length ps.
Proof.
  induction ps as [|x|x y|x y z rest IH] using triples_ind;
    try reflexivity.
  simpl. now rewrite IH.
Qed.

Lemma displace_planar (config : TerrainConfig) (ps : list number) :
  forall i, (i mod 3 <> 2)%nat ->
    displace Math_sin fround config ps !! i = ps !! i.
Proof.
  induction ps as [|x|x y|x y z rest IH] using triples_ind;
    try reflexivity.
  intros i Hi. destruct i as [|[|[|i]]]; try reflexivity.
  - exfalso. apply Hi. reflexivity.
  - simpl. apply IH. intros H. apply Hi.
    replace (S (S (S i))) with (i + 1 * 3)%nat by lia.
    now rewrite Nat.Div0.mod_add.
Qed.

(** X2: [createTerrain] keeps the number of entries of the position array
    of the plane and every entry that is not the third of its vertex; the
    vertex count reported by [getStats] is that of the plane. *)
Theorem createTerrain_keeps_plane (config : TerrainConfig)
    (this : TerrainGenerator) :
  let plane :=
    PlaneGeometry (width config) (height config) (widthSegments config)
      (heightSegments config) in
  let mesh := createTerrain Math_sin PlaneGeometry fround config in
  length (positions mesh) = length plane
  /\ (forall i, (i mod 3 <> 2)%nat -> positions mesh !! i = plane !! i)
  /\ (terrain this = mesh ->
      terrainVertices (getStats this)
      = (Num.of_nat (length plane) / Fin 3)%js).
Proof.
  intros plane mesh. unfold mesh, createTerrain. cbn [positions]. fold plane.
  split; [apply displace_length|]. split; [apply displace_planar|].
  intros H. unfold getStats. cbn [terrainVertices]. rewrite H.
  cbn [positions]. now rewrite displace_length.
Qed.

(** X3: a call of [generate] that returns leaves the terrain, the config and
    the tree config as they were, keeps every tree already in the group in
    place and only appends to them, and returns a group made of that terrain
    and the tree group; the vertex count and the extents reported by
    [getStats] do not change. *)
Theorem generate_frame (fuel : nat) (treeCount : option number)
    (this this' : TerrainGenerator) (scene : Scene) :
  generate Math_sin intersectObject fuel treeCount this = Some (this', scene) ->
  terrain this' = terrain this
  /\ config this' = config this
  /\ treeConfig this' = treeConfig this
  /\ (exists added, trees this' = trees this ++ added)
  /\ scene = {| scene_terrain := terrain this; scene_trees := trees this' |}
  /\ terrainVertices (getStats this') = terrainVertices (getStats this)
  /\ terrainSize (getStats this') = terrainSize (getStats this).
Proof.
  rewrite generate_planted.
  destruct (generateTreePositions _ _ _ _ _ _ _) as [ps|]; [|discriminate].
  intros [= <- <-]. cbn. repeat split. eauto.
Qed.

(** X4: the invariant [terrain = createTerrain(config)] holds of a new
    generator and is kept by every call of [generate] and [regenerate] that
    returns: no operation changes the shape of the terrain. *)
Theorem terrain_matches_config (terrainConfig : option TerrainConfig)
    (treeCfg : option TreeConfig) (fuel : nat) (random : number)
    (treeCount seed : option number) (this : TerrainGenerator) :
  let inv := fun g : TerrainGenerator =>
    terrain g = createTerrain Math_sin PlaneGeometry fround (config g) in
  inv (new_TerrainGenerator Math_sin PlaneGeometry fround terrainConfig treeCfg)
  /\ (forall this' scene,
        inv this ->
        generate Math_sin intersectObject fuel treeCount this
        = Some (this', scene) -> inv this')
  /\ (forall this' scene,
        regenerate Math_sin PlaneGeometry fround intersectObject fuel random
          seed this = Some (this', scene) ->
        inv this' /\ config this' = config this).
Proof.
  intros inv. split; [reflexivity|]. split.
  - intros this' scene Hinv. rewrite generate_planted.
    destruct (generateTreePositions _ _ _ _ _ _ _) as [ps|]; [|discriminate].
    intros [= <- <-]. exact Hinv.
  - intros this' scene. rewrite regenerate_planted.
    destruct (generateTreePositions _ _ _ _ _ _ _) as [ps|]; [|discriminate].
    intros [= <- <-]. split; reflexivity.
Qed.

(** X5: the outcome of [regenerate] depends on the config, the tree config
    and the seed only, not on the terrain or the trees the generator holds:
    when a call returns, repeating it with the same seed on the resulting
    generator, or on any generator with the same configs, returns the same
    generator and group. *)
Theorem regenerate_repeatable (fuel : nat) (random seed : number)
    (this this1 : TerrainGenerator) (scene1 : Scene) :
  regenerate Math_sin PlaneGeometry fround intersectObject fuel random
    (Some seed) this = Some (this1, scene1) ->
  regenerate Math_sin PlaneGeometry fround intersectObject fuel random
    (Some seed) this1 = Some (this1, scene1)
  /\ (forall other,
        config other = config this -> treeConfig other = treeConfig this ->
        regenerate Math_sin PlaneGeometry fround intersectObject fuel random
          (Some seed) other = Some (this1, scene1)).
Proof.
  intros H.
  assert (Hdep : forall other,
            config other = config this -> treeConfig other = treeConfig this ->
            regenerate Math_sin PlaneGeometry fround intersectObject fuel random
              (Some seed) other = Some (this1, scene1)).
  { intros other Hc Ht. rewrite <- H. rewrite !regenerate_planted.
    unfold cleared. now rewrite Hc, Ht. }
  split; [|exact Hdep].
  apply Hdep.
  - rewrite regenerate_planted in H.
    destruct (generateTreePositions _ _ _ _ _ _ _) as [ps|]; [|discriminate].
    injection H as <- _. reflexivity.
  - rewrite regenerate_planted in H.
    destruct (generateTreePositions _ _ _ _ _ _ _) as [ps|]; [|discriminate].
    injection H as <- _. reflexivity.
Qed.

End MoreTerrainFacts.

(** ** Further properties of the placement sampler *)

Lemma half_spread (g : Q) :
  (g <= 0 -> g / 2 <= - g / 2) /\ (0 < g -> - g / 2 < g / 2).
Proof.
  assert (E1 : g / 2 == g * (1 # 2)) by field.
  assert (E2 : - g / 2 == - g * (1 # 2)) by field.
  split; intros H; lra.
Qed.

Lemma region_bounds_finite (g : Q) :
  (- Fin g / Fin 2)%js = Fin (- g / 2) /\ (Fin g / Fin 2)%js = Fin (g / 2).
Proof. split; reflexivity. Qed.

Lemma grid_axis_range (g d q : Q) :
  0 < d -> In q (grid_axis g d) -> - g / 2 <= q /\ q < g / 2.
Proof.
  intros Hd Hq. pose proof (step_positive d Hd) as Hstep.
  unfold grid_axis in Hq. apply ramp_In in Hq as (k & Hk & Hq).
  rewrite Hq. split.
  - pose proof (Qnat_nonneg k). nra.
  - apply trip_count_inside; assumption.
Qed.

Lemma grid_candidates_In (g d : Q) (c : number * number) :
  In c (grid_candidates g d) <->
  exists x z, c = (Fin x, Fin z)
              /\ In x (grid_axis g d) /\ In z (grid_axis g d).
Proof.
  unfold grid_candidates. rewrite in_flat_map. split.
  - intros (x & Hx & Hc). apply in_map_iff in Hc as (z & <- & Hz).
    now exists x, z.
  - intros (x & z & -> & Hx & Hz). exists x. split; [exact Hx|].
    apply in_map_iff. now exists z.
Qed.

(** An infinite step ends a loop after the first iteration. *)
Lemma for_loop_infinite_step {A : Type} (body : number -> A -> option A)
    (fuel : nat) (start bound : Q) (acc acc' : A) :
  start < bound -> body (Fin start) acc = Some acc' ->
  for_loop (S (S fuel)) (Fin start) (Fin bound) PosInf body acc = Some acc'.
Proof.
  intros Hlt Hbody. unfold for_loop; cbn [for_loop_with].
  apply lt_fin in Hlt. rewrite Hlt, Hbody. reflexivity.
Qed.

Lemma step_negative (d : Q) : d < 0 -> 1 / (d * 10) < 0.
Proof.
  intros Hd. assert (E : 1 / (d * 10) * (d * 10) == 1) by (field; lra).
  destruct (Qlt_le_dec (1 / (d * 10)) 0) as [H|H]; [exact H|]. nra.
Qed.

Section MorePlacementFacts.

Variable Math_sin : Q -> Q.
Variable intersectObject : Raycaster -> Mesh -> list Intersection.

(** The planar coordinates of the anchors a candidate contributes are the
    candidate itself, at most once. *)
Lemma accepted_key (terrain : Mesh) (seed : number) (c : number * number) :
  map (fun p => (vx p, vz p))
    (accepted Math_sin intersectObject terrain seed c)
  = if match accepted Math_sin intersectObject terrain seed c with
       | [] => false
       | _ => true
       end
    then [c] else [].
Proof.
  unfold accepted. destruct c as [x z]. cbn [fst snd].
  destruct (_ >? _)%js; [|reflexivity].
  destruct (intersectObject _ terrain); reflexivity.
Qed.

Lemma accepted_keys_filter (terrain : Mesh) (seed : number)
    (cs : list (number * number)) :
  map (fun p => (vx p, vz p))
    (flat_map (accepted Math_sin intersectObject terrain seed) cs)
  = List.filter
      (fun c => match accepted Math_sin intersectObject terrain seed c with
                | [] => false
                | _ => true
                end) cs.
Proof.
  induction cs as [|c cs IH]; [reflexivity|].
  cbn [flat_map List.filter]. rewrite map_app, IH, accepted_key.
  destruct (accepted Math_sin intersectObject terrain seed c); reflexivity.
Qed.

(** X6: for a finite region size [g] and a positive density, every anchor
    the pass returns has finite planar coordinates inside the scanned square
    [-g/2, g/2) x [-g/2, g/2). *)
Theorem anchors_inside_region (terrain : Mesh) (g d : Q)
    (seed : option number) (fuel : nat) :
  0 < d -> (grid_count g d < fuel)%nat ->
  exists ps,
    generateTreePositions Math_sin intersectObject fuel terrain (Fin g)
      (Some (Fin d)) seed = Some ps
    /\ forall p, In p ps ->
         exists x z,
           vx p = Fin x /\ vz p = Fin z
           /\ - g / 2 <= x /\ x < g / 2 /\ - g / 2 <= z /\ z < g / 2.
Proof.
  intros Hd Hfuel. eexists. split.
  - apply generateTreePositions_finite; assumption.
  - intros p Hp. apply in_flat_map in Hp as (c & Hc & Hp).
    apply accepted_In in Hp as (_ & hit & rest & _ & ->).
    apply grid_candidates_In in Hc as (x & z & -> & Hx & Hz).
    exists x, z.
    destruct (grid_axis_range g d x Hd Hx), (grid_axis_range g d z Hd Hz).
    repeat split; assumption.
Qed.

(** X7: for a finite region size and a positive density, and whatever the
    addition that advances the loop variables: if it moves the variable up
    and each loop runs [n] times, the pass returns at most one anchor per
    candidate it visits.  Every anchor stands at planar coordinates visited
    along the axes, no two anchors share their planar coordinates, and
    there are at most [n * n] anchors. *)
Theorem anchors_distinct_and_bounded
    (plus : number -> number -> number) (terrain : Mesh) (g d : Q)
    (seed : option number) (n fuel : nat) :
  let start := (- Fin g / Fin 2)%js in
  let bound := (Fin g / Fin 2)%js in
  let step := (Fin 1 / (Fin d * Fin 10))%js in
  let axis := ramp_with plus n start step in
  0 < d ->
  Forall (fun v => (v <? plus v step)%js = true) axis ->
  Forall (fun v => (v <? bound)%js = true) axis ->
  (ramp_end_with plus n start step <? bound)%js = false ->
  (n < fuel)%nat ->
  exists ps,
    generateTreePositions_with Math_sin intersectObject plus fuel terrain
      (Fin g) (Some (Fin d)) seed = Some ps
    /\ (forall p, In p ps -> In (vx p) axis /\ In (vz p) axis)
    /\ List.NoDup (map (fun p => (vx p, vz p)) ps)
    /\ (length ps <= n * n)%nat.
Proof.
  intros start bound step axis Hd Hup Hin Hout Hfuel. eexists.
  split;
    [exact (generateTreePositions_with_ramp Math_sin intersectObject plus
              terrain (Fin g) (Fin d) seed n fuel Hin Hout Hfuel)|].
  fold start step axis. split; [|split].
  - intros p Hp. apply in_flat_map in Hp as (c & Hc & Hp).
    apply accepted_In in Hp as (_ & hit & rest & _ & ->).
    apply in_flat_map in Hc as (x & Hx & Hc).
    apply in_map_iff in Hc as (z & <- & Hz).
    split; assumption.
  - rewrite accepted_keys_filter. apply List.NoDup_filter.
    apply NoDup_product; apply ramp_with_NoDup; exact Hup.
  - rewrite <- (length_map (fun p => (vx p, vz p))), accepted_keys_filter.
    etransitivity; [apply filter_length_le|].
    rewrite (flat_map_const_length _ n).
    + unfold axis. now rewrite ramp_with_length.
    + intros x. rewrite length_map. apply ramp_with_length.
Qed.

(** X8: for a finite region size that is not positive, and for a region
    size that is NaN, the loop condition fails at once: the pass returns no
    anchor, whatever the density and the seed. *)
Theorem generateTreePositions_empty_region (terrain : Mesh) (g : Q)
    (density seed : option number) (fuel : nat) :
  g <= 0 ->
  generateTreePositions Math_sin intersectObject (S fuel) terrain (Fin g)
    density seed = Some []
  /\ generateTreePositions Math_sin intersectObject (S fuel) terrain NaN
       density seed = Some [].
Proof.
  intros Hg. split; [|reflexivity].
  unfold generateTreePositions, generateTreePositions_with. cbv zeta.
  destruct (region_bounds_finite g) as [-> ->]. cbn [for_loop_with].
  assert (H : (Fin (- g / 2) <? Fin (g / 2))%js = false)
    by (apply lt_fin_false, half_spread; exact Hg).
  now rewrite H.
Qed.

(** X9: with a density of 0 the step [1 / (density * 10)] is infinite:
    over a finite region of positive size the scan visits the corner
    [(-g/2, -g/2)] only, and the pass returns what that candidate
    contributes. *)
Theorem generateTreePositions_zero_density (terrain : Mesh) (g d : Q)
    (seed : option number) (fuel : nat) :
  0 < g -> d == 0 ->
  scannedCandidates (S (S fuel)) (Fin g) (Some (Fin d))
  = Some [(Fin (- g / 2), Fin (- g / 2))]
  /\ generateTreePositions Math_sin intersectObject (S (S fuel)) terrain
       (Fin g) (Some (Fin d)) seed
     = Some (accepted Math_sin intersectObject terrain
               (default (Fin 123) seed) (Fin (- g / 2), Fin (- g / 2))).
Proof.
  intros Hg Hd.
  assert (Hscan : scannedCandidates (S (S fuel)) (Fin g) (Some (Fin d))
                  = Some [(Fin (- g / 2), Fin (- g / 2))]).
  { unfold scannedCandidates. cbv zeta.
    change (default (Fin 0.1) (Some (Fin d))) with (Fin d).
    destruct (region_bounds_finite g) as [-> ->].
    assert (Hstep : (Fin 1 / (Fin d * Fin 10))%js = PosInf).
    { change (Fin d * Fin 10)%js with (Fin (d * 10)). simpl.
      rewrite (Qeq_eq_bool (d * 10) 0) by (rewrite Hd; ring).
      reflexivity. }
    rewrite Hstep.
    apply for_loop_infinite_step; [apply half_spread; exact Hg|].
    apply for_loop_infinite_step; [apply half_spread; exact Hg|reflexivity]. }
  split; [exact Hscan|].
  rewrite generateTreePositions_scan, Hscan. cbn [option_map flat_map].
  now rewrite app_nil_r.
Qed.

(** X10: with a negative density the step is negative: over a finite
    region of positive size the inner loop never reaches its bound, and the
    pass returns for no amount of fuel. *)
Theorem generateTreePositions_negative_density (terrain : Mesh) (g d : Q)
    (seed : option number) (fuel : nat) :
  0 < g -> d < 0 ->
  generateTreePositions Math_sin intersectObject fuel terrain (Fin g)
    (Some (Fin d)) seed = None.
Proof.
  intros Hg Hd. rewrite generateTreePositions_scan.
  replace (scannedCandidates fuel (Fin g) (Some (Fin d))) with
    (@None (list (number * number))); [reflexivity|].
  symmetry. unfold scannedCandidates. cbv zeta.
  change (default (Fin 0.1) (Some (Fin d))) with (Fin d).
  destruct (scan_bounds_finite g d) as (-> & -> & ->); [lra|].
  pose proof (step_negative d Hd) as Hstep.
  apply for_loop_body_fails; [apply lt_fin, half_spread; exact Hg|].
  apply for_loop_no_progress; [lra | apply half_spread; exact Hg].
Qed.

End MorePlacementFacts.

(** * Further properties of the camera rig *)

Lemma max_fin_spec (a b : Q) :
  exists m, Num.max (Fin a) (Fin b) = Fin m
            /\ a <= m /\ b <= m /\ (m = a \/ m = b).
Proof.
  unfold Num.max. destruct (Num.lt (Fin a) (Fin b)) eqn:E.
  - apply lt_fin in E. exists b. repeat split; auto; lra.
  - apply lt_fin_false in E. exists a. repeat split; auto; lra.
Qed.

Lemma min_fin_spec (a b : Q) :
  exists m, Num.min (Fin a) (Fin b) = Fin m
            /\ m <= a /\ m <= b /\ (m = a \/ m = b).
Proof.
  unfold Num.min. destruct (Num.lt (Fin b) (Fin a)) eqn:E.
  - apply lt_fin in E. exists b. repeat split; auto; lra.
  - apply lt_fin_false in E. exists a. repeat split; auto; lra.
Qed.

(** [Math.max(lo, Math.min(hi, x))] on finite values. *)
Lemma clamp_fin (lo hi x : Q) :
  exists c, Num.max (Fin lo) (Num.min (Fin hi) (Fin x)) = Fin c
            /\ lo <= c
            /\ (lo <= hi -> c <= hi)
            /\ (lo <= x -> x <= hi -> c == x)
            /\ (hi <= x -> lo <= hi -> c == hi)
            /\ (x <= lo -> c == lo).
Proof.
  destruct (min_fin_spec hi x) as (m & -> & Hm1 & Hm2 & Hm).
  destruct (max_fin_spec lo m) as (c & -> & Hc1 & Hc2 & Hc).
  exists c. split; [reflexivity|].
  destruct Hm as [-> | ->], Hc as [-> | ->]; repeat split; intros; lra.
Qed.

(** X11: with finite pitch limits [minPitch <= maxPitch], [setPitch] of a
    finite angle stores that angle when it lies between the limits, the
    upper limit when it is above, and the lower limit when it is below. *)
Theorem setPitch_clamps (this : RTSCameraController) (lo hi degrees : Q) :
  minPitch this = Fin lo -> maxPitch this = Fin hi -> lo <= hi ->
  exists p,
    getPitch (setPitch (Fin degrees) this) = Fin p
    /\ lo <= p /\ p <= hi
    /\ (lo <= degrees -> degrees <= hi -> p == degrees)
    /\ (hi <= degrees -> p == hi)
    /\ (degrees <= lo -> p == lo).
Proof.
  intros Hlo Hhi Hle. unfold getPitch, setPitch. cbn [pitch set_pitch].
  rewrite Hlo, Hhi.
  destruct (clamp_fin lo hi degrees) as (c & -> & H1 & H2 & H3 & H4 & H5).
  exists c. split; [reflexivity|]. split; [exact H1|]. split; [auto|].
  split; [exact H3|]. split; [|exact H5]. intros Hd. apply H4; assumption.
Qed.

(** X12: with finite zoom limits [minZoom <= maxZoom], a finite distance
    and a finite zoom speed, a wheel event aims at the distance plus the
    zoom speed when [deltaY > 0] and at the distance minus the zoom speed
    otherwise (also for a [deltaY] of 0 or NaN).  The new distance is the
    one aimed at when that lies between the limits, [maxZoom] when it is at
    or above [maxZoom], and [minZoom] when it is at or below [minZoom]; so it
    lies between the limits, whatever the distance was. *)
Theorem onMouseWheel_within_limits (this : RTSCameraController)
    (lo hi d z : Q) (deltaY : number) :
  minZoom this = Fin lo -> maxZoom this = Fin hi -> lo <= hi ->
  distance this = Fin d -> zoomSpeed this = Fin z ->
  exists d',
    distance (onMouseWheel deltaY this) = Fin d'
    /\ lo <= d' /\ d' <= hi
    /\ ((deltaY >? Fin 0)%js = true ->
        (lo <= d + z -> d + z <= hi -> d' == d + z)
        /\ (hi <= d + z -> d' == hi)
        /\ (d + z <= lo -> d' == lo))
    /\ ((deltaY >? Fin 0)%js = false ->
        (lo <= d - z -> d - z <= hi -> d' == d - z)
        /\ (hi <= d - z -> d' == hi)
        /\ (d - z <= lo -> d' == lo)).
Proof.
  intros Hlo Hhi Hle Hd Hz. unfold onMouseWheel.
  cbn [distance set_distance]. rewrite Hlo, Hhi, Hd, Hz.
  destruct (deltaY >? Fin 0)%js.
  - change (Fin d + Fin 1 * Fin z)%js with (Fin (d + 1 * z)).
    destruct (clamp_fin lo hi (d + 1 * z))
      as (c & -> & H1 & H2 & H3 & H4 & H5).
    exists c. split; [reflexivity|]. split; [exact H1|].
    split; [auto|]. split; [|discriminate].
    intros _. split; [|split].
    + intros Ha Hb. rewrite H3; lra.
    + intros Ha. apply H4; lra.
    + intros Ha. apply H5; lra.
  - change (Fin d + Fin (-1) * Fin z)%js with (Fin (d + -1 * z)).
    destruct (clamp_fin lo hi (d + -1 * z))
      as (c & -> & H1 & H2 & H3 & H4 & H5).
    exists c. split; [reflexivity|]. split; [exact H1|].
    split; [auto|]. split; [discriminate|].
    intros _. split; [|split].
    + intros Ha Hb. rewrite H3; lra.
    + intros Ha. apply H4; lra.
    + intros Ha. apply H5; lra.
Qed.

(** X13: [setZoom] saturates.  A value of 1 or above acts as 1 and a value
    of 0 or below acts as 0.  With finite zoom limits
    [minZoom <= maxZoom], a value of 1 or above gives the distance
    [minZoom], and every finite value gives a distance from [minZoom] up to
    the distance that [setZoom(0)] gives.  [setZoom(NaN)] makes the distance
    NaN. *)
Theorem setZoom_saturates (this : RTSCameraController) (lo hi v : Q) :
  minZoom this = Fin lo -> maxZoom this = Fin hi -> lo <= hi ->
  (1 <= v -> setZoom (Fin v) this = setZoom (Fin 1) this)
  /\ (v <= 0 -> setZoom (Fin v) this = setZoom (Fin 0) this)
  /\ (exists d d0,
        distance (setZoom (Fin v) this) = Fin d
        /\ distance (setZoom (Fin 0) this) = Fin d0
        /\ lo <= d /\ d <= d0
        /\ (1 <= v -> d == lo))
  /\ distance (setZoom NaN this) = NaN.
Proof.
  intros Hlo Hhi Hle.
  assert (Hone : 1 <= v ->
            Num.max (Fin 0) (Num.min (Fin 1) (Fin v)) = Fin 1).
  { intros Hv. unfold Num.min.
    replace (Fin v <? Fin 1)%js with false
      by (symmetry; apply lt_fin_false; exact Hv).
    reflexivity. }
  assert (Hzero : v <= 0 ->
            Num.max (Fin 0) (Num.min (Fin 1) (Fin v)) = Fin 0).
  { intros Hv. unfold Num.min.
    replace (Fin v <? Fin 1)%js with true
      by (symmetry; apply lt_fin; lra).
    unfold Num.max.
    replace (Fin 0 <? Fin v)%js with false
      by (symmetry; apply lt_fin_false; exact Hv).
    reflexivity. }
  split; [|split; [|split]].
  - intros Hv. unfold setZoom. now rewrite (Hone Hv).
  - intros Hv. unfold setZoom. now rewrite (Hzero Hv).
  - unfold setZoom. cbn [distance set_distance]. rewrite Hlo, Hhi.
    destruct (clamp_fin 0 1 v) as (c & -> & H1 & H2 & H3 & H4 & H5).
    exists (lo + (hi - lo) * (1 - c)), (lo + (hi - lo) * (1 - 0)).
    split; [reflexivity|]. split; [reflexivity|].
    assert (Hc1 : c <= 1) by (apply H2; lra).
    split; [nra|]. split; [nra|].
    intros Hv. rewrite (H4 Hv) by lra. ring.
  - unfold setZoom. cbn [distance set_distance]. rewrite Hlo, Hhi.
    reflexivity.
Qed.

(** X14: with finite zoom limits [minZoom < maxZoom] and a finite
    distance, [getZoom] returns a finite value that falls as the distance
    grows past the limits: it is 1 at [minZoom] and 0 at [maxZoom], lies in
    [0, 1] for a distance between the limits, is at least 1 for a distance
    at or below [minZoom] and at most 0 for one at or above [maxZoom]. *)
Theorem getZoom_range (this : RTSCameraController) (lo hi d : Q) :
  minZoom this = Fin lo -> maxZoom this = Fin hi -> lo < hi ->
  distance this = Fin d ->
  exists z,
    getZoom this = Fin z
    /\ (lo <= d -> d <= hi -> 0 <= z /\ z <= 1)
    /\ (d <= lo -> 1 <= z)
    /\ (hi <= d -> z <= 0)
    /\ (d == lo -> z == 1)
    /\ (d == hi -> z == 0).
Proof.
  intros Hlo Hhi Hlt Hd. unfold getZoom. rewrite Hlo, Hhi, Hd.
  change (Fin hi - Fin lo)%js with (Fin (hi - lo)).
  change (Fin d - Fin lo)%js with (Fin (d - lo)).
  rewrite div_fin_nonzero by lra.
  exists (1 - (d - lo) / (hi - lo)). split; [reflexivity|].
  set (t := (d - lo) / (hi - lo)).
  assert (Ht : t * (hi - lo) == d - lo) by (unfold t; field; lra).
  split; [|split; [|split; [|split]]].
  - intros H1 H2. split; nra.
  - intros H. nra.
  - intros H. nra.
  - intros H. rewrite H in Ht. nra.
  - intros H. rewrite H in Ht. nra.
Qed.

(** X15: when the two zoom limits are equal, [getZoom] divides by zero:
    for a finite distance its result is never a finite number. *)
Theorem getZoom_equal_limits (this : RTSCameraController) (lo hi d r : Q) :
  minZoom this = Fin lo -> maxZoom this = Fin hi -> lo == hi ->
  distance this = Fin d ->
  getZoom this <> Fin r.
Proof.
  intros Hlo Hhi Heq Hd. unfold getZoom. rewrite Hlo, Hhi, Hd.
  change (Fin hi - Fin lo)%js with (Fin (hi - lo)).
  change (Fin d - Fin lo)%js with (Fin (d - lo)).
  simpl Num.div. rewrite (Qeq_eq_bool (hi - lo) 0) by lra.
  destruct (d - lo ?= 0); discriminate.
Qed.

(** X16: with new finite zoom limits [lo < hi], [setConstraints] leaves the
    distance and the pitch as they are instead of clamping them: a distance
    below the new lower limit stays below it, and [getZoom] then returns a
    value of at least 1. *)
Theorem setConstraints_keeps_distance (options : Constraints)
    (this : RTSCameraController) (lo hi d : Q) :
  default (minZoom this) (opt_minZoom options) = Fin lo ->
  default (maxZoom this) (opt_maxZoom options) = Fin hi ->
  distance this = Fin d -> lo < hi -> d < lo ->
  distance (setConstraints options this) = Fin d
  /\ minZoom (setConstraints options this) = Fin lo
  /\ pitch (setConstraints options this) = pitch this
  /\ exists z, getZoom (setConstraints options this) = Fin z /\ 1 <= z.
Proof.
  intros Hlo Hhi Hd Hlt Hbelow.
  split; [exact Hd|]. split; [exact Hlo|]. split; [reflexivity|].
  unfold getZoom, setConstraints.
  cbn [distance minZoom maxZoom set_pitch_limits set_zoom_limits].
  rewrite Hlo, Hhi, Hd.
  change (Fin hi - Fin lo)%js with (Fin (hi - lo)).
  change (Fin d - Fin lo)%js with (Fin (d - lo)).
  rewrite div_fin_nonzero by lra.
  exists (1 - (d - lo) / (hi - lo)). split; [reflexivity|].
  set (t := (d - lo) / (hi - lo)).
  assert (Ht : t * (hi - lo) == d - lo) by (unfold t; field; lra).
  nra.
Qed.

(** X17: releasing a key undoes pressing it: when two key names have the
    same lower-case form and that form was not held, [onKeyDown] with one
    followed by [onKeyUp] with the other gives back the state before; and
    pressing a key that is already held changes nothing. *)
Theorem key_release_undoes_press (toLowerCase : string -> string)
    (k1 k2 : string) (this : RTSCameraController) :
  toLowerCase k1 = toLowerCase k2 ->
  toLowerCase k1 ∉ keysPressed this ->
  onKeyUp toLowerCase k2 (onKeyDown toLowerCase k1 this) = this
  /\ onKeyDown toLowerCase k2 (onKeyDown toLowerCase k1 this)
     = onKeyDown toLowerCase k1 this.
Proof.
  intros Hk Hfree. unfold onKeyUp, onKeyDown, set_keysPressed.
  destruct this as [cam tgt ps zs rs lo hi plo phi d p y keys md mx my].
  cbn in *. rewrite <- Hk.
  assert (E1 : ({[toLowerCase k1]} ∪ keys) ∖ {[toLowerCase k1]} = keys).
  { apply set_eq. intros x.
    rewrite elem_of_difference, elem_of_union, !elem_of_singleton.
    split; [tauto|]. intros Hx. split; [tauto|]. now intros ->. }
  assert (E2 : {[toLowerCase k1]} ∪ ({[toLowerCase k1]} ∪ keys)
               = {[toLowerCase k1]} ∪ keys).
  { apply set_eq. intros x. rewrite !elem_of_union. tauto. }
  now rewrite E1, E2.
Qed.

(** ** Keyboard polling *)

Lemma when_pressed_preserves (P : RTSCameraController -> Prop) (key : string)
    (action : RTSCameraController -> RTSCameraController) :
  (forall s, P s -> P (action s)) ->
  forall s, P s -> P (when_pressed key action s).
Proof.
  intros Haction s Hs. unfold when_pressed.
  destruct (decide (key ∈ keysPressed s)); auto.
Qed.

Lemma when_pressed_frame {B : Type} (proj : RTSCameraController -> B)
    (key : string) (action : RTSCameraController -> RTSCameraController)
    (s : RTSCameraController) :
  (forall s', proj (action s') = proj s') ->
  proj (when_pressed key action s) = proj s.
Proof.
  intros Haction. unfold when_pressed.
  destruct (decide (key ∈ keysPressed s)); auto.
Qed.

Lemma when_pressed_idle (key : string)
    (action : RTSCameraController -> RTSCameraController)
    (s : RTSCameraController) :
  key ∉ keysPressed s -> when_pressed key action s = s.
Proof.
  intros H. unfold when_pressed.
  destruct (decide (key ∈ keysPressed s)); [contradiction|reflexivity].
Qed.

Lemma set_target_same (s : RTSCameraController) : set_target (target s) s = s.
Proof. destruct s; reflexivity. Qed.

(** A movement key: the target is moved when the key is held. *)
Lemma when_pressed_move (key : string) (v : Vector3) (m : number)
    (s : RTSCameraController) :
  when_pressed key
    (fun s' => set_target (addScaledVector v m (target s')) s') s
  = set_target
      (if decide (key ∈ keysPressed s)
       then addScaledVector v m (target s) else target s) s.
Proof.
  unfold when_pressed. destruct (decide (key ∈ keysPressed s));
    [reflexivity | now rewrite set_target_same].
Qed.

Section KeyboardFacts.

Variable Math_sin : Q -> Q.
Variable Math_cos : Q -> Q.
Variable normalize : Vector3 -> Vector3.

(** X18: when none of the keys W, S, A, D, Q, E, Z, X is held,
    [handleKeyboardInput] leaves the whole state as it is (other held keys
    are ignored), and [update] only recomputes the camera pose. *)
Theorem handleKeyboardInput_no_keys (this : RTSCameraController) :
  Forall (fun k => k ∉ keysPressed this) bound_keys ->
  handleKeyboardInput Math_sin Math_cos normalize this = this
  /\ update Math_sin Math_cos normalize this
     = updateCameraPosition Math_sin Math_cos this.
Proof.
  intros H. unfold bound_keys in H.
  repeat match goal with
         | H : Forall _ (_ :: _) |- _ =>
             apply Forall_cons in H; destruct H as [? H]
         end.
  assert (E : handleKeyboardInput Math_sin Math_cos normalize this = this).
  { unfold handleKeyboardInput. cbv zeta.
    rewrite (when_pressed_idle "w") by assumption.
    rewrite (when_pressed_idle "s") by assumption.
    rewrite (when_pressed_idle "a") by assumption.
    rewrite (when_pressed_idle "d") by assumption.
    rewrite (when_pressed_idle "q") by assumption.
    rewrite (when_pressed_idle "e") by assumption.
    rewrite (when_pressed_idle "z") by assumption.
    rewrite (when_pressed_idle "x") by assumption.
    reflexivity. }
  split; [exact E|]. unfold update. now rewrite E.
Qed.

(** X19: with finite zoom limits, a zoom speed that is not negative and a
    finite distance between the limits, [handleKeyboardInput] leaves the
    distance between the limits, whichever keys are held. *)
Theorem handleKeyboardInput_distance_within (this : RTSCameraController)
    (lo hi z d : Q) :
  minZoom this = Fin lo -> maxZoom this = Fin hi ->
  zoomSpeed this = Fin z -> 0 <= z ->
  distance this = Fin d -> lo <= d -> d <= hi ->
  exists d',
    distance (handleKeyboardInput Math_sin Math_cos normalize this) = Fin d'
    /\ lo <= d' /\ d' <= hi.
Proof.
  intros Hlo Hhi Hz Hz0 Hd Hd1 Hd2.
  set (P := fun s : RTSCameraController =>
              minZoom s = Fin lo /\ maxZoom s = Fin hi /\ zoomSpeed s = Fin z
              /\ exists d', distance s = Fin d' /\ lo <= d' /\ d' <= hi).
  assert (HP : P (handleKeyboardInput Math_sin Math_cos normalize this)).
  { unfold handleKeyboardInput. cbv zeta.
    apply when_pressed_preserves.
    { intros s (H1 & H2 & H3 & d' & H4 & H5 & H6). unfold P.
      cbn [minZoom maxZoom zoomSpeed distance set_distance].
      rewrite H2, H3, H4.
      change (Fin d' + Fin z)%js with (Fin (d' + z)).
      destruct (min_fin_spec hi (d' + z)) as (m & -> & Hm1 & Hm2 & Hm).
      repeat (split; [assumption || reflexivity|]).
      exists m. split; [reflexivity|].
      destruct Hm as [-> | ->]; split; lra. }
    apply when_pressed_preserves.
    { intros s (H1 & H2 & H3 & d' & H4 & H5 & H6). unfold P.
      cbn [minZoom maxZoom zoomSpeed distance set_distance].
      rewrite H1, H3, H4.
      change (Fin d' - Fin z)%js with (Fin (d' - z)).
      destruct (max_fin_spec lo (d' - z)) as (m & -> & Hm1 & Hm2 & Hm).
      repeat (split; [assumption || reflexivity|]).
      exists m. split; [reflexivity|].
      destruct Hm as [-> | ->]; split; lra. }
    do 6 (apply when_pressed_preserves; [intros s Hs; exact Hs|]).
    unfold P. repeat (split; [assumption|]). exists d. auto. }
  destruct HP as (_ & _ & _ & d' & H). exists d'. exact H.
Qed.

(** X20: opposite movement keys cancel.  With a finite target, finite
    [forward] and [right] vectors and a finite pan speed, when W is held
    exactly if S is and A exactly if D is, [handleKeyboardInput] leaves the
    target where it was. *)
Theorem opposite_move_keys_cancel (this : RTSCameraController)
    (tx ty tz fx fy fz rx ry rz speed : Q) :
  target this = vec3 (Fin tx) (Fin ty) (Fin tz) ->
  forward_vector Math_sin Math_cos normalize this
    = vec3 (Fin fx) (Fin fy) (Fin fz) ->
  right_vector Math_sin Math_cos normalize this
    = vec3 (Fin rx) (Fin ry) (Fin rz) ->
  panSpeed this = Fin speed ->
  ("w" ∈ keysPressed this <-> "s" ∈ keysPressed this) ->
  ("a" ∈ keysPressed this <-> "d" ∈ keysPressed this) ->
  vec_eqv (target (handleKeyboardInput Math_sin Math_cos normalize this))
    (target this).
Proof.
  intros Ht Hf Hr Hs Hws Had. unfold handleKeyboardInput. cbv zeta.
  do 4 (rewrite (when_pressed_frame target) by reflexivity).
  rewrite !when_pressed_move. cbn [target keysPressed set_target].
  rewrite Ht, Hf, Hr, Hs.
  destruct (decide ("w" ∈ keysPressed this)) as [Hw|Hw],
           (decide ("s" ∈ keysPressed this)) as [Hs'|Hs'];
    try tauto;
    destruct (decide ("a" ∈ keysPressed this)) as [Ha|Ha],
             (decide ("d" ∈ keysPressed this)) as [Hd|Hd];
    try tauto;
    unfold vec_eqv; cbn; repeat split; ring.
Qed.

(** X21: opposite rotation keys cancel.  With a finite yaw and rotation
    speed, when Q is held exactly if E is, [handleKeyboardInput] leaves the
    yaw as it was. *)
Theorem opposite_rotation_keys_cancel (this : RTSCameraController)
    (y r : Q) :
  yaw this = Fin y -> rotationSpeed this = Fin r ->
  ("q" ∈ keysPressed this <-> "e" ∈ keysPressed this) ->
  Num.eqv (yaw (handleKeyboardInput Math_sin Math_cos normalize this))
    (yaw this).
Proof.
  intros Hy Hr Hqe. unfold handleKeyboardInput. cbv zeta.
  do 2 (rewrite (when_pressed_frame yaw) by reflexivity).
  match goal with
  | |- context [when_pressed "q" _ ?s] => set (s4 := s)
  end.
  assert (K4 : keysPressed s4 = keysPressed this)
    by (unfold s4; now rewrite !(when_pressed_frame keysPressed)).
  assert (Y4 : yaw s4 = Fin y)
    by (unfold s4; now rewrite !(when_pressed_frame yaw)).
  assert (R4 : rotationSpeed s4 = Fin r)
    by (unfold s4; now rewrite !(when_pressed_frame rotationSpeed)).
  clearbody s4. unfold when_pressed.
  destruct (decide ("q" ∈ keysPressed s4)) as [Hq|Hq];
    cbn [keysPressed set_yaw];
    destruct (decide ("e" ∈ keysPressed s4)) as [He|He];
    rewrite K4 in Hq, He; try tauto;
    cbn [yaw set_yaw rotationSpeed]; rewrite ?Y4, ?R4, Hy; cbn; ring.
Qed.

End KeyboardFacts.

(** ** Pointer handling *)

Section PointerFacts.

Variable Math_sin : Q -> Q.
Variable Math_cos : Q -> Q.
Variable normalize : Vector3 -> Vector3.

(** X22: a mouse move while no button was pressed on the element, or with
    a button state that is neither exactly the right button (2), nor exactly
    the middle button (4), nor exactly the left button (1) with Shift, only
    records the pointer position: target, distance, pitch and yaw stay as
    they are. *)
Theorem onMouseMove_idle (event : MouseEvent) (this : RTSCameraController) :
  mouseDown this = false
  \/ (buttons event <> 2%N /\ buttons event <> 4%N
      /\ (buttons event = 1%N -> shiftKey event = false)) ->
  onMouseMove Math_sin Math_cos normalize event this
  = set_mouse (mouseDown this) (clientX event) (clientY event) this.
Proof.
  intros H. unfold onMouseMove. cbv zeta.
  destruct (mouseDown this) eqn:Hdown; [|now rewrite Hdown].
  destruct H as [H | (H2 & H4 & H1)]; [discriminate|].
  apply N.eqb_neq in H2, H4. rewrite H2, H4. cbn [orb].
  destruct (N.eqb_spec (buttons event) 1) as [E|_];
    [rewrite (H1 E)|]; cbn [andb]; now rewrite Hdown.
Qed.

(** X23: a mouse move with exactly the right button held, after a button
    press on the element, turns the rig.  With finite values and pitch
    limits [minPitch <= maxPitch], the yaw decreases by the horizontal
    movement times the rotation speed; the pitch aimed at is the old one
    plus the vertical movement times the rotation speed, and the new pitch
    is that value when it lies between the limits, [maxPitch] when it is at
    or above [maxPitch] and [minPitch] when it is at or below [minPitch];
    the target and the distance stay as they are, and the pointer position
    is recorded. *)
Theorem onMouseMove_rotates (event : MouseEvent)
    (this : RTSCameraController) (cx cy lx ly y p r lo hi : Q) :
  mouseDown this = true -> buttons event = 2%N ->
  clientX event = Fin cx -> clientY event = Fin cy ->
  lastMouseX this = Fin lx -> lastMouseY this = Fin ly ->
  yaw this = Fin y -> pitch this = Fin p -> rotationSpeed this = Fin r ->
  minPitch this = Fin lo -> maxPitch this = Fin hi -> lo <= hi ->
  let this' := onMouseMove Math_sin Math_cos normalize event this in
  yaw this' = Fin (y - (cx - lx) * r)
  /\ (exists p',
        pitch this' = Fin p' /\ lo <= p' /\ p' <= hi
        /\ (lo <= p + (cy - ly) * r -> p + (cy - ly) * r <= hi ->
            p' == p + (cy - ly) * r)
        /\ (hi <= p + (cy - ly) * r -> p' == hi)
        /\ (p + (cy - ly) * r <= lo -> p' == lo))
  /\ target this' = target this
  /\ distance this' = distance this
  /\ lastMouseX this' = Fin cx /\ lastMouseY this' = Fin cy
  /\ mouseDown this' = true.
Proof.
  intros Hdown Hb Hcx Hcy Hlx Hly Hy Hp Hr Hlo Hhi Hle this'.
  unfold this', onMouseMove. rewrite Hdown, Hb. cbn [N.eqb Pos.eqb].
  cbn [yaw pitch target distance lastMouseX lastMouseY mouseDown
       rotationSpeed minPitch maxPitch set_mouse set_pitch set_yaw].
  rewrite Hcx, Hcy, Hlx, Hly, Hy, Hp, Hr, Hlo, Hhi.
  change (Fin p + (Fin cy - Fin ly) * Fin r)%js
    with (Fin (p + (cy - ly) * r)).
  destruct (clamp_fin lo hi (p + (cy - ly) * r))
    as (c & -> & H1 & H2 & H3 & H4 & H5).
  split; [reflexivity|]. split.
  - exists c. split; [reflexivity|]. split; [exact H1|]. split; [auto|].
    split; [exact H3|]. split; [|exact H5].
    intros Ha. apply H4; assumption.
  - repeat (split; [reflexivity|]). exact Hdown.
Qed.

(** X26: panning is reversible.  With a finite target, distance and pan
    speed and finite [forward] and [right] vectors, [panByPixels] by a
    movement followed by [panByPixels] by the opposite movement brings the
    target back; distance, pitch and yaw are never touched. *)
Theorem panByPixels_reversible (this : RTSCameraController)
    (dx dy tx ty tz fx fy fz rx ry rz d speed : Q) :
  target this = vec3 (Fin tx) (Fin ty) (Fin tz) ->
  forward_vector Math_sin Math_cos normalize this
    = vec3 (Fin fx) (Fin fy) (Fin fz) ->
  right_vector Math_sin Math_cos normalize this
    = vec3 (Fin rx) (Fin ry) (Fin rz) ->
  distance this = Fin d -> panSpeed this = Fin speed ->
  let there :=
    panByPixels Math_sin Math_cos normalize (Fin dx) (Fin dy) this in
  let back :=
    panByPixels Math_sin Math_cos normalize (Fin (- dx)) (Fin (- dy)) there in
  vec_eqv (target back) (target this)
  /\ distance back = distance this
  /\ pitch back = pitch this
  /\ yaw back = yaw this.
Proof.
  intros Ht Hf Hr Hd Hs there back.
  split; [|repeat split].
  unfold back, there, panByPixels, forward_vector, right_vector in *.
  cbn [target distance panSpeed yaw set_target].
  rewrite Ht, Hf, Hr, Hd, Hs.
  rewrite !(div_fin_nonzero d 100) by lra.
  unfold vec_eqv, addScaledVector.
  cbn [vx vy vz vec3 Num.add Num.mul Num.neg Num.eqv].
  repeat split; ring.
Qed.

Lemma updateCameraPosition_lookAt (s : RTSCameraController) :
  camera_lookAt (camera (updateCameraPosition Math_sin Math_cos s)) = target s.
Proof. reflexivity. Qed.

Lemma updateCameraPosition_target (s : RTSCameraController) :
  target (updateCameraPosition Math_sin Math_cos s) = target s.
Proof. reflexivity. Qed.

(** X24: no setter, no input handler and no keyboard poll moves the camera:
    its position and orientation change in [update], [reset] and the
    constructor only, where they are recomputed from the target, the
    distance, the pitch and the yaw; recomputing them twice changes nothing
    more. *)
Theorem camera_pose_deferred (toLowerCase : string -> string)
    (this : RTSCameraController) (n : number) (v : Vector3) (key : string)
    (event : MouseEvent) (constraints : Constraints) (speeds : Speeds) :
  camera (setZoom n this) = camera this
  /\ camera (setPitch n this) = camera this
  /\ camera (setYaw n this) = camera this
  /\ camera (setTarget v this) = camera this
  /\ camera (setConstraints constraints this) = camera this
  /\ camera (setSpeeds speeds this) = camera this
  /\ camera (onKeyDown toLowerCase key this) = camera this
  /\ camera (onKeyUp toLowerCase key this) = camera this
  /\ camera (onMouseWheel n this) = camera this
  /\ camera (onMouseDown event this) = camera this
  /\ camera (onMouseUp this) = camera this
  /\ camera (onMouseMove Math_sin Math_cos normalize event this) = camera this
  /\ camera (handleKeyboardInput Math_sin Math_cos normalize this)
     = camera this
  /\ camera_lookAt (camera (update Math_sin Math_cos normalize this))
     = target (update Math_sin Math_cos normalize this)
  /\ updateCameraPosition Math_sin Math_cos
       (updateCameraPosition Math_sin Math_cos this)
     = updateCameraPosition Math_sin Math_cos this.
Proof.
  do 11 (split; [reflexivity|]).
  split; [|split; [|split]].
  - unfold onMouseMove. destruct (mouseDown this); [|reflexivity].
    destruct (buttons event =? 2)%N; [reflexivity|].
    destruct (_ || _)%bool; reflexivity.
  - unfold handleKeyboardInput. cbv zeta.
    now rewrite !(when_pressed_frame camera).
  - unfold update.
    now rewrite updateCameraPosition_lookAt, updateCameraPosition_target.
  - reflexivity.
Qed.

End PointerFacts.

(** ** Event listeners *)

Lemma same_listener_fresh (type : string) (n m : nat) (l : Listener) :
  (closure l < n)%nat -> (n <= m)%nat -> same_listener type m l = false.
Proof.
  intros Hl Hm. unfold same_listener.
  replace (closure l =? m)%nat with false
    by (symmetry; apply Nat.eqb_neq; lia).
  apply andb_false_r.
Qed.

Lemma removeEventListener_fresh (type : string) (n m : nat)
    (ls : list Listener) :
  Forall (fun l => (closure l < n)%nat) ls -> (n <= m)%nat ->
  removeEventListener type m ls = ls.
Proof.
  intros Hls Hm. unfold removeEventListener.
  induction Hls as [|l ls Hl Hls IH]; [reflexivity|].
  cbn [List.filter]. rewrite (same_listener_fresh type n m l Hl Hm).
  cbn [negb]. now rewrite IH.
Qed.

Lemma addEventListener_fresh (type : string) (n : nat) (h : Handler)
    (ls : list Listener) :
  Forall (fun l => (closure l < n)%nat) ls ->
  addEventListener type n h ls
  = ls ++ [ {| event_type := type; closure := n; handler := h |} ].
Proof.
  intros Hls. unfold addEventListener.
  replace (existsb (same_listener type n) ls) with false; [reflexivity|].
  symmetry. induction Hls as [|l ls Hl Hls IH]; [reflexivity|].
  cbn [existsb].
  now rewrite (same_listener_fresh type n n l Hl (Nat.le_refl n)), IH.
Qed.

Lemma Forall_closure_snoc (n : nat) (l : Listener) (ls : list Listener) :
  Forall (fun l' => (closure l' < n)%nat) ls -> closure l = n ->
  Forall (fun l' => (closure l' < S n)%nat) (ls ++ [l]).
Proof.
  intros Hls Hl. apply Forall_app. split.
  - eapply Forall_impl; [exact Hls|]. intros l' H. simpl in H. lia.
  - constructor; [lia|constructor].
Qed.

Lemma Forall_closure_S (n : nat) (ls : list Listener) :
  Forall (fun l' => (closure l' < n)%nat) ls ->
  Forall (fun l' => (closure l' < S n)%nat) ls.
Proof.
  intros Hls. eapply Forall_impl; [exact Hls|]. intros l' H. simpl in H. lia.
Qed.

Lemma listen_document_fresh (type : string) (h : Handler) (host : Host) :
  closures_below host ->
  closures_below (listen_document type h host)
  /\ listen_document type h host
     = {| document_listeners :=
            document_listeners host
            ++ [ {| event_type := type; closure := next_closure host;
                    handler := h |} ];
          element_listeners := element_listeners host;
          next_closure := S (next_closure host) |}.
Proof.
  intros [Hd He]. unfold listen_document.
  rewrite (addEventListener_fresh _ _ _ _ Hd). split; [|reflexivity].
  split; cbn.
  - apply Forall_closure_snoc; [exact Hd | reflexivity].
  - apply Forall_closure_S. exact He.
Qed.

Lemma listen_element_fresh (type : string) (h : Handler) (host : Host) :
  closures_below host ->
  closures_below (listen_element type h host)
  /\ listen_element type h host
     = {| document_listeners := document_listeners host;
          element_listeners :=
            element_listeners host
            ++ [ {| event_type := type; closure := next_closure host;
                    handler := h |} ];
          next_closure := S (next_closure host) |}.
Proof.
  intros [Hd He]. unfold listen_element.
  rewrite (addEventListener_fresh _ _ _ _ He). split; [|reflexivity].
  split; cbn.
  - apply Forall_closure_S. exact Hd.
  - apply Forall_closure_snoc; [exact He | reflexivity].
Qed.

Lemma dispose_fresh (host : Host) :
  closures_below host ->
  document_listeners (dispose host) = document_listeners host
  /\ element_listeners (dispose host) = element_listeners host.
Proof.
  intros [Hd He]. unfold dispose, unlisten_element, unlisten_document.
  cbn [document_listeners element_listeners next_closure].
  rewrite (removeEventListener_fresh "keydown" _ _ _ Hd) by lia.
  rewrite (removeEventListener_fresh "keyup" _ _ _ Hd) by lia.
  rewrite (removeEventListener_fresh "mousedown" _ _ _ He) by lia.
  rewrite (removeEventListener_fresh "mousemove" _ _ _ He) by lia.
  rewrite (removeEventListener_fresh "mouseup" _ _ _ He) by lia.
  rewrite (removeEventListener_fresh "wheel" _ _ _ He) by lia.
  split; reflexivity.
Qed.

(** X25: [dispose] detaches nothing.  On a host whose registered callbacks
    were all created earlier, every [removeEventListener] of [dispose] is
    given a new function object, so both listener lists stay as they are; in
    particular the seven listeners that [setupEventListeners] registers (two
    on the document, five on the element) are all still registered after
    [dispose]. *)
Theorem dispose_detaches_nothing (host : Host) :
  closures_below host ->
  let n := next_closure host in
  let listener := fun type id h =>
    {| event_type := type; closure := id; handler := h |} in
  document_listeners (dispose host) = document_listeners host
  /\ element_listeners (dispose host) = element_listeners host
  /\ document_listeners (dispose (setupEventListeners host))
     = document_listeners host
       ++ [listener "keydown" n OnKeyDown; listener "keyup" (S n) OnKeyUp]
  /\ element_listeners (dispose (setupEventListeners host))
     = element_listeners host
       ++ [listener "mousedown" (2 + n)%nat OnMouseDown;
           listener "mousemove" (3 + n)%nat OnMouseMove;
           listener "mouseup" (4 + n)%nat OnMouseUp;
           listener "wheel" (5 + n)%nat OnMouseWheel;
           listener "contextmenu" (6 + n)%nat PreventDefault].
Proof.
  intros H n listener.
  destruct (dispose_fresh host H) as [D1 D2].
  split; [exact D1|]. split; [exact D2|].
  unfold setupEventListeners.
  destruct (listen_document_fresh "keydown" OnKeyDown host H) as [H1 E1].
  destruct (listen_document_fresh "keyup" OnKeyUp _ H1) as [H2 E2].
  destruct (listen_element_fresh "mousedown" OnMouseDown _ H2) as [H3 E3].
  destruct (listen_element_fresh "mousemove" OnMouseMove _ H3) as [H4 E4].
  destruct (listen_element_fresh "mouseup" OnMouseUp _ H4) as [H5 E5].
  destruct (listen_element_fresh "wheel" OnMouseWheel _ H5) as [H6 E6].
  destruct (listen_element_fresh "contextmenu" PreventDefault _ H6)
    as [H7 E7].
  destruct (dispose_fresh _ H7) as [-> ->].
  rewrite E7. cbn [document_listeners element_listeners next_closure].
  rewrite E6. cbn [document_listeners element_listeners next_closure].
  rewrite E5. cbn [document_listeners element_listeners next_closure].
  rewrite E4. cbn [document_listeners element_listeners next_closure].
  rewrite E3. cbn [document_listeners element_listeners next_closure].
  rewrite E2. cbn [document_listeners element_listeners next_closure].
  rewrite E1. cbn [document_listeners element_listeners next_closure].
  rewrite <- !app_assoc. split; reflexivity.
Qed.

(** ** The further properties on concrete inputs *)

Lemma createTerrain_keeps_plane_witness :
  (0 mod 3 <> 2)%nat
  /\ positions (createTerrain sample_sin corner_PlaneGeometry sample_fround
                  default_terrainConfig) !! 0%nat
     = corner_PlaneGeometry (Fin 100) (Fin 100) (Fin 64) (Fin 64) !! 0%nat
  /\ terrainVertices (getStats sample_generator)
     = (Num.of_nat 12 / Fin 3)%js.
Proof.
  assert (H0 : (0 mod 3 <> 2)%nat) by (cbn; lia).
  destruct (createTerrain_keeps_plane sample_sin corner_PlaneGeometry
              sample_fround default_terrainConfig sample_generator)
    as (_ & Hp & Hv).
  split; [exact H0|]. split; [exact (Hp 0%nat H0) | exact (Hv eq_refl)].
Defined.

Lemma generate_frame_witness :
  exists this' scene,
    generate sample_sin halfplane_intersectObject 3 None small_generator
    = Some (this', scene)
    /\ terrain this' = terrain small_generator
    /\ terrainVertices (getStats this')
       = terrainVertices (getStats small_generator).
Proof.
  assert (E : exists r,
            generate sample_sin halfplane_intersectObject 3 None
              small_generator = Some r)
    by (vm_compute; eexists; reflexivity).
  destruct E as [[this' scene] E]. exists this', scene.
  destruct (generate_frame sample_sin halfplane_intersectObject 3 None
              small_generator this' scene E)
    as (Ht & _ & _ & _ & _ & Hv & _).
  auto.
Defined.

Lemma terrain_matches_config_witness :
  exists this' scene,
    generate sample_sin halfplane_intersectObject 3 None small_generator
    = Some (this', scene)
    /\ terrain this'
       = createTerrain sample_sin corner_PlaneGeometry sample_fround (config
           this').
Proof.
  assert (E : exists r,
            generate sample_sin halfplane_intersectObject 3 None
              small_generator = Some r)
    by (vm_compute; eexists; reflexivity).
  destruct E as [[this' scene] E]. exists this', scene.
  destruct (terrain_matches_config sample_sin corner_PlaneGeometry sample_fround
              halfplane_intersectObject (Some small_terrainConfig) None 3
              (Fin 0.5) None None small_generator) as (H0 & Hgen & _).
  split; [exact E|]. exact (Hgen this' scene H0 E).
Defined.

Lemma regenerate_repeatable_witness :
  exists this1 scene1,
    regenerate sample_sin corner_PlaneGeometry sample_fround
      halfplane_intersectObject 3 (Fin 0.5) (Some (Fin 4)) small_generator
    = Some (this1, scene1)
    /\ length (trees this1) = 1%nat
    /\ regenerate sample_sin corner_PlaneGeometry sample_fround
         halfplane_intersectObject 3 (Fin 0.5) (Some (Fin 4)) this1
       = Some (this1, scene1).
Proof.
  assert (E : exists r,
            regenerate sample_sin corner_PlaneGeometry sample_fround
              halfplane_intersectObject 3 (Fin 0.5) (Some (Fin 4))
              small_generator = Some r
            /\ length (trees r.1) = 1%nat)
    by (vm_compute; eexists; split; reflexivity).
  destruct E as [[this1 scene1] [E Hlen]]. exists this1, scene1.
  split; [exact E|]. split; [exact Hlen|].
  destruct (regenerate_repeatable sample_sin corner_PlaneGeometry
              sample_fround halfplane_intersectObject 3 (Fin 0.5) (Fin 4)
              small_generator this1 scene1 E) as [H _].
  exact H.
Defined.

Lemma anchors_inside_region_witness :
  0 < 0.1 /\ (grid_count 4 0.1 < 5)%nat
  /\ exists ps,
       generateTreePositions sample_sin halfplane_intersectObject 5
         (terrain small_generator) (Fin 4) (Some (Fin 0.1)) None = Some ps
       /\ forall p, In p ps ->
            exists x z,
              vx p = Fin x /\ vz p = Fin z
              /\ - 4 / 2 <= x /\ x < 4 / 2 /\ - 4 / 2 <= z /\ z < 4 / 2.
Proof.
  assert (Hd : 0 < 0.1) by lra.
  assert (Hf : (grid_count 4 0.1 < 5)%nat) by (vm_compute; lia).
  split; [exact Hd|]. split; [exact Hf|].
  apply (anchors_inside_region sample_sin halfplane_intersectObject
           (terrain small_generator) 4 0.1 None 5 Hd Hf).
Defined.

Lemma anchors_distinct_and_bounded_witness :
  0 < 0.3
  /\ (ramp_end_with sample_plus 13 (- Fin 4 / Fin 2)%js
        (Fin 1 / (Fin 0.3 * Fin 10))%js <? Fin 4 / Fin 2)%js = false
  /\ (13 < 14)%nat
  /\ (exists ps,
        generateTreePositions_with sample_sin halfplane_intersectObject
          sample_plus 14 (terrain small_generator) (Fin 4) (Some (Fin 0.3))
          None = Some ps
        /\ List.NoDup (map (fun p => (vx p, vz p)) ps)
        /\ (length ps <= 13 * 13)%nat)
  /\ option_map (@length Vector3)
       (generateTreePositions_with sample_sin halfplane_intersectObject
          sample_plus 14 (terrain small_generator) (Fin 4) (Some (Fin 0.3))
          None)
     = Some 33%nat.
Proof.
  assert (Hd : 0 < 0.3) by lra.
  assert (Hout :
            (ramp_end_with sample_plus 13 (- Fin 4 / Fin 2)%js
               (Fin 1 / (Fin 0.3 * Fin 10))%js <? Fin 4 / Fin 2)%js = false)
    by (vm_compute; reflexivity).
  assert (Hf : (13 < 14)%nat) by lia.
  split; [exact Hd|]. split; [exact Hout|]. split; [exact Hf|].
  split; [|vm_compute; reflexivity].
  destruct (anchors_distinct_and_bounded sample_sin halfplane_intersectObject
              sample_plus (terrain small_generator) 4 0.3 None 13 14 Hd)
    as (ps & Hps & _ & Hnd & Hlen).
  - repeat (constructor; [vm_compute; reflexivity|]). constructor.
  - repeat (constructor; [vm_compute; reflexivity|]). constructor.
  - exact Hout.
  - exact Hf.
  - exists ps. split; [exact Hps|]. split; [exact Hnd|exact Hlen].
Defined.

Lemma generateTreePositions_empty_region_witness :
  -1 <= 0
  /\ generateTreePositions sample_sin halfplane_intersectObject 1
       (terrain small_generator) (Fin (-1)) None None = Some [].
Proof.
  assert (Hg : -1 <= 0) by lra.
  split; [exact Hg|].
  apply (generateTreePositions_empty_region sample_sin
           halfplane_intersectObject (terrain small_generator) (-1) None None
           0 Hg).
Defined.

Lemma generateTreePositions_zero_density_witness :
  0 < 4 /\ 0 == 0
  /\ scannedCandidates 2 (Fin 4) (Some (Fin 0))
     = Some [(Fin (- 4 / 2), Fin (- 4 / 2))].
Proof.
  assert (Hg : 0 < 4) by lra.
  assert (Hd : 0 == 0) by reflexivity.
  split; [exact Hg|]. split; [exact Hd|].
  apply (generateTreePositions_zero_density sample_sin
           halfplane_intersectObject (terrain small_generator) 4 0 None 0
           Hg Hd).
Defined.

Lemma generateTreePositions_negative_density_witness :
  0 < 4 /\ -1 < 0
  /\ generateTreePositions sample_sin halfplane_intersectObject 1000
       (terrain small_generator) (Fin 4) (Some (Fin (-1))) None = None.
Proof.
  assert (Hg : 0 < 4) by lra.
  assert (Hd : -1 < 0) by lra.
  split; [exact Hg|]. split; [exact Hd|].
  apply (generateTreePositions_negative_density sample_sin
           halfplane_intersectObject (terrain small_generator) 4 (-1) None
           1000 Hg Hd).
Defined.

Lemma setPitch_clamps_witness :
  minPitch sample_controller = Fin 15 /\ maxPitch sample_controller = Fin 85
  /\ 15 <= 85
  /\ exists p, getPitch (setPitch (Fin 200) sample_controller) = Fin p
               /\ p == 85.
Proof.
  assert (Hle : 15 <= 85) by lra.
  split; [reflexivity|]. split; [reflexivity|]. split; [exact Hle|].
  destruct (setPitch_clamps sample_controller 15 85 200 eq_refl eq_refl Hle)
    as (p & Hp & _ & _ & _ & Hhi & _).
  exists p. split; [exact Hp|]. apply Hhi. lra.
Defined.

Lemma onMouseWheel_within_limits_witness :
  minZoom far_controller = Fin 10 /\ maxZoom far_controller = Fin 200
  /\ 10 <= 200
  /\ distance far_controller = Fin 198
  /\ zoomSpeed far_controller = Fin 5
  /\ (exists d', distance (onMouseWheel (Fin 1) far_controller) = Fin d'
                 /\ d' == 200)
  /\ (exists d', distance (onMouseWheel (Fin (-1)) far_controller) = Fin d'
                 /\ d' == 198 - 5).
Proof.
  assert (Hle : 10 <= 200) by lra.
  split; [reflexivity|]. split; [reflexivity|]. split; [exact Hle|].
  split; [reflexivity|]. split; [reflexivity|]. split.
  - destruct (onMouseWheel_within_limits far_controller 10 200 198 5 (Fin 1)
                eq_refl eq_refl Hle eq_refl eq_refl)
      as (d' & Hd & _ & _ & Hup & _).
    exists d'. split; [exact Hd|].
    destruct (Hup eq_refl) as (_ & Hat & _). apply Hat. lra.
  - destruct (onMouseWheel_within_limits far_controller 10 200 198 5
                (Fin (-1)) eq_refl eq_refl Hle eq_refl eq_refl)
      as (d' & Hd & _ & _ & _ & Hdown).
    exists d'. split; [exact Hd|].
    destruct (Hdown eq_refl) as (Hin & _). apply Hin; lra.
Defined.

Lemma setZoom_saturates_witness :
  minZoom sample_controller = Fin 10 /\ maxZoom sample_controller = Fin 200
  /\ 10 <= 200
  /\ setZoom (Fin 3) sample_controller = setZoom (Fin 1) sample_controller
  /\ exists d, distance (setZoom (Fin 3) sample_controller) = Fin d
               /\ d == 10.
Proof.
  assert (Hle : 10 <= 200) by lra.
  split; [reflexivity|]. split; [reflexivity|]. split; [exact Hle|].
  destruct (setZoom_saturates sample_controller 10 200 3 eq_refl eq_refl Hle)
    as (Hsat & _ & (d & d0 & Hd & _ & _ & _ & Hone) & _).
  split; [apply Hsat; lra|].
  exists d. split; [exact Hd|]. apply Hone. lra.
Defined.

Lemma getZoom_range_witness :
  minZoom sample_controller = Fin 10 /\ maxZoom sample_controller = Fin 200
  /\ 10 < 200 /\ distance sample_controller = Fin 50
  /\ exists z, getZoom sample_controller = Fin z /\ 0 <= z /\ z <= 1.
Proof.
  assert (Hlt : 10 < 200) by lra.
  split; [reflexivity|]. split; [reflexivity|]. split; [exact Hlt|].
  split; [reflexivity|].
  destruct (getZoom_range sample_controller 10 200 50 eq_refl eq_refl
              Hlt eq_refl) as (z & Hz & Hin & _).
  exists z. split; [exact Hz|]. apply Hin; lra.
Defined.

Lemma getZoom_equal_limits_witness :
  minZoom (setConstraints equal_zoom_limits sample_controller) = Fin 50
  /\ maxZoom (setConstraints equal_zoom_limits sample_controller) = Fin 50
  /\ 50 == 50
  /\ getZoom (setConstraints equal_zoom_limits sample_controller) <> Fin 0.
Proof.
  assert (He : 50 == 50) by reflexivity.
  split; [reflexivity|]. split; [reflexivity|]. split; [exact He|].
  apply (getZoom_equal_limits
           (setConstraints equal_zoom_limits sample_controller) 50 50 50 0
           eq_refl eq_refl He eq_refl).
Defined.

Lemma setConstraints_keeps_distance_witness :
  100 < 200 /\ 50 < 100
  /\ distance (setConstraints raise_minZoom sample_controller) = Fin 50
  /\ minZoom (setConstraints raise_minZoom sample_controller) = Fin 100
  /\ exists z,
       getZoom (setConstraints raise_minZoom sample_controller) = Fin z
       /\ 1 <= z.
Proof.
  assert (Hlt : 100 < 200) by lra.
  assert (Hd : 50 < 100) by lra.
  split; [exact Hlt|]. split; [exact Hd|].
  destruct (setConstraints_keeps_distance raise_minZoom sample_controller
              100 200 50 eq_refl eq_refl eq_refl Hlt Hd)
    as (H1 & Hmin & _ & H2).
  split; [exact H1|]. split; [exact Hmin | exact H2].
Defined.

Lemma key_release_undoes_press_witness :
  sample_toLowerCase "W" = sample_toLowerCase "w"
  /\ onKeyUp sample_toLowerCase "w"
       (onKeyDown sample_toLowerCase "W" sample_controller)
     = sample_controller.
Proof.
  split; [reflexivity|].
  apply (key_release_undoes_press sample_toLowerCase "W" "w"
           sample_controller eq_refl).
  apply not_elem_of_empty.
Defined.

Lemma handleKeyboardInput_no_keys_witness :
  handleKeyboardInput sample_sin sample_cos sample_normalize
    sample_controller = sample_controller.
Proof.
  apply (handleKeyboardInput_no_keys sample_sin sample_cos sample_normalize
           sample_controller).
  unfold bound_keys. repeat constructor; apply not_elem_of_empty.
Defined.

Lemma handleKeyboardInput_distance_within_witness :
  0 <= 5 /\ 10 <= 50 /\ 50 <= 200
  /\ exists d',
       distance (handleKeyboardInput sample_sin sample_cos sample_normalize
                   busy_controller) = Fin d'
       /\ 10 <= d' /\ d' <= 200.
Proof.
  assert (Hz : 0 <= 5) by lra.
  assert (H1 : 10 <= 50) by lra.
  assert (H2 : 50 <= 200) by lra.
  split; [exact Hz|]. split; [exact H1|]. split; [exact H2|].
  apply (handleKeyboardInput_distance_within sample_sin sample_cos
           sample_normalize busy_controller 10 200 5 50 eq_refl eq_refl
           eq_refl Hz eq_refl H1 H2).
Defined.

Lemma busy_controller_keys (k : string) :
  k ∈ keysPressed busy_controller
  <-> k = "e"%string \/ k = "q"%string \/ k = "s"%string \/ k = "w"%string.
Proof.
  change (keysPressed busy_controller)
    with ({[ "e" ]} ∪ ({[ "q" ]} ∪ ({[ "s" ]} ∪ ({[ "w" ]}
            ∪ (∅ : gset string)))))%string.
  rewrite !elem_of_union, !elem_of_singleton, elem_of_empty. tauto.
Qed.

Lemma opposite_move_keys_cancel_witness :
  ("w" ∈ keysPressed busy_controller <-> "s" ∈ keysPressed busy_controller)
  /\ ("a" ∈ keysPressed busy_controller
      <-> "d" ∈ keysPressed busy_controller)
  /\ vec_eqv
       (target (handleKeyboardInput sample_sin sample_cos sample_normalize
                  busy_controller))
       (target busy_controller).
Proof.
  assert (Hws : "w" ∈ keysPressed busy_controller
                <-> "s" ∈ keysPressed busy_controller)
    by (rewrite !busy_controller_keys; split; intros _; auto).
  assert (Had : "a" ∈ keysPressed busy_controller
                <-> "d" ∈ keysPressed busy_controller)
    by (rewrite !busy_controller_keys; split;
        intros [H|[H|[H|H]]]; discriminate H).
  split; [exact Hws|]. split; [exact Had|].
  apply (opposite_move_keys_cancel sample_sin sample_cos sample_normalize
           busy_controller 0 0 0 (sample_sin 0) 0 (sample_cos 0)
           (sample_cos 0) 0 (- sample_sin 0) 30 eq_refl eq_refl eq_refl
           eq_refl Hws Had).
Defined.

Lemma opposite_rotation_keys_cancel_witness :
  ("q" ∈ keysPressed busy_controller <-> "e" ∈ keysPressed busy_controller)
  /\ Num.eqv
       (yaw (handleKeyboardInput sample_sin sample_cos sample_normalize
               busy_controller))
       (yaw busy_controller).
Proof.
  assert (Hqe : "q" ∈ keysPressed busy_controller
                <-> "e" ∈ keysPressed busy_controller)
    by (rewrite !busy_controller_keys; split; intros _; auto).
  split; [exact Hqe|].
  apply (opposite_rotation_keys_cancel sample_sin sample_cos sample_normalize
           busy_controller 0 0.01 eq_refl eq_refl Hqe).
Defined.

Lemma onMouseMove_idle_witness :
  mouseDown sample_controller = false
  /\ onMouseMove sample_sin sample_cos sample_normalize drag_event
       sample_controller
     = set_mouse false (Fin 30) (Fin 25) sample_controller.
Proof.
  split; [reflexivity|].
  apply (onMouseMove_idle sample_sin sample_cos sample_normalize drag_event
           sample_controller).
  left. reflexivity.
Defined.

Lemma onMouseMove_rotates_witness :
  mouseDown pressed_controller = true /\ buttons drag_event = 2%N
  /\ buttons long_drag_event = 2%N
  /\ 15 <= 85
  /\ yaw (onMouseMove sample_sin sample_cos sample_normalize drag_event
            pressed_controller)
     = Fin (0 - (30 - 10) * 0.01)
  /\ (exists p',
        pitch (onMouseMove sample_sin sample_cos sample_normalize drag_event
                 pressed_controller) = Fin p'
        /\ p' == 45 + (25 - 20) * 0.01)
  /\ (exists p',
        pitch (onMouseMove sample_sin sample_cos sample_normalize
                 long_drag_event pressed_controller) = Fin p'
        /\ p' == 85).
Proof.
  assert (Hle : 15 <= 85) by lra.
  split; [reflexivity|]. split; [reflexivity|]. split; [reflexivity|].
  split; [exact Hle|].
  destruct (onMouseMove_rotates sample_sin sample_cos sample_normalize
              drag_event pressed_controller 30 25 10 20 0 45 0.01 15 85
              eq_refl eq_refl eq_refl eq_refl eq_refl eq_refl eq_refl eq_refl
              eq_refl eq_refl eq_refl Hle)
    as (Hy & (p' & Hp & _ & _ & Hin & _) & _).
  split; [exact Hy|]. split.
  - exists p'. split; [exact Hp|]. apply Hin; lra.
  - destruct (onMouseMove_rotates sample_sin sample_cos sample_normalize
                long_drag_event pressed_controller 30 5020 10 20 0 45 0.01
                15 85 eq_refl eq_refl eq_refl eq_refl eq_refl eq_refl eq_refl
                eq_refl eq_refl eq_refl eq_refl Hle)
      as (_ & (q' & Hq & _ & _ & _ & Hat & _) & _).
    exists q'. split; [exact Hq|]. apply Hat. lra.
Defined.

Lemma dispose_detaches_nothing_witness :
  closures_below empty_host
  /\ document_listeners (dispose (setupEventListeners empty_host))
     = [ {| event_type := "keydown"; closure := 0; handler := OnKeyDown |};
         {| event_type := "keyup"; closure := 1; handler := OnKeyUp |} ]
  /\ length (element_listeners (dispose (setupEventListeners empty_host)))
     = 5%nat.
Proof.
  assert (H : closures_below empty_host) by (split; constructor).
  split; [exact H|].
  destruct (dispose_detaches_nothing empty_host H) as (_ & _ & Hd & He).
  split; [exact Hd|]. rewrite He. reflexivity.
Defined.

Lemma panByPixels_reversible_witness :
  target sample_controller = vec3 (Fin 0) (Fin 0) (Fin 0)
  /\ distance sample_controller = Fin 50
  /\ panSpeed sample_controller = Fin 30
  /\ vec_eqv
       (target
          (panByPixels sample_sin sample_cos sample_normalize (Fin (- 12))
             (Fin (- -7))
             (panByPixels sample_sin sample_cos sample_normalize (Fin 12)
                (Fin (-7)) sample_controller)))
       (target sample_controller).
Proof.
  split; [reflexivity|]. split; [reflexivity|]. split; [reflexivity|].
  destruct (panByPixels_reversible sample_sin sample_cos sample_normalize
              sample_controller 12 (-7) 0 0 0 (sample_sin 0) 0 (sample_cos 0)
              (sample_cos 0) 0 (- sample_sin 0) 50 30 eq_refl eq_refl eq_refl
              eq_refl eq_refl) as [H _].
  exact H.
Defined.
